(** * Mini Event Management System API: a shallow embedding

    The development follows the Python sources:

    - [schemas.py]           the pydantic models [EventBase] / [EventCreate]
                             / [EventResponse] and their two validators;
    - [event_service.py]     [EventService];
    - [attendee_service.py]  [AttendeeService];
    - [models.py]            the two tables, the uniqueness constraint
                             [_email_event_uc] and [Event.to_dict];
    - [events.py]            the FastAPI router;
    - [database.py]          the store, at its default URL.

    The libraries the sources call ([datetime], [pytz], pydantic's
    validation loop, the SQL statements SQLAlchemy emits) are modelled in
    the first modules, as far as the sources use them.  The relational
    store is the SQLite database of [database.py]: two tables held as
    row lists in insertion order; an integer given to a statement must
    fit 64 bits; a [DateTime] column keeps the wall clock reading of the
    value written and hands it back without [tzinfo]. *)

From Stdlib Require Import ZArith List String Ascii Bool Lia.
From Stdlib Require Import Permutation Sorted.
Import ListNotations.

Local Open Scope string_scope.
Local Open Scope Z_scope.
Local Open Scope list_scope.

(* ================================================================== *)
(** * Python exceptions and results *)
(* ================================================================== *)

(** The exceptions that can leave a function of the program.  [ValueError]
    and [TypeError] are the ones pydantic turns into a field error;
    [ValidationError] is what pydantic raises at the end, with one
    [(loc, msg)] pair per failed field.  [OverflowError] is raised by
    [datetime] arithmetic that leaves the years 1 to 9999, and by
    [sqlite3] when an integer given to a statement does not fit 64
    bits; [IntegrityError] and [OperationalError] come from the
    store. *)
Inductive Exn : Type :=
| HTTPException (status_code : Z) (detail : string)
| ValidationError (errors : list (string * string))
| ValueError (msg : string)
| TypeError
| AttributeError
| OverflowError
| RecursionError
| UnknownTimeZoneError (zone : string)
| IntegrityError (constraint : string)
| OperationalError.

Inductive Result (A : Type) : Type :=
| Return (a : A)
| Raise (e : Exn).

Arguments Return {A} a.
Arguments Raise {A} e.

Definition bindR {A B : Type} (r : Result A) (k : A -> Result B) : Result B :=
  match r with
  | Return a => k a
  | Raise e => Raise e
  end.

Declare Scope py_scope.
Delimit Scope py_scope with py.
Notation "x <- c ;; k" := (bindR c (fun x => k))
  (at level 61, c at next level, right associativity) : py_scope.
Local Open Scope py_scope.

(** The values of [fastapi.status] the sources name. *)
Definition HTTP_200_OK : Z := 200.
Definition HTTP_201_CREATED : Z := 201.
Definition HTTP_400_BAD_REQUEST : Z := 400.
Definition HTTP_404_NOT_FOUND : Z := 404.
Definition HTTP_422_UNPROCESSABLE_ENTITY : Z := 422.
Definition HTTP_500_INTERNAL_SERVER_ERROR : Z := 500.

(* ================================================================== *)
(** * [datetime] *)
(* ================================================================== *)

Module Datetime.

(** Durations ([timedelta]) are integers, in microseconds. *)
Definition MICROSECOND : Z := 1.
Definition SECOND : Z := 1000000.
Definition MINUTE : Z := 60 * SECOND.
Definition HOUR : Z := 60 * MINUTE.
Definition DAY : Z := 24 * HOUR.

(** [date.max.toordinal()]: the days from 0001-01-01 to 9999-12-31. *)
Definition MAXORDINAL : Z := 3652059.

(** One [(utcoffset, dst, tzname)] key of a pytz zone. *)
Record TransitionInfo : Type := mkInfo {
  ti_utcoffset : Z;
  ti_dst : Z;
  ti_tzname : string
}.

(** The [tzinfo] objects the program meets: the fixed offsets
    [datetime.fromisoformat] builds, and pytz's per-offset instances
    (pytz keeps one object per zone and key, so that equality here is
    object identity there). *)
Inductive tzinfo : Type :=
| timezone (offset : Z)
| pytz_tzinfo (zone : string) (inf : TransitionInfo).

Definition utcoffset (tz : tzinfo) : Z :=
  match tz with
  | timezone offset => offset
  | pytz_tzinfo _ inf => ti_utcoffset inf
  end.

Definition info_eqb (a b : TransitionInfo) : bool :=
  (ti_utcoffset a =? ti_utcoffset b) && (ti_dst a =? ti_dst b)
  && String.eqb (ti_tzname a) (ti_tzname b).

(** [tz is mytz]. *)
Definition tzinfo_is (a b : tzinfo) : bool :=
  match a, b with
  | pytz_tzinfo za ia, pytz_tzinfo zb ib => String.eqb za zb && info_eqb ia ib
  | _, _ => false
  end.

(** A [datetime]: the wall clock reading, in microseconds since
    0001-01-01T00:00:00 (the proleptic Gregorian calendar of
    [toordinal]), and the [tzinfo] attribute ([None] for a naive
    value). *)
Record datetime : Type := mkDatetime {
  wall : Z;
  dt_tzinfo : option tzinfo
}.

(** The representable wall clock readings: years 1 to 9999. *)
Definition in_range (w : Z) : bool :=
  (0 <=? w) && (w <? MAXORDINAL * DAY).

(** [dt + delta]: the [tzinfo] is kept, and a result outside
    [datetime.min .. datetime.max] raises [OverflowError]. *)
Definition add_timedelta (dt : datetime) (delta : Z) : Result datetime :=
  if in_range (wall dt + delta)
  then Return (mkDatetime (wall dt + delta) (dt_tzinfo dt))
  else Raise OverflowError.

Definition replace_tzinfo (dt : datetime) (tz : option tzinfo) : datetime :=
  mkDatetime (wall dt) tz.

(** The absolute instant of an aware value: its wall clock reading in
    UTC.  A naive value has no instant of its own; what stands for it
    here is its reading, which is how the store orders the readings
    it keeps. *)
Definition instant (dt : datetime) : Z :=
  match dt_tzinfo dt with
  | Some tz => wall dt - utcoffset tz
  | None => wall dt
  end.

(** [a <= b]: aware values compare by instant, naive ones by wall
    clock, and mixing the two raises [TypeError]. *)
Definition le (a b : datetime) : Result bool :=
  match dt_tzinfo a, dt_tzinfo b with
  | Some _, Some _ => Return (instant a <=? instant b)
  | None, None => Return (wall a <=? wall b)
  | _, _ => Raise TypeError
  end.

End Datetime.
Import Datetime.

(* ================================================================== *)
(** * [pytz] *)
(* ================================================================== *)

Module Pytz.

(** The object [pytz.timezone(name)] returns: the zone's first key
    ([_transition_info[0]], in force before every transition) and the
    later transitions, each the UTC wall clock reading at which it
    starts with the key in force from then on
    ([_utc_transition_times] with [_transition_info]).  A zone without
    transitions (a [StaticTzInfo], or [pytz.utc]) has an empty table. *)
Record Zone : Type := mkZone {
  zone_name : string;
  zone_first : TransitionInfo;
  zone_transitions : list (Z * TransitionInfo)
}.

(** [_transition_info[max(0, bisect_right(_utc_transition_times, t) - 1)]]
    on a table sorted by time. *)
Fixpoint info_scan (cur : TransitionInfo) (ts : list (Z * TransitionInfo))
         (t : Z) : TransitionInfo :=
  match ts with
  | [] => cur
  | (t0, inf) :: rest => if t0 <=? t then info_scan inf rest t else cur
  end.

Definition info_at (z : Zone) (t : Z) : TransitionInfo :=
  info_scan (zone_first z) (zone_transitions z) t.

(** The instance a zone object is itself: the one of its first key. *)
Definition zone_tzinfo (z : Zone) : tzinfo :=
  pytz_tzinfo (zone_name z) (zone_first z).

(** [tz.fromutc(dt)], on the UTC wall clock reading [utc]:
    [(dt + inf[0]).replace(tzinfo=self._tzinfos[inf])]. *)
Definition fromutc (z : Zone) (utc : Z) : Result datetime :=
  let inf := info_at z utc in
  dt <- add_timedelta (mkDatetime utc None) (ti_utcoffset inf) ;;
  Return (replace_tzinfo dt (Some (pytz_tzinfo (zone_name z) inf))).

(** [tzinfo.normalize(dt)]: to UTC with the offset [dt] carries, and
    back through [fromutc]. *)
Definition normalize (z : Zone) (dt : datetime) (inf : TransitionInfo)
  : Result datetime :=
  utc <- add_timedelta (replace_tzinfo dt None) (- ti_utcoffset inf) ;;
  fromutc z (wall utc).

Definition datetime_eqb (a b : datetime) : bool :=
  (wall a =? wall b) &&
  match dt_tzinfo a, dt_tzinfo b with
  | Some ta, Some tb => tzinfo_is ta tb
  | _, _ => false
  end.

(** One round of the loop of [localize]: the candidate the key in
    force one day before (after) [dt] gives, kept when it reads [dt]
    on the wall clock.  The round is written without a handler: an
    [OverflowError] of [dt + delta] or of the normalisation leaves
    it. *)
Definition localize_candidate (z : Zone) (dt : datetime) (delta : Z)
  : Result (list datetime) :=
  loc_dt <- add_timedelta dt delta ;;
  let inf := info_at z (wall loc_dt) in
  loc <- normalize z dt inf ;;
  Return (if wall loc =? wall dt then [loc] else []).

(** [possible_loc_dt] is a set.  Its members all come out of
    [fromutc], which fixes the [tzinfo] by the instant, so that two of
    them are equal as Python compares them (by instant) exactly when
    they are the same value. *)
Definition set_add (d : datetime) (s : list datetime) : list datetime :=
  if existsb (datetime_eqb d) s then s else s ++ [d].

Definition is_standard (d : datetime) : bool :=
  match dt_tzinfo d with
  | Some (pytz_tzinfo _ inf) => ti_dst inf =? 0
  | _ => true
  end.

(** The member of a non-empty candidate list that is latest in UTC. *)
Fixpoint latest (d : datetime) (ds : list datetime) : datetime :=
  match ds with
  | [] => d
  | d' :: rest =>
      if instant d <? instant d' then latest d' rest else latest d rest
  end.

(** Python's default recursion limit bounds the retries of
    [localize]. *)
Definition RECURSION_LIMIT : nat := 1000.

(** The steps of [tz.localize(dt)] with the default [is_dst=False]. *)
Fixpoint localize_from (depth : nat) (z : Zone) (dt : datetime)
  : Result datetime :=
  match depth with
  | O => Raise RecursionError
  | S depth' =>
      match dt_tzinfo dt with
      | Some _ => Raise (ValueError "Not naive datetime (tzinfo is already set)")
      | None =>
          before <- localize_candidate z dt (- DAY) ;;
          after <- localize_candidate z dt DAY ;;
          let possible_loc_dt := fold_left (fun s d => set_add d s) (before ++ after) [] in
          match possible_loc_dt with
          | [loc] => Return loc
          | [] =>
              (* a wall clock reading that never happened: wind the
                 clock back six hours, localize, wind it forward *)
              earlier <- add_timedelta dt (- (6 * HOUR)) ;;
              loc <- localize_from depth' z earlier ;;
              add_timedelta loc (6 * HOUR)
          | d :: ds =>
              (* an ambiguous reading: keep the standard-time
                 candidates, and of those the latest in UTC *)
              match filter is_standard possible_loc_dt with
              | [loc] => Return loc
              | [] => Return (latest d ds)
              | d' :: ds' => Return (latest d' ds')
              end
          end
      end
  end.

Definition localize_steps (z : Zone) (dt : datetime) : Result datetime :=
  localize_from RECURSION_LIMIT z dt.

(** [pytz.utc]. *)
Definition utc : Zone := mkZone "UTC" (mkInfo 0 0 "UTC") [].

End Pytz.
Import Pytz.

(* ================================================================== *)
(** * What the Python runtime supplies *)
(* ================================================================== *)

(** Four things come from outside the program and are left open:

    - [datetime.fromisoformat] on a string: the value it parses, or the
      message of the [ValueError] it raises (the message depends on the
      string and on the release of Python);
    - the zone database behind [pytz.timezone] ([None] for its
      [UnknownTimeZoneError]);
    - what [localize] does at the two ends of the calendar, where its
      steps leave the years 1 to 9999: releases of pytz differ there,
      some letting the [OverflowError] out ([None]) and others going
      on to a reading with one of the zone's keys;
    - the offset of the platform's local zone at a wall clock reading,
      which [astimezone] gives a naive value. *)
Class PythonRuntime : Type := {
  fromisoformat : string -> datetime + string;
  pytz_timezone : string -> option Zone;
  localize_at_the_ends : Zone -> datetime -> option (Z * TransitionInfo);
  local_utcoffset : Z -> Z
}.

Section Library_calls.
Context `{PythonRuntime}.

(** [dt.astimezone(tz)]: a no-op when [tz is dt.tzinfo], else
    [tz.fromutc((dt - offset).replace(tzinfo=tz))]; a naive [dt] is
    taken to be in the local zone of the platform. *)
Definition astimezone (dt : datetime) (tz : Zone) : Result datetime :=
  match dt_tzinfo dt with
  | Some mytz =>
      if tzinfo_is (zone_tzinfo tz) mytz then Return dt
      else
        u <- add_timedelta dt (- utcoffset mytz) ;;
        fromutc tz (wall u)
  | None =>
      u <- add_timedelta dt (- local_utcoffset (wall dt)) ;;
      fromutc tz (wall u)
  end.

Definition timezone_or_raise (name : string) : Result Zone :=
  match pytz_timezone name with
  | Some z => Return z
  | None => Raise (UnknownTimeZoneError name)
  end.

(** [tz.localize(dt)]: the steps above, and where they overflow what
    the release at hand does instead. *)
Definition localize (tz : Zone) (dt : datetime) : Result datetime :=
  match localize_steps tz dt with
  | Raise OverflowError =>
      match localize_at_the_ends tz dt with
      | Some (reading, inf) =>
          Return (mkDatetime reading (Some (pytz_tzinfo (zone_name tz) inf)))
      | None => Raise OverflowError
      end
  | outcome => outcome
  end.

End Library_calls.

(* ================================================================== *)
(** * [schemas.py] *)
(* ================================================================== *)

(** A field of a request body, as pydantic's coercion to the declared
    type sees it: absent, present but not of the type, or a value. *)
Inductive Field (A : Type) : Type :=
| Missing
| Malformed
| Given (v : A).

Arguments Missing {A}.
Arguments Malformed {A}.
Arguments Given {A} v.

(** What arrives in a [datetime] field before validation: a string (a
    JSON body), a [datetime] object (a Python caller, or a row of the
    store), or a value that is neither, such as a number or [null]. *)
Inductive RawTime : Type :=
| RawStr (s : string)
| RawDatetime (d : datetime)
| RawOther.

Record RawEvent : Type := mkRawEvent {
  raw_name : Field string;
  raw_location : Field string;
  raw_start_time : option RawTime;
  raw_end_time : option RawTime;
  raw_max_capacity : Field Z
}.

(** A validated [EventCreate]. *)
Record EventCreate : Type := mkEventCreate {
  EventCreate_name : string;
  EventCreate_location : string;
  EventCreate_start_time : datetime;
  EventCreate_end_time : datetime;
  EventCreate_max_capacity : Z
}.

(** [EventResponse(EventBase)] adds [id: int]. *)
Record EventResponse : Type := mkEventResponse {
  EventResponse_id : Z;
  EventResponse_event : EventCreate
}.

(** A validated [AttendeeCreate]: [name: str], [email: EmailStr]. *)
Record AttendeeCreate : Type := mkAttendeeCreate {
  AttendeeCreate_name : string;
  AttendeeCreate_email : string
}.

Definition FieldError : Type := (string * string)%type.

Module Pydantic.

(** A validator's [ValueError] or [TypeError] becomes an error of the
    field, with the exception's message; any other exception leaves
    the validation. *)
Definition apply_validators {A : Type} (loc : string) (r : Result A)
  : Result (option A * list FieldError) :=
  match r with
  | Return a => Return (Some a, [])
  | Raise (ValueError msg) => Return (None, [(loc, msg)])
  | Raise TypeError => Return (None, [(loc, "type error")])
  | Raise e => Raise e
  end.

Definition validate_str (loc : string) (f : Field string)
  : option string * list FieldError :=
  match f with
  | Given s => (Some s, [])
  | Malformed => (None, [(loc, "str type expected")])
  | Missing => (None, [(loc, "field required")])
  end.

(** [max_capacity: int] carries no constraint: every integer is
    valid. *)
Definition validate_int (loc : string) (f : Field Z)
  : option Z * list FieldError :=
  match f with
  | Given n => (Some n, [])
  | Malformed => (None, [(loc, "value is not a valid integer")])
  | Missing => (None, [(loc, "field required")])
  end.

End Pydantic.

Module EventBase.
Section WithRuntime.
Context `{PythonRuntime}.

(** [@validator('start_time', 'end_time', pre=True, always=True)] *)
Definition ensure_timezone_awareness (v : RawTime) : Result datetime :=
  v <- match v with
       | RawStr s =>
           match fromisoformat s with
           | inl d => Return d
           | inr msg => Raise (ValueError msg)
           end
       | RawDatetime d => Return d
       | RawOther => Raise AttributeError
       end ;;
  match dt_tzinfo v with
  | None =>
      tz <- timezone_or_raise "Asia/Kolkata" ;;
      localize tz v
  | Some _ => Return v
  end.

(** [@validator('end_time')]; [start] is [values.get('start_time')]. *)
Definition end_time_must_be_after_start_time
           (v : datetime) (start : option datetime) : Result datetime :=
  match start with
  | Some start_time =>
      not_after <- Datetime.le v start_time ;;
      if not_after
      then Raise (ValueError "End time must be after start time")
      else Return v
  | None => Return v
  end.

Definition validate_start_time (f : option RawTime)
  : Result (option datetime * list FieldError) :=
  match f with
  | None => Return (None, [("start_time", "field required")])
  | Some v =>
      Pydantic.apply_validators "start_time" (ensure_timezone_awareness v)
  end.

Definition validate_end_time (f : option RawTime) (start : option datetime)
  : Result (option datetime * list FieldError) :=
  match f with
  | None => Return (None, [("end_time", "field required")])
  | Some v =>
      pre <- Pydantic.apply_validators "end_time" (ensure_timezone_awareness v) ;;
      match pre with
      | (Some v, _) =>
          Pydantic.apply_validators "end_time"
            (end_time_must_be_after_start_time v start)
      | (None, errors) => Return (None, errors)
      end
  end.

(** pydantic's [validate_model] on the five fields, in the order the
    class declares them; a field that failed is not in [values]. *)
Definition validate (raw : RawEvent) : Result EventCreate :=
  let '(name, e1) := Pydantic.validate_str "name" (raw_name raw) in
  let '(location, e2) := Pydantic.validate_str "location" (raw_location raw) in
  s <- validate_start_time (raw_start_time raw) ;;
  let '(start_time, e3) := s in
  e <- validate_end_time (raw_end_time raw) start_time ;;
  let '(end_time, e4) := e in
  let '(max_capacity, e5) :=
    Pydantic.validate_int "max_capacity" (raw_max_capacity raw) in
  match e1 ++ e2 ++ e3 ++ e4 ++ e5,
        name, location, start_time, end_time, max_capacity with
  | [], Some name, Some location, Some start_time, Some end_time,
    Some max_capacity =>
      Return (mkEventCreate name location start_time end_time max_capacity)
  | errors, _, _, _, _, _ => Raise (ValidationError errors)
  end.

End WithRuntime.
End EventBase.

Module EventResponseModel.
Section WithRuntime.
Context `{PythonRuntime}.

(** A [schemas.EventResponse] built from six values that have their
    types already (keyword arguments, or the attributes of a row under
    [orm_mode]): the five fields it inherits go through the validators
    of [EventBase] once more, and [id: int] is kept. *)
Definition validate (id : Z) (name location : string)
           (start_time end_time : datetime) (max_capacity : Z)
  : Result EventResponse :=
  e <- EventBase.validate
         (mkRawEvent (Given name) (Given location)
                     (Some (RawDatetime start_time))
                     (Some (RawDatetime end_time))
                     (Given max_capacity)) ;;
  Return (mkEventResponse id e).

End WithRuntime.
End EventResponseModel.

(* ================================================================== *)
(** * [models.py], [database.py] and the store *)
(* ================================================================== *)

(** A row of [events] as a query returns it. *)
Record Event : Type := mkEvent {
  Event_id : Z;
  Event_name : string;
  Event_location : string;
  Event_start_time : datetime;
  Event_end_time : datetime;
  Event_max_capacity : Z
}.

Record Attendee : Type := mkAttendee {
  Attendee_id : Z;
  Attendee_name : string;
  Attendee_email : string;
  Attendee_event_id : Z
}.

(** The two tables, rows in insertion order. *)
Record DB : Type := mkDB {
  events : list Event;
  attendees : list Attendee
}.

Definition empty_db : DB := mkDB [] [].

Module Sql.

(** The integers SQLite stores. *)
Definition INT64_MIN : Z := - 2 ^ 63.
Definition INT64_MAX : Z := 2 ^ 63 - 1.

(** Giving a Python [int] to a statement as a parameter: [sqlite3]
    raises [OverflowError] for one that does not fit 64 bits, before
    the statement runs. *)
Definition bind (n : Z) : Result Z :=
  if (INT64_MIN <=? n) && (n <=? INT64_MAX)
  then Return n
  else Raise OverflowError.

(** An [INTEGER PRIMARY KEY] left out of an insert: one more than the
    largest key of the table. *)
Definition next_id (ids : list Z) : Z := 1 + fold_right Z.max 0 ids.

(** [select(Event).where(Event.id == event_id)], [.scalars().first()] *)
Definition select_event (db : DB) (event_id : Z) : Result (option Event) :=
  id <- bind event_id ;;
  Return (find (fun e => Event_id e =? id) (events db)).

Definition of_event (event_id : Z) (a : Attendee) : bool :=
  Attendee_event_id a =? event_id.

(** [select(func.count(Attendee.id)).where(Attendee.event_id == event_id)],
    for an [event_id] that a statement took before. *)
Definition count_attendees (db : DB) (event_id : Z) : Z :=
  Z.of_nat (List.length (filter (of_event event_id) (attendees db))).

(** [select(Attendee).where(Attendee.event_id == event_id,
                            Attendee.email == email)], [.first()],
    for an [event_id] that a statement took before. *)
Definition select_attendee (db : DB) (event_id : Z) (email : string)
  : option Attendee :=
  find (fun a => of_event event_id a && String.eqb (Attendee_email a) email)
       (attendees db).

(** [ORDER BY attendees.id] *)
Fixpoint insert_by_id (a : Attendee) (l : list Attendee) : list Attendee :=
  match l with
  | [] => [a]
  | b :: l' =>
      if Attendee_id a <=? Attendee_id b then a :: l
      else b :: insert_by_id a l'
  end.

Definition order_by_id (l : list Attendee) : list Attendee :=
  fold_right insert_by_id [] l.

(** [OFFSET ?] and [LIMIT ?]: both are parameters of the statement,
    and SQLite reads a negative offset as none and a negative limit
    as no limit. *)
Definition offset_rows {A : Type} (offset : Z) (l : list A)
  : Result (list A) :=
  n <- bind offset ;;
  Return (skipn (Z.to_nat n) l).

Definition limit_rows {A : Type} (limit : Z) (l : list A)
  : Result (list A) :=
  n <- bind limit ;;
  Return (if n <? 0 then l else firstn (Z.to_nat n) l).

(** What a [DateTime] column keeps of a value and gives back: the
    wall clock reading, without [tzinfo]. *)
Definition stored_datetime (dt : datetime) : datetime :=
  replace_tzinfo dt None.

(** [INSERT INTO events], and the row as [refresh] reads it back.
    [max_capacity] is a parameter of the statement.  When the largest
    key is the largest integer, SQLite looks for an unused key and
    gives up ([SQLITE_FULL]) when it finds none; the keys being
    [1, 2, ...] as this insert leaves them, none is unused then. *)
Definition insert_event (db : DB) (name location : string)
           (start_time end_time : datetime) (max_capacity : Z)
  : DB * Result Event :=
  match bind max_capacity with
  | Raise e => (db, Raise e)
  | Return max_capacity =>
      let id := next_id (map Event_id (events db)) in
      if INT64_MAX <? id then (db, Raise OperationalError)
      else
        let e := mkEvent id name location
                         (stored_datetime start_time)
                         (stored_datetime end_time) max_capacity in
        (mkDB (events db ++ [e]) (attendees db), Return e)
  end.

(** [INSERT INTO attendees], under
    [UniqueConstraint('email', 'event_id', name='_email_event_uc')],
    for an [event_id] that a statement took before.  No operation
    deletes an event, so the foreign key is not checked here. *)
Definition insert_attendee (db : DB) (name email : string) (event_id : Z)
  : DB * Result Attendee :=
  match select_attendee db event_id email with
  | Some _ => (db, Raise (IntegrityError "_email_event_uc"))
  | None =>
      let a := mkAttendee (next_id (map Attendee_id (attendees db)))
                          name email event_id in
      (mkDB (events db) (attendees db ++ [a]), Return a)
  end.

End Sql.

(* ================================================================== *)
(** * Requests against the shared store *)
(* ================================================================== *)

(** A request works on the store through its own session and either
    returns or raises; the store it leaves is the store the next
    statement of anybody finds. *)
Definition Session (A : Type) : Type := DB -> DB * Result A.

Definition ret {A : Type} (a : A) : Session A := fun db => (db, Return a).

Definition raise {A : Type} (e : Exn) : Session A := fun db => (db, Raise e).

Definition bindS {A B : Type} (c : Session A) (k : A -> Session B) : Session B :=
  fun db =>
    match c db with
    | (db', Return a) => k a db'
    | (db', Raise e) => (db', Raise e)
    end.

Notation "x <~ c ;; k" := (bindS c (fun x => k))
  (at level 61, c at next level, right associativity) : py_scope.

(** [await db.execute(stmt)] for a statement that only reads: its
    rows, or the exception of its parameters. *)
Definition execute {A : Type} (stmt : DB -> Result A) : Session A :=
  fun db => (db, stmt db).

(** Every [await] hands control to the event loop, and the requests it
    runs meanwhile may commit.  A [Schedule] gives, for the n-th
    [await] of a request, what the others do to the store before the
    request goes on; under [sequential] nobody else runs. *)
Definition Schedule : Type := nat -> DB -> DB.

Definition sequential : Schedule := fun _ db => db.

Definition others_run (others : Schedule) (n : nat) : Session unit :=
  fun db => (others n db, Return tt).

(* ================================================================== *)
(** * [event_service.py] *)
(* ================================================================== *)

Module EventService.
Section WithRuntime.
Context `{PythonRuntime}.

(** [db.add], [db.commit], [db.refresh]: the row returned is the row
    as the store has it. *)
Definition create_event (event_data : EventCreate) : Session Event :=
  fun db =>
    match astimezone (EventCreate_start_time event_data) utc with
    | Raise e => (db, Raise e)
    | Return utc_start_time =>
        match astimezone (EventCreate_end_time event_data) utc with
        | Raise e => (db, Raise e)
        | Return utc_end_time =>
            Sql.insert_event db
              (EventCreate_name event_data)
              (EventCreate_location event_data)
              utc_start_time utc_end_time
              (EventCreate_max_capacity event_data)
        end
    end.

(** [ORDER BY events.start_time] *)
Fixpoint insert_by_start (e : Event) (l : list Event) : list Event :=
  match l with
  | [] => [e]
  | b :: l' =>
      if instant (Event_start_time e) <=? instant (Event_start_time b)
      then e :: l
      else b :: insert_by_start e l'
  end.

Definition order_by_start_time (l : list Event) : list Event :=
  fold_right insert_by_start [] l.

(** [now] is the reading of [datetime.now(pytz.utc)]; the store
    compares it, as a parameter, with the readings it keeps. *)
Definition get_events (now : Z) (skip limit : Z) : Session (list Event) :=
  let now_utc := mkDatetime now (Some (zone_tzinfo utc)) in
  execute (fun db =>
    rows <- Sql.offset_rows skip
              (order_by_start_time
                 (filter (fun e => instant now_utc <? instant (Event_end_time e))
                         (events db))) ;;
    Sql.limit_rows limit rows).

Definition get_event_by_id (event_id : Z) : Session (option Event) :=
  execute (fun db => Sql.select_event db event_id).

Definition get_event_attendee_count (event_id : Z) : Session Z :=
  execute (fun db =>
    id <- Sql.bind event_id ;;
    Return (Sql.count_attendees db id)).

End WithRuntime.
End EventService.

(* ================================================================== *)
(** * [attendee_service.py] *)
(* ================================================================== *)

Record PaginatedAttendeesResponse : Type := mkPage {
  total : Z;
  page : Z;
  size : Z;
  pages : Z;
  items : list Attendee
}.

Module AttendeeService.

Definition register_attendee (others : Schedule) (event_id : Z)
           (attendee_data : AttendeeCreate) : Session Attendee :=
  (* Check if event exists *)
  event <~ execute (fun db => Sql.select_event db event_id) ;;
  _ <~ others_run others 1 ;;
  match event with
  | None => raise (HTTPException HTTP_404_NOT_FOUND "Event not found")
  | Some event =>
      (* Check for overbooking *)
      current_attendee_count <~
        execute (fun db => Return (Sql.count_attendees db event_id)) ;;
      _ <~ others_run others 2 ;;
      if current_attendee_count >=? Event_max_capacity event
      then raise (HTTPException HTTP_400_BAD_REQUEST
                                "Event is at full capacity")
      else
        (* Check for duplicate registration *)
        existing_attendee <~
          execute (fun db =>
            Return (Sql.select_attendee db event_id
                      (AttendeeCreate_email attendee_data))) ;;
        _ <~ others_run others 3 ;;
        match existing_attendee with
        | Some _ =>
            raise (HTTPException HTTP_400_BAD_REQUEST
              "Attendee with this email already registered for this event")
        | None =>
            (* db.add, db.commit, db.refresh: no handler around them *)
            fun db =>
              Sql.insert_attendee db
                (AttendeeCreate_name attendee_data)
                (AttendeeCreate_email attendee_data)
                event_id
        end
  end.

Definition get_attendees_for_event (others : Schedule) (event_id : Z)
           (page size : Z) : Session PaginatedAttendeesResponse :=
  let page := if page <? 1 then 1 else page in
  let size := if size <? 1 then 10 else size in
  let offset := (page - 1) * size in
  (* Check if event exists *)
  event <~ execute (fun db => Sql.select_event db event_id) ;;
  _ <~ others_run others 1 ;;
  match event with
  | None => raise (HTTPException HTTP_404_NOT_FOUND "Event not found")
  | Some _ =>
      (* Get total count of attendees for the event *)
      total_attendees <~
        execute (fun db => Return (Sql.count_attendees db event_id)) ;;
      _ <~ others_run others 2 ;;
      (* Get paginated attendees *)
      attendees <~
        execute (fun db =>
          rows <- Sql.offset_rows offset
                    (Sql.order_by_id
                       (filter (Sql.of_event event_id) (attendees db))) ;;
          Sql.limit_rows size rows) ;;
      let total_pages := (total_attendees + size - 1) / size in
      ret (mkPage total_attendees page size total_pages attendees)
  end.

End AttendeeService.

(* ================================================================== *)
(** * [events.py] and [main.py]: the HTTP surface *)
(* ================================================================== *)

Inductive Body : Type :=
| EventBody (e : EventResponse)
| EventListBody (l : list EventResponse)
| AttendeeBody (a : Attendee)
| PageBody (p : PaginatedAttendeesResponse)
| DetailBody (detail : string)
| ValidationBody (errors : list FieldError)
| InternalServerError.

Record Response : Type := mkResponse {
  status_code : Z;
  body : Body
}.

(** An [HTTPException] becomes its own response; whatever else leaves
    a handler, or the building of its answer, is a 500. *)
Definition exception_response (e : Exn) : Response :=
  match e with
  | HTTPException status detail => mkResponse status (DetailBody detail)
  | _ => mkResponse HTTP_500_INTERNAL_SERVER_ERROR InternalServerError
  end.

(** [validation_exception_handler] of [main.py], for a request that
    fails the validation of its body or query. *)
Definition validation_exception_handler (errors : list FieldError) : Response :=
  mkResponse HTTP_422_UNPROCESSABLE_ENTITY (ValidationBody errors).

Definition respond {A : Type} (status : Z) (to_body : A -> Body)
           (c : Session A) : DB -> DB * Response :=
  fun db =>
    match c db with
    | (db', Return a) => (db', mkResponse status (to_body a))
    | (db', Raise e) => (db', exception_response e)
    end.

Module Router.
Section WithRuntime.
Context `{PythonRuntime}.

(** [response_model=schemas.EventResponse] on a row: the answer is
    the [EventResponse] read off the row's attributes. *)
Definition response_model (db_event : Event) : Result EventResponse :=
  EventResponseModel.validate
    (Event_id db_event) (Event_name db_event) (Event_location db_event)
    (Event_start_time db_event) (Event_end_time db_event)
    (Event_max_capacity db_event).

(** [POST /events/]: the body is validated as an [EventCreate] before
    the handler runs, and the row the handler returns is turned into
    the answer after it has run, when the row is committed. *)
Definition create_event (event : RawEvent) : DB -> DB * Response :=
  fun db =>
    match EventBase.validate event with
    | Return event =>
        respond HTTP_201_CREATED EventBody
          (db_event <~ EventService.create_event event ;;
           fun db' => (db', response_model db_event)) db
    | Raise (ValidationError errors) =>
        (db, validation_exception_handler errors)
    | Raise e => (db, exception_response e)
    end.

(** The [schemas.EventResponse] built from [response_event_data]. *)
Definition to_response (target_tz : Zone) (event_model : Event)
  : Result EventResponse :=
  start_time <- astimezone (Event_start_time event_model) target_tz ;;
  end_time <- astimezone (Event_end_time event_model) target_tz ;;
  EventResponseModel.validate
    (Event_id event_model) (Event_name event_model)
    (Event_location event_model) start_time end_time
    (Event_max_capacity event_model).

Fixpoint to_responses (target_tz : Zone) (l : list Event)
  : Result (list EventResponse) :=
  match l with
  | [] => Return []
  | event_model :: rest =>
      r <- to_response target_tz event_model ;;
      rs <- to_responses target_tz rest ;;
      Return (r :: rs)
  end.

(** [GET /events/]; [now] is the clock reading of the service.  The
    items the handler returns are [EventResponse] already, built by
    the validators that [response_model] would run again: aware
    times pass them unchanged. *)
Definition read_events (now : Z) (skip limit : Z) (x_timezone : string)
  : DB -> DB * Response :=
  match pytz_timezone x_timezone with
  | None =>
      respond HTTP_200_OK EventListBody
        (raise (HTTPException HTTP_400_BAD_REQUEST
                              "Invalid X-Timezone header value."))
  | Some target_tz =>
      respond HTTP_200_OK EventListBody
        (events <~ EventService.get_events now skip limit ;;
         fun db => (db, to_responses target_tz events))
  end.

(** [POST /events/{event_id}/register]; [None] is a body that fails
    [AttendeeCreate] (a malformed email, a missing field). *)
Definition register_for_event (event_id : Z)
           (attendee : option AttendeeCreate) : DB -> DB * Response :=
  match attendee with
  | None =>
      fun db => (db, validation_exception_handler
                       [("body", "value is not a valid AttendeeCreate")])
  | Some attendee =>
      respond HTTP_201_CREATED AttendeeBody
        (AttendeeService.register_attendee sequential event_id attendee)
  end.

(** [GET /events/{event_id}/attendees], with
    [page: int = Query(1, ge=1)] and [size: int = Query(10, ge=1, le=100)]. *)
Definition get_event_attendees (event_id : Z) (page size : Z)
  : DB -> DB * Response :=
  if page <? 1 then
    fun db => (db, validation_exception_handler
                     [("page", "ensure this value is greater than or equal to 1")])
  else if size <? 1 then
    fun db => (db, validation_exception_handler
                     [("size", "ensure this value is greater than or equal to 1")])
  else if 100 <? size then
    fun db => (db, validation_exception_handler
                     [("size", "ensure this value is less than or equal to 100")])
  else
    respond HTTP_200_OK PageBody
      (AttendeeService.get_attendees_for_event sequential event_id page size).

(** The requests of the API, each with what it reads from outside. *)
Inductive Request : Type :=
| POST_events (event : RawEvent)
| GET_events (now : Z) (skip limit : Z) (x_timezone : string)
| POST_register (event_id : Z) (attendee : option AttendeeCreate)
| GET_attendees (event_id : Z) (page size : Z).

Definition handle (req : Request) : DB -> DB * Response :=
  match req with
  | POST_events event => create_event event
  | GET_events now skip limit x_timezone =>
      read_events now skip limit x_timezone
  | POST_register event_id attendee => register_for_event event_id attendee
  | GET_attendees event_id page size => get_event_attendees event_id page size
  end.

(** Requests served one after the other. *)
Fixpoint serve (reqs : list Request) (db : DB) : DB * list Response :=
  match reqs with
  | [] => (db, [])
  | req :: rest =>
      let '(db', r) := handle req db in
      let '(db'', rs) := serve rest db' in
      (db'', r :: rs)
  end.

End WithRuntime.
End Router.



(** The kinds of error of the service, read off what leaves a handler:
    the status and detail of an [HTTPException], a validation failure,
    and, for anything the handlers do not catch, a storage fault when
    the store raised it. *)
Inductive ErrorKind : Type :=
| NotFound
| ValidationFailed
| CapacityExceeded
| DuplicateRegistration
| StorageFailure
| Unclassified.

Definition error_kind (e : Exn) : ErrorKind :=
  match e with
  | HTTPException status detail =>
      if status =? HTTP_404_NOT_FOUND then NotFound
      else if String.eqb detail "Event is at full capacity"
      then CapacityExceeded
      else if String.eqb detail
                "Attendee with this email already registered for this event"
      then DuplicateRegistration
      else if String.eqb detail "Invalid X-Timezone header value."
      then ValidationFailed
      else Unclassified
  | ValidationError _ => ValidationFailed
  | IntegrityError _ => StorageFailure
  | OperationalError => StorageFailure
  | _ => Unclassified
  end.

(* ================================================================== *)
(** * A concrete runtime *)
(* ================================================================== *)

(** The theorems below hold for every [PythonRuntime].  To run the
    program on concrete requests this module supplies one: the parser
    below for [datetime.fromisoformat], a zone database with the tz
    database's tables of [UTC] and [Asia/Kolkata], a release of pytz
    whose [localize] lets the [OverflowError] out, and a host whose
    local zone is UTC. *)
Module CPython.

Definition digit (c : ascii) : option Z :=
  let n := Z.of_nat (nat_of_ascii c) in
  if (48 <=? n) && (n <=? 57) then Some (n - 48) else None.

Fixpoint digits (acc : Z) (l : list ascii) : option Z :=
  match l with
  | [] => Some acc
  | c :: rest =>
      match digit c with
      | Some d => digits (10 * acc + d) rest
      | None => None
      end
  end.

Definition number (l : list ascii) : option Z := digits 0 l.

Definition is_leap (year : Z) : bool :=
  (year mod 4 =? 0) && (negb (year mod 100 =? 0) || (year mod 400 =? 0)).

Definition days_in_month (year month : Z) : Z :=
  if month =? 2 then (if is_leap year then 29 else 28)
  else if (month =? 4) || (month =? 6) || (month =? 9) || (month =? 11)
  then 30 else 31.

Definition days_before_year (year : Z) : Z :=
  let y := year - 1 in
  y * 365 + y / 4 - y / 100 + y / 400.

Fixpoint days_before_month_from (year : Z) (m : nat) : Z :=
  match m with
  | O => 0
  | S m' => days_before_month_from year m' + days_in_month year (Z.of_nat m)
  end.

(** The ordinal of a date, 0001-01-01 being day 1. *)
Definition ymd2ord (year month day : Z) : Z :=
  days_before_year year
  + days_before_month_from year (Z.to_nat (month - 1)) + day.

Definition civil (y mo d h mi s : Z) : option Z :=
  if (1 <=? y) && (y <=? 9999) && (1 <=? mo) && (mo <=? 12)
     && (1 <=? d) && (d <=? days_in_month y mo)
     && (h <? 24) && (mi <? 60) && (s <? 60)
  then Some ((ymd2ord y mo d - 1) * DAY + h * HOUR + mi * MINUTE + s * SECOND)
  else None.

Definition parse_offset (l : list ascii) : option (option tzinfo) :=
  match l with
  | [] => Some None
  | [sign; h1; h2; colon; m1; m2] =>
      match number [h1; h2], number [m1; m2] with
      | Some h, Some m =>
          if negb (Ascii.eqb colon ":") || negb (h <? 24) || negb (m <? 60)
          then None
          else if Ascii.eqb sign "+"
          then Some (Some (timezone (h * HOUR + m * MINUTE)))
          else if Ascii.eqb sign "-"
          then Some (Some (timezone (- (h * HOUR + m * MINUTE))))
          else None
      | _, _ => None
      end
  | _ => None
  end.

(** The layouts [YYYY-MM-DD?HH:MM:SS], [YYYY-MM-DD?HH:MM:SS+HH:MM] and
    [YYYY-MM-DD?HH:MM:SS-HH:MM], [?] being any one character. *)
Definition parse (s : string) : option datetime :=
  match list_ascii_of_string s with
  | y1 :: y2 :: y3 :: y4 :: d1 :: mo1 :: mo2 :: d2 :: dd1 :: dd2 :: _sep
    :: h1 :: h2 :: c1 :: mi1 :: mi2 :: c2 :: s1 :: s2 :: tzpart =>
      if Ascii.eqb d1 "-" && Ascii.eqb d2 "-"
         && Ascii.eqb c1 ":" && Ascii.eqb c2 ":"
      then
        match number [y1; y2; y3; y4], number [mo1; mo2], number [dd1; dd2],
              number [h1; h2], number [mi1; mi2], number [s1; s2],
              parse_offset tzpart with
        | Some y, Some mo, Some d, Some h, Some mi, Some s, Some tz =>
            match civil y mo d h mi s with
            | Some w => Some (mkDatetime w tz)
            | None => None
            end
        | _, _, _, _, _, _, _ => None
        end
      else None
  | _ => None
  end.

(** [datetime.fromisoformat] on the layouts above; other strings are
    not parsed here, and get the message Python has for a string of
    no ISO layout, which quotes the string. *)
Definition fromisoformat (s : string) : datetime + string :=
  match parse s with
  | Some d => inl d
  | None =>
      inr (String.append "Invalid isoformat string: '" (String.append s "'"))
  end.

(** The reading of the UTC wall clock [t] seconds after
    1970-01-01T00:00:00. *)
Definition from_unix (t : Z) : Z := (719162 * 86400 + t) * SECOND.

Definition LMT : TransitionInfo := mkInfo (21208 * SECOND) 0 "LMT".
Definition HMT : TransitionInfo := mkInfo (21200 * SECOND) 0 "HMT".
Definition MMT : TransitionInfo := mkInfo (19270 * SECOND) 0 "MMT".
Definition IST : TransitionInfo := mkInfo (19800 * SECOND) 0 "IST".
Definition P0630 : TransitionInfo := mkInfo (23400 * SECOND) (3600 * SECOND) "+0630".

Definition Asia_Kolkata : Zone :=
  mkZone "Asia/Kolkata" LMT
    [ (from_unix (-3645237208), HMT);
      (from_unix (-3155694800), MMT);
      (from_unix (-2019705670), IST);
      (from_unix (-891581400), P0630);
      (from_unix (-872058600), IST);
      (from_unix (-862637400), P0630);
      (from_unix (-764145000), IST) ].

Definition timezone_db (name : string) : option Zone :=
  if String.eqb name "UTC" then Some utc
  else if String.eqb name "Asia/Kolkata" then Some Asia_Kolkata
  else None.

#[export] Instance runtime : PythonRuntime := {
  fromisoformat := fromisoformat;
  pytz_timezone := timezone_db;
  localize_at_the_ends := fun _ _ => None;
  local_utcoffset := fun _ => 0
}.

End CPython.

(* ================================================================== *)
(** * Vocabulary of the statements *)
(* ================================================================== *)

(** The rows registered for an event, in table order. *)
Definition attendees_of (db : DB) (event_id : Z) : list Attendee :=
  filter (fun a => Attendee_event_id a =? event_id) (attendees db).

(** The integers a statement takes. *)
Definition int64 (n : Z) : Prop := - 2 ^ 63 <= n <= 2 ^ 63 - 1.

(** The page numbers [1 .. n]. *)
Definition page_numbers (n : Z) : list Z :=
  map Z.of_nat (seq 1 (Z.to_nat n)).

Definition ascending_ids : list Attendee -> Prop :=
  Sorted (fun a b => Attendee_id a <= Attendee_id b).

(** The slice of [rows] a page of [size] rows starts at [offset]. *)
Definition slice (offset size : Z) (rows : list Attendee) : list Attendee :=
  firstn (Z.to_nat size) (skipn (Z.to_nat offset) rows).

(** The [datetime] a raw field value stands for, if any. *)
Definition raw_datetime `{PythonRuntime} (v : RawTime) : option datetime :=
  match v with
  | RawStr s =>
      match fromisoformat s with
      | inl d => Some d
      | inr _ => None
      end
  | RawDatetime d => Some d
  | RawOther => None
  end.

Definition with_max_capacity (n : Z) (raw : RawEvent) : RawEvent :=
  mkRawEvent (raw_name raw) (raw_location raw)
             (raw_start_time raw) (raw_end_time raw) (Given n).

(** How many of the requests of a run were registrations for
    [event_id] answered with 201. *)
Fixpoint registered (event_id : Z) (reqs : list Router.Request)
         (resps : list Response) : nat :=
  match reqs, resps with
  | Router.POST_register id _ :: reqs', r :: resps' =>
      if (id =? event_id) && (status_code r =? HTTP_201_CREATED)
      then S (registered event_id reqs' resps')
      else registered event_id reqs' resps'
  | _ :: reqs', _ :: resps' => registered event_id reqs' resps'
  | _, _ => O
  end.

Definition full_capacity : Exn :=
  HTTPException HTTP_400_BAD_REQUEST "Event is at full capacity".

Definition already_registered : Exn :=
  HTTPException HTTP_400_BAD_REQUEST
    "Attendee with this email already registered for this event".

Definition event_not_found : Exn :=
  HTTPException HTTP_404_NOT_FOUND "Event not found".

Definition internal_server_error : Response :=
  mkResponse HTTP_500_INTERNAL_SERVER_ERROR InternalServerError.

(** The store each [await] of a registration finds, given the store it
    started on. *)
Definition store_at (others : Schedule) (n : nat) (db : DB) : DB :=
  fold_left (fun d k => others k d) (seq 1 n) db.

(** An aware value: one that carries a [tzinfo]. *)
Definition aware (d : datetime) : Prop := dt_tzinfo d <> None.

(** A timestamp read in the zone the validator assumes: a naive value
    gets the [tzinfo], an aware one is left alone. *)
Definition under_assumed_zone (tz : tzinfo) (d : datetime) : datetime :=
  match dt_tzinfo d with
  | None => mkDatetime (wall d) (Some tz)
  | Some _ => d
  end.

(** The wall clock readings at least a day inside the years 1 to 9999
    and at least a day after [T0]. *)
Definition settled (T0 : Z) (w : Z) : Prop :=
  T0 + DAY <= w /\ w + DAY < MAXORDINAL * DAY.

(** What every store reached through the API satisfies. *)
Record consistent (db : DB) : Prop := {
  keys_unique : NoDup (map Event_id (events db));
  keys_in_range :
    forall e, In e (events db) -> 1 <= Event_id e <= Sql.INT64_MAX;
  references_valid :
    forall a, In a (attendees db) ->
              In (Attendee_event_id a) (map Event_id (events db));
  capacity_respected :
    forall e, In e (events db) ->
              Sql.count_attendees db (Event_id e)
              <= Z.max 0 (Event_max_capacity e);
  windows_valid :
    forall e, In e (events db) ->
              instant (Event_start_time e) < instant (Event_end_time e)
}.

(** ** Further vocabulary *)

(** The pair the constraint [_email_event_uc] keeps unique. *)
Definition registration_key (a : Attendee) : Z * string :=
  (Attendee_event_id a, Attendee_email a).

(** Both times of an event row are bare readings, without [tzinfo]. *)
Definition stored_naive (e : Event) : Prop :=
  dt_tzinfo (Event_start_time e) = None
  /\ dt_tzinfo (Event_end_time e) = None.




(** The events [get_events] is after: those ending after [now]. *)
Definition upcoming (now : Z) (e : Event) : bool :=
  now <? instant (Event_end_time e).

Definition by_start_time : list Event -> Prop :=
  StronglySorted
    (fun a b => instant (Event_start_time a) <= instant (Event_start_time b)).

(** The exceptions that are no [HTTPException]: those the libraries
    raise, which the services never do. *)
Definition from_a_library (x : Exn) : Prop :=
  match x with
  | HTTPException _ _ => False
  | _ => True
  end.

(* ================================================================== *)
(** * Sample requests *)
(* ================================================================== *)

(** Requests in the manner of [test_events.py], run on the concrete
    runtime. *)
Module Sample.

Definition meetup : RawEvent :=
  mkRawEvent (Given "Community Meetup") (Given "Local Hall")
             (Some (RawStr "2030-01-01T10:00:00+00:00"))
             (Some (RawStr "2030-01-01T13:00:00+00:00"))
             (Given 2).

(** The same meetup, its times written without an offset. *)
Definition naive_meetup : RawEvent :=
  mkRawEvent (Given "Community Meetup") (Given "Local Hall")
             (Some (RawStr "2030-01-01T10:00:00"))
             (Some (RawStr "2030-01-01T13:00:00"))
             (Given 2).

(** An event that ends, in absolute time, before it starts, although
    its end reads later on the wall clock. *)
Definition backwards : RawEvent :=
  mkRawEvent (Given "Invalid Dates Event") (Given "Chronos Venue")
             (Some (RawStr "2030-01-01T10:00:00+00:00"))
             (Some (RawStr "2030-01-01T12:00:00+05:30"))
             (Given 50).

Definition workshop : RawEvent :=
  mkRawEvent (Given "Limited Slot Workshop") (Given "Small Room")
             (Some (RawStr "2030-01-06T10:00:00+00:00"))
             (Some (RawStr "2030-01-06T11:00:00+00:00"))
             (Given 1).


Definition john : AttendeeCreate :=
  mkAttendeeCreate "John Doe" "john.doe@example.com".

Definition johnny : AttendeeCreate :=
  mkAttendeeCreate "Another Name" "john.doe@example.com".

Definition jane : AttendeeCreate :=
  mkAttendeeCreate "Jane Doe" "jane.doe@example.com".

Definition served (reqs : list Router.Request) : DB * list Response :=
  Router.serve (H := CPython.runtime) reqs empty_db.

(** The store with the meetup and nobody registered. *)
Definition meetup_open : DB :=
  fst (served [Router.POST_events meetup]).

(** The meetup with both of its places taken. *)
Definition meetup_run : list Router.Request :=
  [ Router.POST_events meetup;
    Router.POST_register 1 (Some john);
    Router.POST_register 1 (Some johnny);
    Router.POST_register 1 (Some jane) ].

Definition meetup_full : DB := fst (served meetup_run).

Definition workshop_open : DB :=
  fst (served [Router.POST_events workshop]).


(** The event row the meetup is stored as: the readings of its times
    in UTC. *)
Definition meetup_row : Event :=
  mkEvent 1 "Community Meetup" "Local Hall"
    (mkDatetime 64029088800000000 None)
    (mkDatetime 64029099600000000 None)
    2.


(** 2031-01-01T00:00:00 on the UTC wall clock, a year after the
    meetup. *)
Definition a_year_later : Z := 64060588800000000.

(** While the registration of John awaits its commit, another
    request registering the same email is served in full. *)
Definition racing_registration : Schedule :=
  fun n db =>
    match n with
    | 3%nat => fst (AttendeeService.register_attendee sequential 1 johnny db)
    | _ => db
    end.

(** The last transition of [Asia/Kolkata]: 1945-10-14T17:30:00 UTC. *)
Definition kolkata_T0 : Z := CPython.from_unix (-764145000).

End Sample.

(** Further scenarios for the runs at the end. *)
Module Scenario.

(** While a registration for the workshop awaits its commit, another
    request registers somebody else for it, in full. *)
Definition racing_for_last_place : Schedule :=
  fun n db =>
    match n with
    | 3%nat =>
        fst (AttendeeService.register_attendee sequential 1 Sample.jane db)
    | _ => db
    end.

(** The workshop as it is stored. *)
Definition workshop_row : Event :=
  mkEvent 1 "Limited Slot Workshop" "Small Room"
    (mkDatetime 64029520800000000 None)
    (mkDatetime 64029524400000000 None)
    1.

(** The meetup with a start time that is not an ISO string, and with
    one that is not a string at all. *)
Definition garbled_meetup : RawEvent :=
  mkRawEvent (Given "Community Meetup") (Given "Local Hall")
             (Some (RawStr "tomorrow at ten"))
             (Some (RawStr "2030-01-01T13:00:00+00:00"))
             (Given 2).

Definition numeric_meetup : RawEvent :=
  mkRawEvent (Given "Community Meetup") (Given "Local Hall")
             (Some RawOther)
             (Some (RawStr "2030-01-01T13:00:00+00:00"))
             (Given 2).

(** The meetup as [EventCreate] validates it. *)
Definition meetup_data : EventCreate :=
  mkEventCreate "Community Meetup" "Local Hall"
    (mkDatetime 64029088800000000 (Some (timezone 0)))
    (mkDatetime 64029099600000000 (Some (timezone 0)))
    2.


(** A night of 1941 in which the clocks of [Asia/Kolkata] were put
    forward an hour: 1941-10-01T00:30:00 and 1941-10-01T01:00:00, as
    readings of the UTC wall clock. *)
Definition night_of_1941 : RawEvent :=
  mkRawEvent (Given "Night Watch") (Given "Local Hall")
             (Some (RawStr "1941-10-01T00:30:00+00:00"))
             (Some (RawStr "1941-10-01T01:00:00+00:00"))
             (Given 10).

(** A page far beyond the last: its offset does not fit 64 bits. *)
Definition far_page : Z := 2 ^ 63 + 1.

End Scenario.

Example fromisoformat_naive :
  CPython.fromisoformat "2030-01-01T10:00:00"
  = inl (mkDatetime 64029088800000000 None).
Proof. vm_compute. reflexivity. Qed.

Example fromisoformat_aware :
  CPython.fromisoformat "2030-01-01T10:00:00+05:30"
  = inl (mkDatetime 64029088800000000 (Some (timezone 19800000000))).
Proof. vm_compute. reflexivity. Qed.

Example fromisoformat_garbled :
  CPython.fromisoformat "tomorrow at ten"
  = inr "Invalid isoformat string: 'tomorrow at ten'".
Proof. vm_compute. reflexivity. Qed.

Example localize_kolkata :
  localize (H := CPython.runtime) CPython.Asia_Kolkata
    (mkDatetime 64029088800000000 None)
  = Return (mkDatetime 64029088800000000
              (Some (pytz_tzinfo "Asia/Kolkata" CPython.IST))).
Proof. vm_compute. reflexivity. Qed.

(* ================================================================== *)
(** * Parameters of a statement *)
(* ================================================================== *)

(** Linear arithmetic over the bounds of the store's integers. *)
Ltac int64_lia :=
  unfold int64, Sql.INT64_MIN, Sql.INT64_MAX in *;
  change (2 ^ 63) with 9223372036854775808 in *; lia.

Lemma bind_int64 n : int64 n -> Sql.bind n = Return n.
Proof.
  intros Hn. unfold Sql.bind.
  destruct (Z.leb_spec Sql.INT64_MIN n); [|int64_lia].
  destruct (Z.leb_spec n Sql.INT64_MAX); [reflexivity|int64_lia].
Qed.

Lemma bind_overflow n : ~ int64 n -> Sql.bind n = Raise OverflowError.
Proof.
  intros Hn. unfold Sql.bind.
  destruct (Z.leb_spec Sql.INT64_MIN n); [|reflexivity].
  destruct (Z.leb_spec n Sql.INT64_MAX); [|reflexivity].
  elim Hn. int64_lia.
Qed.

Lemma bind_return n m : Sql.bind n = Return m -> m = n /\ int64 n.
Proof.
  unfold Sql.bind.
  destruct (Z.leb_spec Sql.INT64_MIN n); [|discriminate].
  destruct (Z.leb_spec n Sql.INT64_MAX); [|discriminate].
  intros [= <-]. split; [reflexivity|int64_lia].
Qed.

Lemma bind_raise n x : Sql.bind n = Raise x -> x = OverflowError /\ ~ int64 n.
Proof.
  unfold Sql.bind.
  destruct (Z.leb_spec Sql.INT64_MIN n);
    [destruct (Z.leb_spec n Sql.INT64_MAX); [discriminate|]|];
    intros [= <-]; (split; [reflexivity|int64_lia]).
Qed.

Lemma int64_dec n : int64 n \/ ~ int64 n.
Proof. unfold int64. lia. Qed.

Lemma select_event_int64 db event_id :
  int64 event_id ->
  Sql.select_event db event_id
  = Return (find (fun e => Event_id e =? event_id) (events db)).
Proof.
  intros Hid. unfold Sql.select_event. now rewrite (bind_int64 _ Hid).
Qed.

Lemma select_event_overflow db event_id :
  ~ int64 event_id -> Sql.select_event db event_id = Raise OverflowError.
Proof.
  intros Hid. unfold Sql.select_event. now rewrite (bind_overflow _ Hid).
Qed.

Lemma select_event_return db event_id found :
  Sql.select_event db event_id = Return found ->
  int64 event_id
  /\ found = find (fun e => Event_id e =? event_id) (events db).
Proof.
  intros Hsel. destruct (int64_dec event_id) as [Hid|Hid].
  - rewrite (select_event_int64 _ _ Hid) in Hsel. injection Hsel as <-.
    now split.
  - now rewrite (select_event_overflow _ _ Hid) in Hsel.
Qed.

Lemma select_event_raise db event_id x :
  Sql.select_event db event_id = Raise x ->
  x = OverflowError /\ ~ int64 event_id.
Proof.
  intros Hsel. destruct (int64_dec event_id) as [Hid|Hid].
  - now rewrite (select_event_int64 _ _ Hid) in Hsel.
  - rewrite (select_event_overflow _ _ Hid) in Hsel. injection Hsel as <-.
    now split.
Qed.

Lemma offset_rows_int64 {A : Type} offset (l : list A) :
  int64 offset -> Sql.offset_rows offset l = Return (skipn (Z.to_nat offset) l).
Proof. intros Ho. unfold Sql.offset_rows. now rewrite (bind_int64 _ Ho). Qed.

Lemma limit_rows_int64 {A : Type} limit (l : list A) :
  int64 limit ->
  Sql.limit_rows limit l
  = Return (if limit <? 0 then l else firstn (Z.to_nat limit) l).
Proof. intros Hl. unfold Sql.limit_rows. now rewrite (bind_int64 _ Hl). Qed.

Lemma offset_rows_overflow {A : Type} offset (l : list A) :
  ~ int64 offset -> Sql.offset_rows offset l = Raise OverflowError.
Proof. intros Ho. unfold Sql.offset_rows. now rewrite (bind_overflow _ Ho). Qed.

Lemma limit_rows_overflow {A : Type} limit (l : list A) :
  ~ int64 limit -> Sql.limit_rows limit l = Raise OverflowError.
Proof. intros Hl. unfold Sql.limit_rows. now rewrite (bind_overflow _ Hl). Qed.

(** [OFFSET ? LIMIT ?] on rows: both parameters are taken, or the
    statement raises. *)
Lemma limit_offset_int64 {A : Type} offset limit (l : list A) :
  int64 offset -> int64 limit ->
  (rows <- Sql.offset_rows offset l ;; Sql.limit_rows limit rows)
  = Return (if limit <? 0 then skipn (Z.to_nat offset) l
            else firstn (Z.to_nat limit) (skipn (Z.to_nat offset) l)).
Proof.
  intros Ho Hl. rewrite (offset_rows_int64 _ _ Ho). cbn [bindR].
  apply limit_rows_int64, Hl.
Qed.

Lemma limit_offset_overflow {A : Type} offset limit (l : list A) :
  ~ (int64 offset /\ int64 limit) ->
  (rows <- Sql.offset_rows offset l ;; Sql.limit_rows limit rows)
  = Raise OverflowError.
Proof.
  intros Hno. destruct (int64_dec offset) as [Ho|Ho].
  - rewrite (offset_rows_int64 _ _ Ho). cbn [bindR].
    apply limit_rows_overflow. tauto.
  - now rewrite (offset_rows_overflow _ _ Ho).
Qed.

Lemma limit_offset_return {A : Type} offset limit (l rows : list A) :
  (rows <- Sql.offset_rows offset l ;; Sql.limit_rows limit rows)
  = Return rows ->
  int64 offset /\ int64 limit
  /\ rows = (if limit <? 0 then skipn (Z.to_nat offset) l
             else firstn (Z.to_nat limit) (skipn (Z.to_nat offset) l)).
Proof.
  intros Hr. destruct (int64_dec offset) as [Ho|Ho];
    [destruct (int64_dec limit) as [Hl|Hl]|].
  - rewrite (limit_offset_int64 _ _ _ Ho Hl) in Hr. injection Hr as <-.
    split; [exact Ho|]. split; [exact Hl|reflexivity].
  - rewrite limit_offset_overflow in Hr by tauto. discriminate.
  - rewrite limit_offset_overflow in Hr by tauto. discriminate.
Qed.

(* ================================================================== *)
(** * Lists, sorting and paging *)
(* ================================================================== *)

Lemma firstn_plus {A : Type} (a b : nat) (l : list A) :
  firstn (a + b) l = firstn a l ++ firstn b (skipn a l).
Proof.
  revert l. induction a as [|a IH]; intros l; simpl.
  - reflexivity.
  - destruct l as [|x l]; simpl.
    + now rewrite firstn_nil.
    + now rewrite IH.
Qed.

Lemma chunks_concat {A : Type} (s n : nat) (l : list A) :
  List.concat (map (fun k => firstn s (skipn (k * s) l)) (seq 0 n))
  = firstn (n * s) l.
Proof.
  induction n as [|n IH].
  - reflexivity.
  - rewrite seq_S, map_app, concat_app, IH. simpl.
    rewrite app_nil_r, (Nat.add_comm s (n * s)).
    symmetry. apply firstn_plus.
Qed.

Lemma insert_by_id_perm a l : Permutation (a :: l) (Sql.insert_by_id a l).
Proof.
  induction l as [|b l IH]; simpl.
  - apply Permutation_refl.
  - destruct (Attendee_id a <=? Attendee_id b).
    + apply Permutation_refl.
    + eapply perm_trans; [apply perm_swap|]. now apply perm_skip.
Qed.

Lemma order_by_id_perm l : Permutation l (Sql.order_by_id l).
Proof.
  induction l as [|a l IH]; simpl.
  - constructor.
  - eapply perm_trans; [apply perm_skip, IH|]. apply insert_by_id_perm.
Qed.

Lemma insert_by_id_sorted a l :
  ascending_ids l -> ascending_ids (Sql.insert_by_id a l).
Proof.
  unfold ascending_ids. induction l as [|b l IH]; simpl; intros Hs.
  - repeat constructor.
  - destruct (Attendee_id a <=? Attendee_id b) eqn:E.
    + constructor; [assumption|]. constructor. lia.
    + inversion Hs as [|? ? Hl Hb]; subst.
      constructor; [now apply IH|].
      destruct l as [|c l]; simpl.
      * constructor. lia.
      * destruct (Attendee_id a <=? Attendee_id c); constructor; try lia.
        now inversion Hb.
Qed.

Lemma order_by_id_sorted l : ascending_ids (Sql.order_by_id l).
Proof.
  induction l as [|a l IH]; simpl.
  - constructor.
  - now apply insert_by_id_sorted.
Qed.

Lemma order_by_id_length l : List.length (Sql.order_by_id l) = List.length l.
Proof. symmetry. apply Permutation_length, order_by_id_perm. Qed.

(** The statements of the two services select the rows of an event
    with the same condition. *)
Lemma where_event_id db event_id :
  filter (Sql.of_event event_id) (attendees db) = attendees_of db event_id.
Proof. reflexivity. Qed.


Lemma ceiling_division (T S : Z) :
  0 <= T -> 1 <= S ->
  let n := (T + S - 1) / S in
  (n - 1) * S < T <= n * S /\ 0 <= n.
Proof.
  intros HT HS n.
  pose proof (Z.div_mod (T + S - 1) S ltac:(lia)) as Hd.
  pose proof (Z.mod_pos_bound (T + S - 1) S ltac:(lia)) as Hm.
  fold n in Hd. nia.
Qed.

Lemma forall2_map {A B : Type} (P : A -> B -> Prop) (f : A -> B) l :
  (forall x, In x l -> P x (f x)) -> Forall2 P l (map f l).
Proof.
  induction l as [|x l IH]; intros Hl; cbn [map]; constructor.
  - apply Hl. now left.
  - apply IH. intros y Hy. apply Hl. now right.
Qed.

Lemma in_page_numbers n p : In p (page_numbers n) -> 1 <= p <= n.
Proof.
  unfold page_numbers. intros Hp. apply in_map_iff in Hp as (k & <- & Hk).
  apply in_seq in Hk. lia.
Qed.

(* ================================================================== *)
(** * Paging through the attendees of an event *)
(* ================================================================== *)

(** A call of [get_attendees_for_event] among other requests, one
    store per [await]. *)
Lemma get_attendees_among others event_id p s db :
  AttendeeService.get_attendees_for_event others event_id p s db
  = match Sql.select_event db event_id with
    | Raise x => (db, Raise x)
    | Return None => (store_at others 1 db, Raise event_not_found)
    | Return (Some _) =>
        let page := if p <? 1 then 1 else p in
        let size := if s <? 1 then 10 else s in
        let total := Sql.count_attendees (store_at others 1 db) event_id in
        (store_at others 2 db,
         items <-
           (rows <- Sql.offset_rows ((page - 1) * size)
                      (Sql.order_by_id
                         (attendees_of (store_at others 2 db) event_id)) ;;
            Sql.limit_rows size rows) ;;
         Return (mkPage total page size ((total + size - 1) / size) items))
    end.
Proof.
  unfold AttendeeService.get_attendees_for_event, bindS, execute,
    others_run, raise, ret, store_at. cbn [seq fold_left].
  destruct (Sql.select_event db event_id) as [[e|]|x]; try reflexivity.
  rewrite where_event_id. cbv zeta.
  destruct (bindR (Sql.offset_rows _ _) _); reflexivity.
Qed.

Lemma store_at_sequential n db : store_at sequential n db = db.
Proof.
  unfold store_at, sequential. induction (seq 1 n) as [|k l IH];
    [reflexivity|exact IH].
Qed.

(** The same when nobody else runs, the event exists and the
    parameters of the paging statement fit. *)
Lemma get_attendees_run db event_id e p s :
  Sql.select_event db event_id = Return (Some e) ->
  1 <= p -> 1 <= s ->
  int64 ((p - 1) * s) -> int64 s ->
  AttendeeService.get_attendees_for_event sequential event_id p s db
  = (db,
     Return
       (let T := Z.of_nat (List.length (attendees_of db event_id)) in
        mkPage T p s ((T + s - 1) / s)
               (slice ((p - 1) * s) s
                  (Sql.order_by_id (attendees_of db event_id))))).
Proof.
  intros He Hp Hs Ho Hl. rewrite get_attendees_among, He.
  rewrite !store_at_sequential.
  destruct (Z.ltb_spec p 1); [lia|]. destruct (Z.ltb_spec s 1); [lia|].
  cbv zeta. rewrite (limit_offset_int64 _ _ _ Ho Hl). cbn [bindR].
  destruct (Z.ltb_spec s 0); [lia|]. reflexivity.
Qed.

(** And when they do not. *)
Lemma get_attendees_overflow db event_id e p s :
  Sql.select_event db event_id = Return (Some e) ->
  1 <= p -> 1 <= s ->
  ~ (int64 ((p - 1) * s) /\ int64 s) ->
  AttendeeService.get_attendees_for_event sequential event_id p s db
  = (db, Raise OverflowError).
Proof.
  intros He Hp Hs Hno. rewrite get_attendees_among, He.
  rewrite !store_at_sequential.
  destruct (Z.ltb_spec p 1); [lia|]. destruct (Z.ltb_spec s 1); [lia|].
  cbv zeta. now rewrite (limit_offset_overflow _ _ _ Hno).
Qed.

(** C8.  In every call of [get_attendees_for_event], whoever else
    runs meanwhile, a page below 1 is served as page 1 and a size
    below 1 as size 10: the call does what the call with the clamped
    value does.  Whatever answer a call returns carries the clamped
    values as its [page] and [size], and its items are the rows of the
    event, in the order of their ids, from offset [(page - 1) * size]
    on, [size] of them at most, both taken from the clamped values.
    And a call does return when the event exists and the size and
    offset so computed are integers of the store. *)
Theorem list_attendees_clamps_page_and_size others db event_id p s :
  let call := AttendeeService.get_attendees_for_event others event_id in
  let clamped_page := if p <? 1 then 1 else p in
  let clamped_size := if s <? 1 then 10 else s in
  (p < 1 -> call p s db = call 1 s db)
  /\ (s < 1 -> call p s db = call p 10 db)
  /\ (forall db' r,
        call p s db = (db', Return r) ->
        page r = clamped_page /\ size r = clamped_size
        /\ exists rows,
             Permutation (attendees_of db' event_id) rows
             /\ ascending_ids rows
             /\ items r = slice ((page r - 1) * size r) (size r) rows)
  /\ (forall e,
        Sql.select_event db event_id = Return (Some e) ->
        int64 ((clamped_page - 1) * clamped_size) -> int64 clamped_size ->
        exists r, call p s db = (store_at others 2 db, Return r)).
Proof.
  intros call clamped_page clamped_size. subst call.
  split; [|split; [|split]].
  - intros Hp. rewrite !get_attendees_among.
    destruct (Z.ltb_spec p 1); [|lia]. reflexivity.
  - intros Hs. rewrite !get_attendees_among.
    destruct (Z.ltb_spec s 1); [|lia]. reflexivity.
  - intros db' r. rewrite get_attendees_among.
    destruct (Sql.select_event db event_id) as [[e|]|x]; try discriminate.
    cbv zeta. fold clamped_page clamped_size.
    destruct (bindR (Sql.offset_rows _ _) _) as [rows|x] eqn:Erows;
      [|discriminate].
    cbn [bindR]. intros [= <- <-]. cbn [page size items].
    split; [reflexivity|]. split; [reflexivity|].
    apply limit_offset_return in Erows as (_ & Hl & ->).
    exists (Sql.order_by_id (attendees_of (store_at others 2 db) event_id)).
    split; [apply order_by_id_perm|]. split; [apply order_by_id_sorted|].
    assert (Hsize : 1 <= clamped_size)
      by (unfold clamped_size; destruct (Z.ltb_spec s 1); lia).
    destruct (Z.ltb_spec clamped_size 0); [lia|]. reflexivity.
  - intros e He Ho Hl. rewrite get_attendees_among, He. cbv zeta.
    fold clamped_page clamped_size.
    rewrite (limit_offset_int64 _ _ _ Ho Hl). cbn [bindR]. now eexists.
Qed.

(** C6, as the code has it.  For an existing event with [T] attendees
    and a page size [S] from 1 to the largest integer of the store:
    [(T + S - 1) / S] is the ceiling of [T / S] (and 0 when [T = 0]);
    every answer of a call carries [T] as its total and that number as
    its [pages]; the calls for pages [1 .. pages] all return, and
    their item lists, one after the other, are the rows of the event
    in the order of their ids, each row once; a page beyond [pages]
    answers with no items and no error as long as its offset
    [(page - 1) * S] is an integer of the store; beyond that the call
    raises [OverflowError]. *)
Theorem list_attendees_pages db event_id e S :
  Sql.select_event db event_id = Return (Some e) ->
  1 <= S <= 2 ^ 63 - 1 ->
  let T := Z.of_nat (List.length (attendees_of db event_id)) in
  T <= 2 ^ 63 - 1 ->
  let n := (T + S - 1) / S in
  let call p :=
    AttendeeService.get_attendees_for_event sequential event_id p S db in
  ((n - 1) * S < T <= n * S /\ (T = 0 -> n = 0))
  /\ (forall p db' r,
        call p = (db', Return r) -> db' = db /\ total r = T /\ pages r = n)
  /\ (exists answers rows,
        Forall2 (fun p r => call p = (db, Return r)) (page_numbers n) answers
        /\ List.concat (map items answers) = rows
        /\ Permutation (attendees_of db event_id) rows
        /\ ascending_ids rows)
  /\ (forall p, n < p -> (p - 1) * S <= 2 ^ 63 - 1 ->
        exists r, call p = (db, Return r) /\ items r = [])
  /\ (forall p, 2 ^ 63 - 1 < (p - 1) * S ->
        call p = (db, Raise OverflowError)).
Proof.
  intros He HS T HT n call.
  assert (HT0 : 0 <= T) by (unfold T; lia).
  destruct (ceiling_division T S HT0 (proj1 HS)) as [Hceil Hn].
  fold n in Hceil, Hn.
  assert (HSint : int64 S) by int64_lia.
  set (ordered := Sql.order_by_id (attendees_of db event_id)).
  assert (Hlen : Z.of_nat (List.length ordered) = T)
    by (unfold ordered, T; now rewrite order_by_id_length).
  assert (Hcall : forall p, 1 <= p -> (p - 1) * S <= 2 ^ 63 - 1 ->
            call p = (db, Return (mkPage T p S n
                                    (slice ((p - 1) * S) S ordered)))).
  { intros p Hp Ho. unfold call.
    apply (get_attendees_run db event_id e p S He Hp (proj1 HS));
      [|exact HSint].
    assert (0 <= (p - 1) * S) by nia. int64_lia. }
  split; [|split; [|split; [|split]]].
  - split; [exact Hceil|]. intros H0. nia.
  - intros p db' r. unfold call. rewrite get_attendees_among, He.
    rewrite !store_at_sequential. cbv zeta.
    destruct (Z.ltb_spec S 1); [lia|].
    destruct (bindR (Sql.offset_rows _ _) _); [|discriminate].
    cbn [bindR]. intros [= <- <-]. repeat split.
  - exists (map (fun p => mkPage T p S n (slice ((p - 1) * S) S ordered))
                (page_numbers n)), ordered.
    split; [|split; [|split]].
    + apply forall2_map. intros p Hp. apply in_page_numbers in Hp.
      apply Hcall; [lia|]. assert ((p - 1) * S <= (n - 1) * S) by nia. lia.
    + rewrite map_map. cbn [items]. unfold page_numbers.
      rewrite map_map, <- seq_shift, map_map.
      rewrite (map_ext _ (fun k => firstn (Z.to_nat S)
                                     (skipn (k * Z.to_nat S) ordered))).
      * rewrite chunks_concat. apply firstn_all2.
        apply Nat2Z.inj_le. rewrite Nat2Z.inj_mul, !Z2Nat.id by lia. lia.
      * intros k. unfold slice. rewrite Z2Nat.inj_mul by lia.
        replace (Z.to_nat (Z.of_nat (Datatypes.S k) - 1)) with k by lia.
        reflexivity.
    + apply order_by_id_perm.
    + apply order_by_id_sorted.
  - intros p Hp Ho. eexists. split; [apply Hcall; lia|].
    cbn [items]. unfold slice.
    rewrite skipn_all2; [apply firstn_nil|].
    apply Nat2Z.inj_le. rewrite Z2Nat.id by nia. nia.
  - intros p Ho. unfold call.
    assert (Hp : 1 <= p) by nia.
    apply (get_attendees_overflow db event_id e p S He Hp (proj1 HS)).
    intros [Hoff _]. int64_lia.
Qed.

(* ================================================================== *)
(** * Registration *)
(* ================================================================== *)

(** A registration among other requests, one store per [await]. *)
Lemma register_among others event_id data db :
  AttendeeService.register_attendee others event_id data db
  = match Sql.select_event db event_id with
    | Raise x => (db, Raise x)
    | Return None => (store_at others 1 db, Raise event_not_found)
    | Return (Some e) =>
        if Sql.count_attendees (store_at others 1 db) event_id
           >=? Event_max_capacity e
        then (store_at others 2 db, Raise full_capacity)
        else
          match Sql.select_attendee (store_at others 2 db) event_id
                                    (AttendeeCreate_email data) with
          | Some _ => (store_at others 3 db, Raise already_registered)
          | None =>
              Sql.insert_attendee (store_at others 3 db)
                (AttendeeCreate_name data) (AttendeeCreate_email data) event_id
          end
    end.
Proof.
  unfold AttendeeService.register_attendee, bindS, execute, others_run,
    raise, store_at. cbn [seq fold_left].
  destruct (Sql.select_event db event_id) as [[e|]|x]; try reflexivity.
  destruct (_ >=? _); [reflexivity|].
  destruct (Sql.select_attendee _ _ _); reflexivity.
Qed.

(** The same when nobody else runs. *)
Lemma register_alone event_id data db :
  AttendeeService.register_attendee sequential event_id data db
  = match Sql.select_event db event_id with
    | Raise x => (db, Raise x)
    | Return None => (db, Raise event_not_found)
    | Return (Some e) =>
        if Sql.count_attendees db event_id >=? Event_max_capacity e
        then (db, Raise full_capacity)
        else
          match Sql.select_attendee db event_id (AttendeeCreate_email data) with
          | Some _ => (db, Raise already_registered)
          | None =>
              let a := mkAttendee (Sql.next_id (map Attendee_id (attendees db)))
                         (AttendeeCreate_name data) (AttendeeCreate_email data)
                         event_id in
              (mkDB (events db) (attendees db ++ [a]), Return a)
          end
    end.
Proof.
  rewrite register_among, !store_at_sequential.
  destruct (Sql.select_event db event_id) as [[e|]|x]; try reflexivity.
  destruct (_ >=? _); [reflexivity|].
  unfold Sql.insert_attendee.
  destruct (Sql.select_attendee _ _ _); reflexivity.
Qed.

Lemma count_after_insert evs atts a event_id :
  Sql.count_attendees (mkDB evs (atts ++ [a])) event_id
  = Sql.count_attendees (mkDB evs atts) event_id
    + (if Attendee_event_id a =? event_id then 1 else 0).
Proof.
  unfold Sql.count_attendees. cbn [attendees].
  rewrite filter_app, length_app. cbn [filter]. unfold Sql.of_event at 2.
  destruct (Attendee_event_id a =? event_id); cbn [List.length]; lia.
Qed.

Lemma select_after_insert evs atts a :
  Sql.select_attendee (mkDB evs (atts ++ [a]))
                      (Attendee_event_id a) (Attendee_email a)
  <> None.
Proof.
  unfold Sql.select_attendee. cbn [attendees].
  induction atts as [|b atts IH]; cbn [app find].
  - unfold Sql.of_event. now rewrite Z.eqb_refl, String.eqb_refl.
  - destruct (_ && _); [discriminate|exact IH].
Qed.

Lemma db_eta db : mkDB (events db) (attendees db) = db.
Proof. now destruct db. Qed.

Lemma find_none_app {A : Type} (f : A -> bool) (l l' : list A) :
  find f l = None -> find f (l ++ l') = find f l'.
Proof.
  induction l as [|x l IH]; cbn [app find]; [reflexivity|].
  destruct (f x); [discriminate|exact IH].
Qed.

Lemma find_some_app {A : Type} (f : A -> bool) (l l' : list A) x :
  find f l = Some x -> find f (l ++ l') = Some x.
Proof.
  induction l as [|y l IH]; cbn [app find]; [discriminate|].
  destruct (f y); [trivial|exact IH].
Qed.

Lemma count_nonnegative db event_id : 0 <= Sql.count_attendees db event_id.
Proof. unfold Sql.count_attendees. lia. Qed.

Lemma next_id_above ids x : In x ids -> x < Sql.next_id ids.
Proof.
  unfold Sql.next_id. induction ids as [|y ids IH]; cbn [fold_right In].
  - intros [].
  - intros [->|Hx]; [lia|]. specialize (IH Hx). lia.
Qed.

Lemma next_id_positive ids : 1 <= Sql.next_id ids.
Proof.
  unfold Sql.next_id. induction ids as [|y ids IH]; cbn [fold_right]; lia.
Qed.

(** The events table is not touched by an attendee row more. *)
Lemma select_event_after_attendee db a event_id :
  Sql.select_event (mkDB (events db) (attendees db ++ [a])) event_id
  = Sql.select_event db event_id.
Proof. reflexivity. Qed.

(** C5, as the code has it.  For an existing event with room for two
    more attendees and an email not yet registered for it, registering
    the pair [(event_id, email)] twice in a row succeeds the first
    time and fails with the duplicate-registration error the second
    time, whatever the two names are. *)
Theorem register_twice_is_duplicate db event_id e first second :
  Sql.select_event db event_id = Return (Some e) ->
  Sql.count_attendees db event_id + 2 <= Event_max_capacity e ->
  Sql.select_attendee db event_id (AttendeeCreate_email first) = None ->
  AttendeeCreate_email second = AttendeeCreate_email first ->
  exists db1 a,
    AttendeeService.register_attendee sequential event_id first db
    = (db1, Return a)
    /\ Attendee_email a = AttendeeCreate_email first
    /\ Attendee_event_id a = event_id
    /\ AttendeeService.register_attendee sequential event_id second db1
       = (db1, Raise already_registered)
    /\ error_kind already_registered = DuplicateRegistration.
Proof.
  intros He Hroom Hnew Hsame.
  rewrite register_alone, He.
  destruct (Z.geb_spec (Sql.count_attendees db event_id) (Event_max_capacity e));
    [lia|].
  rewrite Hnew. cbv zeta.
  set (a := mkAttendee _ _ _ _). exists (mkDB (events db) (attendees db ++ [a])), a.
  repeat split.
  rewrite register_alone, select_event_after_attendee, He.
  rewrite count_after_insert, db_eta. cbn [Attendee_event_id a].
  rewrite Z.eqb_refl.
  destruct (Z.geb_spec (Sql.count_attendees db event_id + 1)
                       (Event_max_capacity e)); [lia|].
  rewrite Hsame.
  pose proof (select_after_insert (events db) (attendees db) a) as Hsel.
  cbn [Attendee_event_id Attendee_email a] in Hsel.
  destruct (Sql.select_attendee (mkDB _ _) _ _); [reflexivity|contradiction].
Qed.

(** C3, as the code has it.  When the checks of a registration pass
    and another request commits the same [(event_id, email)] before
    the insert, the insert fails on [_email_event_uc] and
    [register_attendee], which has no handler around it, lets the
    [IntegrityError] through: the caller gets a storage fault (a 500),
    not the duplicate-registration error, and no row is written. *)
Theorem unique_violation_is_not_translated others db event_id e data other :
  Sql.select_event db event_id = Return (Some e) ->
  Sql.count_attendees (store_at others 1 db) event_id < Event_max_capacity e ->
  Sql.select_attendee (store_at others 2 db) event_id
                      (AttendeeCreate_email data) = None ->
  Sql.select_attendee (store_at others 3 db) event_id
                      (AttendeeCreate_email data) = Some other ->
  AttendeeService.register_attendee others event_id data db
  = (store_at others 3 db, Raise (IntegrityError "_email_event_uc"))
  /\ error_kind (IntegrityError "_email_event_uc") = StorageFailure
  /\ exception_response (IntegrityError "_email_event_uc")
     = mkResponse HTTP_500_INTERNAL_SERVER_ERROR InternalServerError.
Proof.
  intros He Hroom Hnew Hrace. split; [|split; reflexivity].
  rewrite register_among, He.
  destruct (Z.geb_spec (Sql.count_attendees (store_at others 1 db) event_id)
                       (Event_max_capacity e)); [lia|].
  rewrite Hnew. unfold Sql.insert_attendee. now rewrite Hrace.
Qed.

Lemma in_firstn {A : Type} (n : nat) (l : list A) x :
  In x (firstn n l) -> In x l.
Proof.
  intros Hx. rewrite <- (firstn_skipn n l). apply in_or_app. now left.
Qed.

Lemma in_skipn {A : Type} (n : nat) (l : list A) x :
  In x (skipn n l) -> In x l.
Proof.
  intros Hx. rewrite <- (firstn_skipn n l). apply in_or_app. now right.
Qed.

Lemma in_limit_offset {A : Type} (limit offset : Z) (l rows : list A) x :
  (rows <- Sql.offset_rows offset l ;; Sql.limit_rows limit rows)
  = Return rows ->
  In x rows -> In x l.
Proof.
  intros Hr Hx. apply limit_offset_return in Hr as (_ & _ & ->).
  destruct (limit <? 0); [|apply in_firstn in Hx]; now apply in_skipn in Hx.
Qed.

Lemma in_insert_by_start e l x :
  In x (EventService.insert_by_start e l) -> x = e \/ In x l.
Proof.
  induction l as [|b l IH]; cbn [EventService.insert_by_start].
  - intros [<-|[]]. now left.
  - destruct (_ <=? _).
    + intros [<-|Hx]; [now left|now right].
    + intros [<-|Hx]; [right; now left|].
      destruct (IH Hx) as [->|Hl]; [now left|right; now right].
Qed.

Lemma in_order_by_start_time l x :
  In x (EventService.order_by_start_time l) -> In x l.
Proof.
  induction l as [|e l IH]; cbn [EventService.order_by_start_time fold_right].
  - intros [].
  - intros Hx. apply in_insert_by_start in Hx as [->|Hx]; [now left|].
    right. now apply IH.
Qed.

(** What [get_events] does: the store is only read, and the answer is
    the paging statement's. *)
Lemma get_events_run now skip limit db :
  EventService.get_events now skip limit db
  = (db,
     rows <- Sql.offset_rows skip
               (EventService.order_by_start_time
                  (filter (upcoming now) (events db))) ;;
     Sql.limit_rows limit rows).
Proof.
  assert (Hf : forall l,
             filter (fun e =>
                       instant (mkDatetime now (Some (zone_tzinfo utc)))
                       <? instant (Event_end_time e)) l
             = filter (upcoming now) l).
  { apply filter_ext. intros e. unfold upcoming, instant at 1. cbn.
    now rewrite Z.sub_0_r. }
  unfold EventService.get_events, execute. now rewrite Hf.
Qed.

(** C10.  [register_attendee] never looks at the clock or at the
    window of the event: for an existing event that has ended, a
    registration with a fresh email under capacity succeeds and writes
    its row, although [get_events], which lists the events ending
    after now, does not return that event any more: whatever it skips
    and however many it is limited to, no list it returns holds the
    event, and it does return one when the two numbers are integers
    of the store. *)
Theorem ended_event_still_takes_registrations db event_id e data now :
  Sql.select_event db event_id = Return (Some e) ->
  instant (Event_end_time e) <= now ->
  Sql.count_attendees db event_id < Event_max_capacity e ->
  Sql.select_attendee db event_id (AttendeeCreate_email data) = None ->
  (exists db' a,
      AttendeeService.register_attendee sequential event_id data db
      = (db', Return a)
      /\ In a (attendees db')
      /\ Attendee_event_id a = event_id
      /\ Attendee_email a = AttendeeCreate_email data)
  /\ (forall skip limit,
        (forall db' listed,
            EventService.get_events now skip limit db = (db', Return listed) ->
            ~ In e listed)
        /\ (int64 skip -> int64 limit ->
            exists listed,
              EventService.get_events now skip limit db
              = (db, Return listed))).
Proof.
  intros He Hended Hroom Hnew. split.
  - rewrite register_alone, He.
    destruct (Z.geb_spec (Sql.count_attendees db event_id)
                         (Event_max_capacity e)); [lia|].
    rewrite Hnew. cbv zeta. eexists _, _. split; [reflexivity|].
    cbn [attendees Attendee_event_id Attendee_email].
    split; [|split; reflexivity].
    apply in_or_app. right. now left.
  - intros skip limit. rewrite get_events_run. split.
    + intros db' listed [= _ Hrows] Hin.
      apply (in_limit_offset _ _ _ _ _ Hrows) in Hin.
      apply in_order_by_start_time, filter_In in Hin as [_ Hlater].
      unfold upcoming in Hlater. lia.
    + intros Hskip Hlimit. rewrite (limit_offset_int64 _ _ _ Hskip Hlimit).
      now eexists.
Qed.


(** X2.  An event whose [max_capacity] is zero or negative never
    takes a registration: every attempt, whatever the store holds for
    it, fails with the full-capacity error and writes nothing. *)
Theorem non_positive_capacity_takes_nobody db event_id e data :
  Sql.select_event db event_id = Return (Some e) ->
  Event_max_capacity e <= 0 ->
  AttendeeService.register_attendee sequential event_id data db
  = (db, Raise full_capacity).
Proof.
  intros He Hcap. rewrite register_alone, He.
  pose proof (count_nonnegative db event_id).
  destruct (Z.geb_spec (Sql.count_attendees db event_id)
                       (Event_max_capacity e)); [reflexivity|lia].
Qed.

(** X3.  The capacity check is not atomic with the insert.  When the
    three checks of a registration pass on the stores it reads and no
    row with its email has appeared by the time of the commit, the row
    is written whatever the attendee count has become meanwhile: the
    count after the registration is the count the commit found plus
    one, capacity or not. *)
Theorem capacity_check_is_not_atomic others db event_id e data :
  Sql.select_event db event_id = Return (Some e) ->
  Sql.count_attendees (store_at others 1 db) event_id < Event_max_capacity e ->
  Sql.select_attendee (store_at others 2 db) event_id
                      (AttendeeCreate_email data) = None ->
  Sql.select_attendee (store_at others 3 db) event_id
                      (AttendeeCreate_email data) = None ->
  exists db' a,
    AttendeeService.register_attendee others event_id data db
    = (db', Return a)
    /\ attendees db' = attendees (store_at others 3 db) ++ [a]
    /\ Sql.count_attendees db' event_id
       = Sql.count_attendees (store_at others 3 db) event_id + 1.
Proof.
  intros He Hroom Hnew Hstill.
  rewrite register_among, He.
  destruct (Z.geb_spec (Sql.count_attendees (store_at others 1 db) event_id)
                       (Event_max_capacity e)); [lia|].
  rewrite Hnew. unfold Sql.insert_attendee. rewrite Hstill.
  eexists _, _. split; [reflexivity|]. split; [reflexivity|].
  rewrite count_after_insert, db_eta. cbn [Attendee_event_id].
  now rewrite Z.eqb_refl.
Qed.

(** X18.  A registration that succeeded can be looked up: the row it
    returned is the one found for its [(event_id, email)] pair, the
    attendee count of its event is one higher, the counts of the other
    events and the events table are what they were. *)
Theorem registered_attendee_is_found db event_id data db' a :
  AttendeeService.register_attendee sequential event_id data db
  = (db', Return a) ->
  Sql.select_attendee db' event_id (AttendeeCreate_email data) = Some a
  /\ Sql.count_attendees db' event_id = Sql.count_attendees db event_id + 1
  /\ (forall other, other <> event_id ->
                    Sql.count_attendees db' other
                    = Sql.count_attendees db other)
  /\ events db' = events db.
Proof.
  rewrite register_alone.
  destruct (Sql.select_event db event_id) as [[e|]|x]; try discriminate.
  destruct (_ >=? _); [discriminate|].
  destruct (Sql.select_attendee db event_id (AttendeeCreate_email data))
    eqn:Enew; [discriminate|].
  cbv zeta. intros [= <- <-]. split; [|split; [|split]].
  - unfold Sql.select_attendee in *. cbn [attendees].
    rewrite (find_none_app _ _ _ Enew). cbn [find Attendee_event_id
      Attendee_email]. unfold Sql.of_event. cbn [Attendee_event_id].
    now rewrite Z.eqb_refl, String.eqb_refl.
  - rewrite count_after_insert, db_eta. cbn [Attendee_event_id].
    now rewrite Z.eqb_refl.
  - intros other Hother. rewrite count_after_insert, db_eta.
    cbn [Attendee_event_id].
    destruct (Z.eqb_spec event_id other); [congruence|lia].
  - reflexivity.
Qed.

(** X4.  For an existing event with [T] attendees, a size [S >= 1]
    and a page [p >= 1], both integers of the store as is the offset
    [(p - 1) * S], the call returns and its page holds
    [min S (max 0 (T - (p - 1) * S))] items: every page before the
    last is full, the last holds the rest, and later ones are
    empty. *)
Theorem page_holds_what_is_left db event_id e p S :
  Sql.select_event db event_id = Return (Some e) ->
  1 <= S <= 2 ^ 63 - 1 -> 1 <= p -> (p - 1) * S <= 2 ^ 63 - 1 ->
  let T := Z.of_nat (List.length (attendees_of db event_id)) in
  exists r,
    AttendeeService.get_attendees_for_event sequential event_id p S db
    = (db, Return r)
    /\ Z.of_nat (List.length (items r)) = Z.min S (Z.max 0 (T - (p - 1) * S)).
Proof.
  intros He HS Hp Ho T.
  assert (Hoff : 0 <= (p - 1) * S) by nia.
  eexists. split.
  - apply (get_attendees_run db event_id e p S He Hp (proj1 HS)); int64_lia.
  - cbn [items]. unfold slice. rewrite length_firstn, length_skipn.
    rewrite order_by_id_length. fold T. lia.
Qed.

(* ================================================================== *)
(** * Time zones *)
(* ================================================================== *)

(** Linear arithmetic over the constants of the clock. *)
Ltac clock_lia :=
  unfold MAXORDINAL, DAY, HOUR, MINUTE, SECOND in *; lia.

Lemma in_range_true w : 0 <= w < MAXORDINAL * DAY -> in_range w = true.
Proof.
  unfold in_range. intros [Hlo Hhi]. apply andb_true_intro.
  split; [now apply Z.leb_le|now apply Z.ltb_lt].
Qed.

Lemma in_range_bounds w : in_range w = true -> 0 <= w < MAXORDINAL * DAY.
Proof.
  unfold in_range. intros Hw. apply andb_prop in Hw as [Hlo Hhi].
  apply Z.leb_le in Hlo. apply Z.ltb_lt in Hhi. now split.
Qed.

Lemma datetime_eta d : mkDatetime (wall d) (dt_tzinfo d) = d.
Proof. now destruct d. Qed.

Lemma info_eqb_refl i : info_eqb i i = true.
Proof.
  unfold info_eqb. now rewrite !Z.eqb_refl, String.eqb_refl.
Qed.

Lemma info_eqb_eq a b : info_eqb a b = true -> a = b.
Proof.
  unfold info_eqb. destruct a, b. cbn.
  intros Hab. apply andb_prop in Hab as [Hab Hn].
  apply andb_prop in Hab as [Ho Hd].
  apply Z.eqb_eq in Ho, Hd. apply String.eqb_eq in Hn. now subst.
Qed.

Lemma tzinfo_is_eq a b : tzinfo_is a b = true -> a = b.
Proof.
  destruct a as [|za ia], b as [|zb ib]; cbn; try discriminate.
  intros Hab. apply andb_prop in Hab as [Hz Hi].
  apply String.eqb_eq in Hz. apply info_eqb_eq in Hi. now subst.
Qed.

Lemma add_timedelta_run dt delta d :
  add_timedelta dt delta = Return d ->
  in_range (wall dt + delta) = true
  /\ d = mkDatetime (wall dt + delta) (dt_tzinfo dt).
Proof.
  unfold add_timedelta. destruct (in_range _); [|discriminate].
  intros [= <-]. now split.
Qed.

Lemma add_timedelta_raise dt delta x :
  add_timedelta dt delta = Raise x -> x = OverflowError.
Proof.
  unfold add_timedelta. destruct (in_range _); [discriminate|].
  now intros [= <-].
Qed.

Lemma fromutc_run z u d :
  fromutc z u = Return d ->
  in_range (u + ti_utcoffset (info_at z u)) = true
  /\ d = mkDatetime (u + ti_utcoffset (info_at z u))
                    (Some (pytz_tzinfo (zone_name z) (info_at z u))).
Proof.
  unfold fromutc, bindR. destruct (add_timedelta _ _) as [dt|] eqn:E;
    [|discriminate].
  apply add_timedelta_run in E as [Hr ->]. cbn [wall dt_tzinfo] in *.
  intros [= <-]. now split.
Qed.

Lemma fromutc_raise z u x : fromutc z u = Raise x -> x = OverflowError.
Proof.
  unfold fromutc, bindR. destruct (add_timedelta _ _) as [dt|y] eqn:E;
    [discriminate|].
  intros [= <-]. exact (add_timedelta_raise _ _ _ E).
Qed.

Lemma fromutc_aware z u d : fromutc z u = Return d -> aware d /\ instant d = u.
Proof.
  intros Hd. apply fromutc_run in Hd as [_ ->]. split; [discriminate|].
  unfold instant. cbn. lia.
Qed.

Lemma localize_candidate_aware z dt delta l :
  localize_candidate z dt delta = Return l -> Forall aware l.
Proof.
  unfold localize_candidate, normalize, bindR.
  destruct (add_timedelta dt delta); [|discriminate].
  destruct (add_timedelta (replace_tzinfo dt None) _); [|discriminate].
  destruct (fromutc z _) as [loc|] eqn:E; [|discriminate].
  apply fromutc_aware in E as [Ha _].
  destruct (_ =? _); intros [= <-]; repeat constructor. exact Ha.
Qed.

Lemma localize_candidate_raise z dt delta x :
  localize_candidate z dt delta = Raise x -> x = OverflowError.
Proof.
  unfold localize_candidate, normalize, bindR.
  destruct (add_timedelta dt delta) as [d1|y1] eqn:E1;
    [|intros [= <-]; exact (add_timedelta_raise _ _ _ E1)].
  destruct (add_timedelta (replace_tzinfo dt None) _) as [d2|y2] eqn:E2;
    [|intros [= <-]; exact (add_timedelta_raise _ _ _ E2)].
  destruct (fromutc z _) as [loc|y3] eqn:E3;
    [discriminate|intros [= <-]; exact (fromutc_raise _ _ _ E3)].
Qed.

Lemma set_add_aware d s : aware d -> Forall aware s -> Forall aware (set_add d s).
Proof.
  intros Hd Hs. unfold set_add. destruct (existsb _ _); [exact Hs|].
  apply Forall_app. split; [exact Hs|]. now repeat constructor.
Qed.

Lemma possible_aware l s :
  Forall aware l -> Forall aware s ->
  Forall aware (fold_left (fun s d => set_add d s) l s).
Proof.
  revert s. induction l as [|d l IH]; intros s Hl Hs; cbn [fold_left].
  - exact Hs.
  - inversion Hl; subst. apply IH; [assumption|]. now apply set_add_aware.
Qed.

Lemma latest_aware d ds : aware d -> Forall aware ds -> aware (latest d ds).
Proof.
  revert d. induction ds as [|d' ds IH]; intros d Hd Hds; cbn [latest].
  - exact Hd.
  - inversion Hds; subst. destruct (_ <? _); now apply IH.
Qed.

Lemma localize_from_aware depth z dt d :
  localize_from depth z dt = Return d -> aware d.
Proof.
  revert dt d. induction depth as [|depth IH]; intros dt d;
    cbn [localize_from]; [discriminate|].
  destruct (dt_tzinfo dt); [discriminate|]. unfold bindR at 1.
  destruct (localize_candidate z dt (- DAY)) as [before|] eqn:Eb;
    [|discriminate].
  unfold bindR at 1.
  destruct (localize_candidate z dt DAY) as [after|] eqn:Ea; [|discriminate].
  apply localize_candidate_aware in Eb, Ea.
  assert (Hp : Forall aware
                 (fold_left (fun s d => set_add d s) (before ++ after) []))
    by (apply possible_aware; [now apply Forall_app|constructor]).
  destruct (fold_left _ _ _) as [|p [|p' ps]] eqn:Ep.
  - unfold bindR. destruct (add_timedelta dt _); [|discriminate].
    destruct (localize_from depth z _) as [loc|] eqn:El; [|discriminate].
    apply IH in El. intros Hd. apply add_timedelta_run in Hd as [_ ->].
    exact El.
  - intros [= <-]. now inversion Hp.
  - assert (Hf : Forall aware (filter is_standard (p :: p' :: ps))).
    { apply Forall_forall. intros x Hx. apply filter_In in Hx as [Hx _].
      revert x Hx. now apply Forall_forall. }
    destruct (filter is_standard (p :: p' :: ps)) as [|q [|q' qs]].
    + intros [= <-]. inversion Hp; subst.
      now apply (latest_aware p (p' :: ps)).
    + intros [= <-]. now inversion Hf.
    + intros [= <-]. inversion Hf; subst. now apply (latest_aware q (q' :: qs)).
Qed.

Lemma overflow_from_a_library x : x = OverflowError -> from_a_library x.
Proof. now intros ->. Qed.

Lemma exception_response_500 x :
  from_a_library x -> exception_response x = internal_server_error.
Proof. now destruct x. Qed.

Lemma localize_from_raise depth z dt x :
  localize_from depth z dt = Raise x -> from_a_library x.
Proof.
  revert dt x. induction depth as [|depth IH]; intros dt x;
    cbn [localize_from]; [now intros [= <-]|].
  destruct (dt_tzinfo dt); [now intros [= <-]|]. unfold bindR at 1.
  destruct (localize_candidate z dt (- DAY)) as [before|y] eqn:Eb;
    [|intros [= <-];
      exact (overflow_from_a_library _ (localize_candidate_raise _ _ _ _ Eb))].
  unfold bindR at 1.
  destruct (localize_candidate z dt DAY) as [after|y] eqn:Ea;
    [|intros [= <-];
      exact (overflow_from_a_library _ (localize_candidate_raise _ _ _ _ Ea))].
  destruct (fold_left _ _ _) as [|p [|p' ps]].
  - unfold bindR. destruct (add_timedelta dt _) as [earlier|y] eqn:Ee;
      [|intros [= <-];
        exact (overflow_from_a_library _ (add_timedelta_raise _ _ _ Ee))].
    destruct (localize_from depth z earlier) as [loc|y] eqn:El;
      [|intros [= <-]; exact (IH _ _ El)].
    intros Hx. exact (overflow_from_a_library _ (add_timedelta_raise _ _ _ Hx)).
  - discriminate.
  - destruct (filter is_standard (p :: p' :: ps)) as [|q [|q' qs]];
      discriminate.
Qed.

Section Library_facts.
Context `{PythonRuntime}.

Lemma localize_aware z dt d : localize z dt = Return d -> aware d.
Proof.
  unfold localize. destruct (localize_steps z dt) as [r|x] eqn:E.
  - intros [= <-]. exact (localize_from_aware _ _ _ _ E).
  - destruct x; try discriminate.
    destruct (localize_at_the_ends z dt) as [[w inf]|]; [|discriminate].
    intros [= <-]. discriminate.
Qed.

Lemma localize_raise z dt x : localize z dt = Raise x -> from_a_library x.
Proof.
  unfold localize. destruct (localize_steps z dt) as [r|y] eqn:E;
    [discriminate|].
  pose proof (localize_from_raise _ _ _ _ E) as Hy.
  destruct y; try (intros [= <-]; exact Hy).
  destruct (localize_at_the_ends z dt) as [[w inf]|]; [discriminate|].
  now intros [= <-].
Qed.

(** Where its steps return, [localize] returns what they do. *)
Lemma localize_of_steps z dt d :
  localize_steps z dt = Return d -> localize z dt = Return d.
Proof. unfold localize. now intros ->. Qed.

Lemma astimezone_raise dt z x : astimezone dt z = Raise x -> x = OverflowError.
Proof.
  unfold astimezone, bindR.
  destruct (dt_tzinfo dt) as [mytz|].
  - destruct (tzinfo_is _ _); [discriminate|].
    destruct (add_timedelta dt _) as [u|y] eqn:Eu;
      [apply fromutc_raise|intros [= <-]; exact (add_timedelta_raise _ _ _ Eu)].
  - destruct (add_timedelta dt _) as [u|y] eqn:Eu;
      [apply fromutc_raise|intros [= <-]; exact (add_timedelta_raise _ _ _ Eu)].
Qed.

Lemma astimezone_utc_instant dt d :
  aware dt -> astimezone dt utc = Return d ->
  aware d /\ instant d = instant dt.
Proof.
  unfold astimezone, aware. destruct (dt_tzinfo dt) as [mytz|] eqn:Etz;
    [|congruence].
  intros _. destruct (tzinfo_is _ _).
  - intros [= <-]. rewrite Etz. split; [discriminate|reflexivity].
  - unfold bindR. destruct (add_timedelta dt _) as [u|] eqn:Eu; [|discriminate].
    apply add_timedelta_run in Eu as [_ ->]. cbn [wall].
    intros Hd. apply fromutc_aware in Hd as [Ha ->]. split; [exact Ha|].
    unfold instant. rewrite Etz. lia.
Qed.

(** What [astimezone(pytz.utc)] returns when it returns. *)
Lemma astimezone_utc_value dt d :
  aware dt -> astimezone dt utc = Return d ->
  d = mkDatetime (instant dt) (Some (zone_tzinfo utc)).
Proof.
  unfold astimezone, aware, instant.
  destruct (dt_tzinfo dt) as [mytz|] eqn:Etz; [|congruence]. intros _.
  destruct (tzinfo_is (zone_tzinfo utc) mytz) eqn:Eis.
  - apply tzinfo_is_eq in Eis. subst mytz. intros [= <-].
    cbn [utcoffset zone_tzinfo utc zone_first ti_utcoffset].
    rewrite Z.sub_0_r, <- Etz. apply eq_sym, datetime_eta.
  - unfold bindR. destruct (add_timedelta dt _) as [u|] eqn:Eu; [|discriminate].
    apply add_timedelta_run in Eu as [_ ->]. cbn [wall]. intros Hd.
    apply fromutc_run in Hd as [_ ->].
    change (info_at utc (wall dt + - utcoffset mytz)) with (zone_first utc).
    cbn [utc zone_first ti_utcoffset zone_name zone_tzinfo]. f_equal. lia.
Qed.

(** When it does return. *)
Lemma astimezone_utc_returns dt :
  aware dt -> in_range (instant dt) = true ->
  astimezone dt utc = Return (mkDatetime (instant dt) (Some (zone_tzinfo utc))).
Proof.
  intros Ha Hr.
  assert (Hret : exists d, astimezone dt utc = Return d).
  { unfold astimezone, aware, instant in *.
    destruct (dt_tzinfo dt) as [mytz|]; [|congruence].
    destruct (tzinfo_is _ _); [now eexists|].
    unfold bindR, add_timedelta, fromutc.
    replace (wall dt + - utcoffset mytz) with (wall dt - utcoffset mytz) by lia.
    rewrite Hr. cbn [wall bindR]. unfold add_timedelta. cbn [wall].
    change (ti_utcoffset (info_at utc (wall dt - utcoffset mytz))) with 0.
    rewrite Z.add_0_r, Hr. now eexists. }
  destruct Hret as [d Hd]. rewrite Hd.
  now rewrite (astimezone_utc_value dt d Ha Hd).
Qed.


End Library_facts.

(* ================================================================== *)
(** * Validation of an event *)
(* ================================================================== *)

Section Validation.
Context `{PythonRuntime}.

Lemma ensure_aware v d :
  EventBase.ensure_timezone_awareness v = Return d -> aware d.
Proof.
  unfold EventBase.ensure_timezone_awareness, bindR.
  destruct (match v with RawStr _ => _ | _ => _ end) as [d0|]; [|discriminate].
  destruct (dt_tzinfo d0) eqn:Etz.
  - intros [= <-]. unfold aware. congruence.
  - destruct (timezone_or_raise _); [|discriminate].
    apply localize_aware.
Qed.

(** What the validator lets out, when it is no error of the field. *)
Lemma ensure_raise v x :
  EventBase.ensure_timezone_awareness v = Raise x -> from_a_library x.
Proof.
  unfold EventBase.ensure_timezone_awareness, bindR.
  destruct (match v with RawStr _ => _ | _ => _ end) as [d0|y] eqn:Ev.
  - destruct (dt_tzinfo d0); [discriminate|].
    unfold timezone_or_raise. destruct (pytz_timezone _);
      [apply localize_raise|now intros [= <-]].
  - intros [= <-]. destruct v as [s|d|]; [|discriminate|now injection Ev as <-].
    destruct (fromisoformat s); [discriminate|now injection Ev as <-].
Qed.

Lemma ensure_of_aware v d :
  raw_datetime v = Some d -> aware d ->
  EventBase.ensure_timezone_awareness v = Return d.
Proof.
  unfold EventBase.ensure_timezone_awareness, raw_datetime, aware, bindR.
  intros Hv Ha.
  destruct v as [s|d0|]; [destruct (fromisoformat s) as [d0|msg]| |];
    try discriminate; injection Hv as ->;
    destruct (dt_tzinfo d); congruence.
Qed.

Lemma apply_validators_some {A : Type} loc (r : Result A) a errors :
  Pydantic.apply_validators loc r = Return (Some a, errors) ->
  r = Return a /\ errors = [].
Proof.
  unfold Pydantic.apply_validators.
  destruct r as [a0|[]]; try discriminate. intros [= <- <-]. now split.
Qed.

Lemma apply_validators_raise {A : Type} loc (r : Result A) x :
  Pydantic.apply_validators loc r = Raise x -> r = Raise x.
Proof.
  unfold Pydantic.apply_validators.
  destruct r as [a0|[]]; try discriminate; now intros [= <-].
Qed.

Lemma validate_start_time_some f d errors :
  EventBase.validate_start_time f = Return (Some d, errors) ->
  errors = []
  /\ exists v, f = Some v /\ EventBase.ensure_timezone_awareness v = Return d.
Proof.
  unfold EventBase.validate_start_time. destruct f as [v|]; [|discriminate].
  intros Hv. apply apply_validators_some in Hv as [Hv ->].
  split; [reflexivity|]. now exists v.
Qed.

Lemma validate_end_time_some f start d errors :
  EventBase.validate_end_time f start = Return (Some d, errors) ->
  errors = []
  /\ (exists v, f = Some v
                /\ EventBase.ensure_timezone_awareness v = Return d)
  /\ EventBase.end_time_must_be_after_start_time d start = Return d.
Proof.
  unfold EventBase.validate_end_time. destruct f as [v|]; [|discriminate].
  unfold bindR at 1.
  destruct (Pydantic.apply_validators _ (EventBase.ensure_timezone_awareness v))
    as [[[d0|] errs]|] eqn:Epre; try discriminate.
  apply apply_validators_some in Epre as [Hpre ->].
  intros Hpost. apply apply_validators_some in Hpost as [Hpost ->].
  assert (d0 = d) as ->.
  { unfold EventBase.end_time_must_be_after_start_time, bindR in Hpost.
    destruct start; [|congruence].
    destruct (Datetime.le d0 _) as [[]|]; congruence. }
  split; [reflexivity|]. split; [now exists v|exact Hpost].
Qed.

Lemma validate_str_some loc f s errors :
  Pydantic.validate_str loc f = (Some s, errors) -> f = Given s /\ errors = [].
Proof. destruct f; cbn; intros [= <- <-] || intros [=]. now split. Qed.

Lemma validate_int_some loc f n errors :
  Pydantic.validate_int loc f = (Some n, errors) -> f = Given n /\ errors = [].
Proof. destruct f; cbn; intros [= <- <-] || intros [=]. now split. Qed.

(** What a successful validation says about the body. *)
Lemma validate_return raw ev :
  EventBase.validate raw = Return ev ->
  raw_name raw = Given (EventCreate_name ev)
  /\ raw_location raw = Given (EventCreate_location ev)
  /\ raw_max_capacity raw = Given (EventCreate_max_capacity ev)
  /\ (exists v, raw_start_time raw = Some v
                /\ EventBase.ensure_timezone_awareness v
                   = Return (EventCreate_start_time ev))
  /\ (exists v, raw_end_time raw = Some v
                /\ EventBase.ensure_timezone_awareness v
                   = Return (EventCreate_end_time ev))
  /\ Datetime.le (EventCreate_end_time ev) (EventCreate_start_time ev)
     = Return false.
Proof.
  unfold EventBase.validate.
  destruct (Pydantic.validate_str "name" _) as [name e1] eqn:En.
  destruct (Pydantic.validate_str "location" _) as [location e2] eqn:El.
  unfold bindR at 1.
  destruct (EventBase.validate_start_time _) as [[start e3]|] eqn:Es;
    [|discriminate].
  unfold bindR at 1.
  destruct (EventBase.validate_end_time _ _) as [[end_ e4]|] eqn:Ee;
    [|discriminate].
  destruct (Pydantic.validate_int _ _) as [cap e5] eqn:Ec.
  destruct (e1 ++ e2 ++ e3 ++ e4 ++ e5); [|discriminate].
  destruct name as [name|]; [|discriminate].
  destruct location as [location|]; [|discriminate].
  destruct start as [start|]; [|discriminate].
  destruct end_ as [end_|]; [|discriminate].
  destruct cap as [cap|]; [|discriminate].
  intros [= <-]. cbn [EventCreate_name EventCreate_location
    EventCreate_start_time EventCreate_end_time EventCreate_max_capacity].
  apply validate_str_some in En as [-> _], El as [-> _].
  apply validate_int_some in Ec as [-> _].
  apply validate_start_time_some in Es as [_ Hs].
  apply validate_end_time_some in Ee as [_ [He Hle]].
  repeat (split; [first [reflexivity|assumption]|]).
  unfold EventBase.end_time_must_be_after_start_time, bindR in Hle.
  destruct (Datetime.le end_ start) as [[]|]; congruence.
Qed.

(** What leaves a validation is the [ValidationError] with the errors
    of the fields, or an exception of a library. *)
Lemma validate_raise raw x :
  EventBase.validate raw = Raise x -> from_a_library x.
Proof.
  unfold EventBase.validate.
  destruct (Pydantic.validate_str "name" _) as [name e1].
  destruct (Pydantic.validate_str "location" _) as [location e2].
  unfold bindR at 1.
  destruct (EventBase.validate_start_time _) as [[start e3]|y] eqn:Es.
  - unfold bindR at 1.
    destruct (EventBase.validate_end_time _ _) as [[end_ e4]|y] eqn:Ee.
    + destruct (Pydantic.validate_int _ _) as [cap e5].
      destruct (e1 ++ e2 ++ e3 ++ e4 ++ e5); [|now intros [= <-]].
      destruct name; [|now intros [= <-]].
      destruct location; [|now intros [= <-]].
      destruct start; [|now intros [= <-]].
      destruct end_; [|now intros [= <-]].
      destruct cap; [discriminate|now intros [= <-]].
    + intros [= <-]. unfold EventBase.validate_end_time in Ee.
      destruct (raw_end_time raw) as [v|]; [|discriminate].
      unfold bindR in Ee.
      destruct (Pydantic.apply_validators _
                  (EventBase.ensure_timezone_awareness v))
        as [[[d0|] errs]|z] eqn:Epre.
      * apply apply_validators_raise in Ee.
        unfold EventBase.end_time_must_be_after_start_time, bindR,
          Datetime.le in Ee.
        destruct start as [st|]; [|discriminate].
        destruct (dt_tzinfo d0), (dt_tzinfo st); try discriminate;
          try (now injection Ee as <-);
          destruct (_ <=? _); try discriminate; now injection Ee as <-.
      * discriminate.
      * injection Ee as <-. apply apply_validators_raise in Epre.
        exact (ensure_raise _ _ Epre).
  - intros [= <-]. unfold EventBase.validate_start_time in Es.
    destruct (raw_start_time raw) as [v|]; [|discriminate].
    apply apply_validators_raise in Es. exact (ensure_raise _ _ Es).
Qed.

Lemma validate_window raw ev :
  EventBase.validate raw = Return ev ->
  aware (EventCreate_start_time ev) /\ aware (EventCreate_end_time ev)
  /\ instant (EventCreate_start_time ev) < instant (EventCreate_end_time ev).
Proof.
  intros Hv. apply validate_return in Hv
    as (_ & _ & _ & [vs [_ Hs]] & [ve [_ He]] & Hle).
  apply ensure_aware in Hs, He. repeat split; try assumption.
  unfold Datetime.le, aware in *.
  destruct (dt_tzinfo (EventCreate_end_time ev)); [|congruence].
  destruct (dt_tzinfo (EventCreate_start_time ev)); [|congruence].
  injection Hle as Hle. lia.
Qed.

(** A body whose two times the validator returns, the end after the
    start, is valid. *)
Lemma validate_given name location vs ve s e cap :
  EventBase.ensure_timezone_awareness vs = Return s ->
  EventBase.ensure_timezone_awareness ve = Return e ->
  instant s < instant e ->
  EventBase.validate
    (mkRawEvent (Given name) (Given location) (Some vs) (Some ve) (Given cap))
  = Return (mkEventCreate name location s e cap).
Proof.
  intros Hs He Hlt.
  pose proof (ensure_aware _ _ Hs) as Has.
  pose proof (ensure_aware _ _ He) as Hae.
  unfold EventBase.validate, EventBase.validate_start_time,
    EventBase.validate_end_time.
  cbn [raw_name raw_location raw_start_time raw_end_time raw_max_capacity
       Pydantic.validate_str Pydantic.validate_int].
  rewrite Hs, He. cbn [Pydantic.apply_validators bindR].
  unfold EventBase.end_time_must_be_after_start_time, Datetime.le.
  unfold aware in Has, Hae.
  destruct (dt_tzinfo e); [|congruence]. destruct (dt_tzinfo s); [|congruence].
  cbn [bindR]. destruct (Z.leb_spec (instant e) (instant s)); [lia|].
  reflexivity.
Qed.

Lemma validate_any_capacity raw ev n :
  EventBase.validate raw = Return ev ->
  EventBase.validate (with_max_capacity n raw)
  = Return (mkEventCreate (EventCreate_name ev) (EventCreate_location ev)
              (EventCreate_start_time ev) (EventCreate_end_time ev) n).
Proof.
  intros Hv. apply validate_return in Hv
    as (Hname & Hloc & _ & [vs [Hvs Hs]] & [ve [Hve He]] & Hle).
  unfold EventBase.validate, with_max_capacity,
    EventBase.validate_start_time, EventBase.validate_end_time.
  cbn [raw_name raw_location raw_start_time raw_end_time raw_max_capacity].
  rewrite Hname, Hloc, Hvs, Hve, Hs, He.
  cbn [Pydantic.validate_str Pydantic.validate_int
       Pydantic.apply_validators bindR].
  unfold EventBase.end_time_must_be_after_start_time. rewrite Hle.
  reflexivity.
Qed.

(** The answer built from a row does not depend on its capacity. *)
Lemma response_model_any_capacity id name location s e cap cap' r :
  Router.response_model (mkEvent id name location s e cap) = Return r ->
  Router.response_model (mkEvent id name location s e cap')
  = Return (mkEventResponse id
              (mkEventCreate name location
                 (EventCreate_start_time (EventResponse_event r))
                 (EventCreate_end_time (EventResponse_event r)) cap')).
Proof.
  unfold Router.response_model, EventResponseModel.validate, bindR.
  cbn [Event_id Event_name Event_location Event_start_time Event_end_time
       Event_max_capacity].
  destruct (EventBase.validate (mkRawEvent _ _ _ _ (Given cap))) as [ev|]
    eqn:Ev; [|discriminate].
  intros [= <-]. cbn [EventResponse_event].
  pose proof (validate_any_capacity _ _ cap' Ev) as Hv.
  pose proof (validate_return _ _ Ev) as (Hn & Hl & _).
  cbn [raw_name raw_location] in Hn, Hl.
  injection Hn as Hn. injection Hl as Hl.
  unfold with_max_capacity in Hv.
  cbn [raw_name raw_location raw_start_time raw_end_time] in Hv.
  rewrite Hv. congruence.
Qed.

Lemma response_model_raise row x :
  Router.response_model row = Raise x ->
  exception_response x = internal_server_error.
Proof.
  unfold Router.response_model, EventResponseModel.validate, bindR.
  destruct (EventBase.validate _) as [ev|y] eqn:Ev; [discriminate|].
  intros [= <-]. apply exception_response_500. exact (validate_raise _ _ Ev).
Qed.

End Validation.

(* ================================================================== *)
(** * The stores the API can reach *)
(* ================================================================== *)

Lemma select_event_in db event_id e :
  Sql.select_event db event_id = Return (Some e) ->
  In e (events db) /\ Event_id e = event_id /\ int64 event_id.
Proof.
  intros Hsel. apply select_event_return in Hsel as [Hid Hf].
  symmetry in Hf. apply find_some in Hf as [Hin Heq].
  split; [exact Hin|]. split; [lia|exact Hid].
Qed.

Lemma select_event_unique db e :
  NoDup (map Event_id (events db)) -> In e (events db) ->
  int64 (Event_id e) ->
  Sql.select_event db (Event_id e) = Return (Some e).
Proof.
  intros Hnd Hin Hid. rewrite (select_event_int64 _ _ Hid). f_equal.
  revert Hnd Hin. induction (events db) as [|b l IH];
    cbn [map In find]; [intros _ []|].
  intros Hnd Hin. inversion Hnd as [|? ? Hb Hl]; subst.
  destruct (Z.eqb_spec (Event_id b) (Event_id e)) as [Heq|Hne].
  - destruct Hin as [->|Hin]; [reflexivity|].
    exfalso. apply Hb. rewrite Heq. now apply in_map.
  - destruct Hin as [->|Hin]; [congruence|]. now apply IH.
Qed.

Lemma count_without_rows db event_id :
  (forall a, In a (attendees db) -> Attendee_event_id a <> event_id) ->
  Sql.count_attendees db event_id = 0.
Proof.
  unfold Sql.count_attendees. intros Hno.
  replace (filter (Sql.of_event event_id) (attendees db)) with (@nil Attendee);
    [reflexivity|].
  symmetry. induction (attendees db) as [|a l IH]; cbn [filter]; [reflexivity|].
  unfold Sql.of_event at 1.
  destruct (Z.eqb_spec (Attendee_event_id a) event_id) as [Heq|_].
  - exfalso. apply (Hno a); [now left|exact Heq].
  - apply IH. intros b Hb. apply Hno. now right.
Qed.

Lemma consistent_empty : consistent empty_db.
Proof.
  split; cbn [empty_db events attendees map]; [constructor|..]; intros ? [].
Qed.

Lemma consistent_after_event db e :
  consistent db ->
  Event_id e = Sql.next_id (map Event_id (events db)) ->
  Event_id e <= Sql.INT64_MAX ->
  instant (Event_start_time e) < instant (Event_end_time e) ->
  consistent (mkDB (events db ++ [e]) (attendees db)).
Proof.
  intros [Hk Hi Hr Hc Hw] Hid Hmax Hwin.
  assert (Hfresh : ~ In (Event_id e) (map Event_id (events db))).
  { intros Hin. apply next_id_above in Hin. lia. }
  assert (Hcount : forall id,
             Sql.count_attendees (mkDB (events db ++ [e]) (attendees db)) id
             = Sql.count_attendees db id) by reflexivity.
  split; cbn [events attendees].
  - rewrite map_app. apply NoDup_app; [exact Hk|repeat constructor; intros []|].
    intros x Hx [<-|[]]. now apply Hfresh.
  - intros e' He'. apply in_app_or in He' as [He'|[<-|[]]]; [now apply Hi|].
    split; [|exact Hmax]. rewrite Hid. apply next_id_positive.
  - intros a Ha. rewrite map_app. apply in_or_app. left. now apply Hr.
  - intros e' He'. rewrite Hcount. apply in_app_or in He' as [He'|[<-|[]]].
    + now apply Hc.
    + rewrite count_without_rows; [lia|].
      intros a Ha Heq. apply Hfresh. rewrite <- Heq. now apply Hr.
  - intros e' He'. apply in_app_or in He' as [He'|[<-|[]]];
      [now apply Hw|exact Hwin].
Qed.

Lemma consistent_after_attendee db a e :
  consistent db ->
  Sql.select_event db (Attendee_event_id a) = Return (Some e) ->
  Sql.count_attendees db (Attendee_event_id a) < Event_max_capacity e ->
  consistent (mkDB (events db) (attendees db ++ [a])).
Proof.
  intros [Hk Hi Hr Hc Hw] He Hroom.
  destruct (select_event_in _ _ _ He) as (Hin & Hid & Hint).
  split; cbn [events attendees]; try assumption.
  - intros b Hb. apply in_app_or in Hb as [Hb|[<-|[]]]; [now apply Hr|].
    rewrite <- Hid. now apply in_map.
  - intros e' He'. rewrite count_after_insert, db_eta.
    specialize (Hc e' He').
    destruct (Z.eqb_spec (Attendee_event_id a) (Event_id e')) as [Heq|_];
      [|lia].
    assert (Hint' : int64 (Event_id e')) by (rewrite <- Heq; exact Hint).
    pose proof (select_event_unique db e' Hk He' Hint') as Hsel.
    rewrite <- Heq, He in Hsel. injection Hsel as <-. rewrite Heq in Hroom. lia.
Qed.

Section Serving.
Context `{PythonRuntime}.

(** What [create_event] of the service does with a validated body. *)
Lemma create_event_run event_data db :
  aware (EventCreate_start_time event_data) ->
  aware (EventCreate_end_time event_data) ->
  let row :=
    mkEvent (Sql.next_id (map Event_id (events db)))
      (EventCreate_name event_data) (EventCreate_location event_data)
      (mkDatetime (instant (EventCreate_start_time event_data)) None)
      (mkDatetime (instant (EventCreate_end_time event_data)) None)
      (EventCreate_max_capacity event_data) in
  EventService.create_event event_data db
  = (mkDB (events db ++ [row]) (attendees db), Return row)
    /\ int64 (EventCreate_max_capacity event_data)
    /\ Event_id row <= Sql.INT64_MAX
  \/ exists x,
      EventService.create_event event_data db = (db, Raise x)
      /\ (x = OverflowError \/ x = OperationalError).
Proof.
  intros Has Hae row. unfold EventService.create_event.
  destruct (astimezone (EventCreate_start_time event_data) utc) as [s|x]
    eqn:Es;
    [|right; exists x; split; [reflexivity|];
      left; exact (astimezone_raise _ _ _ Es)].
  destruct (astimezone (EventCreate_end_time event_data) utc) as [t|x]
    eqn:Et;
    [|right; exists x; split; [reflexivity|];
      left; exact (astimezone_raise _ _ _ Et)].
  apply (astimezone_utc_value _ _ Has) in Es.
  apply (astimezone_utc_value _ _ Hae) in Et. subst s t.
  unfold Sql.insert_event.
  destruct (Sql.bind (EventCreate_max_capacity event_data)) as [cap|x]
    eqn:Ecap.
  - apply bind_return in Ecap as [-> Hcap].
    destruct (Z.ltb_spec Sql.INT64_MAX
                (Sql.next_id (map Event_id (events db)))).
    + right. exists OperationalError. split; [reflexivity|now right].
    + left. split; [reflexivity|]. split; [exact Hcap|]. cbn [Event_id row].
      lia.
  - apply bind_raise in Ecap as [-> _]. right. exists OverflowError.
    split; [reflexivity|now left].
Qed.

(** What [POST /events/] does: nothing to the store, with an answer
    that is no 201; or one row more, with the answer built from the
    row, which is a 201 or a 500. *)
Lemma create_event_cases raw db :
  (Router.create_event raw db
   = (db, snd (Router.create_event raw db))
   /\ ((exists errors,
          snd (Router.create_event raw db)
          = validation_exception_handler errors)
       \/ snd (Router.create_event raw db) = internal_server_error))
  \/ exists ev,
      EventBase.validate raw = Return ev
      /\ int64 (EventCreate_max_capacity ev)
      /\ Sql.next_id (map Event_id (events db)) <= Sql.INT64_MAX
      /\ let row :=
           mkEvent (Sql.next_id (map Event_id (events db)))
             (EventCreate_name ev) (EventCreate_location ev)
             (mkDatetime (instant (EventCreate_start_time ev)) None)
             (mkDatetime (instant (EventCreate_end_time ev)) None)
             (EventCreate_max_capacity ev) in
         Router.create_event raw db
         = (mkDB (events db ++ [row]) (attendees db),
            match Router.response_model row with
            | Return r => mkResponse HTTP_201_CREATED (EventBody r)
            | Raise _ => internal_server_error
            end).
Proof.
  unfold Router.create_event.
  destruct (EventBase.validate raw) as [ev|err] eqn:Ev.
  - destruct (validate_window _ _ Ev) as (Hs & He & _).
    unfold respond, bindS.
    destruct (create_event_run ev db Hs He)
      as [(-> & Hcap & Hid)|(x & -> & Hx)].
    + right. exists ev. split; [reflexivity|]. split; [exact Hcap|].
      split; [exact Hid|]. cbv zeta.
      destruct (Router.response_model _) as [r|x] eqn:Er; [reflexivity|].
      now rewrite (response_model_raise _ _ Er).
    + left. cbn [snd]. split; [reflexivity|]. right.
      now destruct Hx as [-> | ->].
  - left. pose proof (validate_raise _ _ Ev) as Hlib.
    destruct err; cbn [snd]; (split; [reflexivity|]);
      try (right; reflexivity); try contradiction.
    left. now eexists.
Qed.

Lemma get_attendees_store others event_id p s db :
  (forall n d, others n d = d) ->
  fst (AttendeeService.get_attendees_for_event others event_id p s db) = db.
Proof.
  intros Hq. rewrite get_attendees_among.
  assert (Hst : forall n, store_at others n db = db).
  { intros n. unfold store_at. induction (seq 1 n) as [|k l IH];
      cbn [fold_left]; [reflexivity|]. now rewrite Hq. }
  destruct (Sql.select_event db event_id) as [[e|]|x]; cbn [fst];
    now rewrite ?Hst.
Qed.

Lemma register_for_event_effect event_id att db db' r :
  Router.register_for_event event_id att db = (db', r) ->
  (db' = db /\ status_code r <> HTTP_201_CREATED)
  \/ exists e a,
      Attendee_event_id a = event_id
      /\ Sql.select_event db event_id = Return (Some e)
      /\ Sql.count_attendees db event_id < Event_max_capacity e
      /\ Sql.select_attendee db event_id (Attendee_email a) = None
      /\ (forall b, In b (attendees db) -> Attendee_id b < Attendee_id a)
      /\ db' = mkDB (events db) (attendees db ++ [a])
      /\ r = mkResponse HTTP_201_CREATED (AttendeeBody a).
Proof.
  unfold Router.register_for_event. destruct att as [data|].
  - unfold respond. rewrite register_alone.
    destruct (Sql.select_event db event_id) as [[e|]|x] eqn:Ee.
    + destruct (Z.geb_spec (Sql.count_attendees db event_id)
                           (Event_max_capacity e)).
      * intros [= <- <-]. left. split; [reflexivity|discriminate].
      * destruct (Sql.select_attendee _ _ _) eqn:Ea.
        -- intros [= <- <-]. left. split; [reflexivity|discriminate].
        -- cbv zeta. intros [= <- <-]. right.
           exists e, (mkAttendee (Sql.next_id (map Attendee_id (attendees db)))
                        (AttendeeCreate_name data) (AttendeeCreate_email data)
                        event_id).
           cbn [Attendee_event_id Attendee_email Attendee_id].
           repeat (split; [first [reflexivity|assumption]|]).
           split; [|split; reflexivity].
           intros b Hb. apply next_id_above. now apply in_map.
    + intros [= <- <-]. left. split; [reflexivity|discriminate].
    + apply select_event_raise in Ee as [-> _].
      intros [= <- <-]. left. split; [reflexivity|discriminate].
  - intros [= <- <-]. left. split; [reflexivity|discriminate].
Qed.

Lemma reads_keep_store req db :
  match req with
  | Router.GET_events _ _ _ _ | Router.GET_attendees _ _ _ => True
  | _ => False
  end ->
  fst (Router.handle req db) = db.
Proof.
  destruct req as [raw|now skip limit tz|id att|id p s]; try contradiction;
    intros _; cbn [Router.handle].
  - unfold Router.read_events. destruct (pytz_timezone tz); [|reflexivity].
    unfold respond, bindS. rewrite get_events_run.
    destruct (bindR _ _); [|reflexivity].
    now destruct (Router.to_responses _ _).
  - unfold Router.get_event_attendees.
    destruct (p <? 1); [reflexivity|]. destruct (s <? 1); [reflexivity|].
    destruct (100 <? s); [reflexivity|]. unfold respond.
    pose proof (get_attendees_store sequential id p s db
                  (fun _ _ => eq_refl)) as Hst.
    destruct (AttendeeService.get_attendees_for_event _ _ _ _ _) as [d []];
      exact Hst.
Qed.

(** What serving one request does to the store: nothing, or one event
    row more, or one attendee row more. *)
Lemma handle_change req db :
  fst (Router.handle req db) = db
  \/ (exists e,
        stored_naive e
        /\ Event_id e = Sql.next_id (map Event_id (events db))
        /\ Event_id e <= Sql.INT64_MAX
        /\ instant (Event_start_time e) < instant (Event_end_time e)
        /\ fst (Router.handle req db) = mkDB (events db ++ [e]) (attendees db))
  \/ (exists e a,
        Sql.select_event db (Attendee_event_id a) = Return (Some e)
        /\ Sql.count_attendees db (Attendee_event_id a) < Event_max_capacity e
        /\ Sql.select_attendee db (Attendee_event_id a) (Attendee_email a)
           = None
        /\ (forall b, In b (attendees db) -> Attendee_id b < Attendee_id a)
        /\ fst (Router.handle req db) = mkDB (events db) (attendees db ++ [a])).
Proof.
  destruct req as [raw|now skip limit tz|id att|id p s].
  - cbn [Router.handle].
    destruct (create_event_cases raw db)
      as [[-> _]|(ev & Hv & _ & Hid & Hrun)]; [now left|].
    cbv zeta in Hrun. rewrite Hrun. cbn [fst]. right. left.
    match goal with
    | |- context [events db ++ [?row]] => exists row
    end.
    split; [split; reflexivity|]. split; [reflexivity|]. split; [exact Hid|].
    split; [|reflexivity]. cbn [Event_start_time Event_end_time].
    unfold instant at 1 3. cbn [dt_tzinfo wall].
    now apply (validate_window raw ev).
  - left. now apply reads_keep_store.
  - cbn [Router.handle].
    destruct (Router.register_for_event id att db) as [db' r] eqn:Er.
    apply register_for_event_effect in Er
      as [[-> _]|(e & a & Hid & He & Hroom & Hnew & Habove & -> & _)];
      [now left|].
    right. right. exists e, a. subst id. now repeat split.
  - left. now apply reads_keep_store.
Qed.

Lemma handle_consistent req db :
  consistent db -> consistent (fst (Router.handle req db)).
Proof.
  intros Hc.
  destruct (handle_change req db)
    as [->|[(e & _ & Hid & Hmax & Hwin & ->)|(e & a & He & Hroom & _ & _ & ->)]].
  - exact Hc.
  - now apply consistent_after_event.
  - now apply (consistent_after_attendee db a e).
Qed.

Lemma handle_count req db event_id :
  Sql.count_attendees (fst (Router.handle req db)) event_id
  = Sql.count_attendees db event_id
    + Z.of_nat (registered event_id [req] [snd (Router.handle req db)]).
Proof.
  destruct req as [raw|now skip limit tz|id att|id p s];
    cbn [Router.handle registered].
  - destruct (create_event_cases raw db) as [[-> _]|(ev & _ & _ & _ & Hrun)].
    + cbn [fst]. lia.
    + cbv zeta in Hrun. rewrite Hrun. cbn [fst].
      unfold Sql.count_attendees; cbn [attendees]; lia.
  - pose proof (reads_keep_store (Router.GET_events now skip limit tz) db I)
      as Hst. cbn [Router.handle] in Hst. rewrite Hst. lia.
  - destruct (Router.register_for_event id att db) as [db' r] eqn:Er.
    cbn [fst snd].
    apply register_for_event_effect in Er
      as [[-> Hr]|(e & a & Hid & _ & _ & _ & _ & -> & ->)].
    + destruct (Z.eqb_spec (status_code r) HTTP_201_CREATED); [contradiction|].
      rewrite andb_false_r. cbn. lia.
    + rewrite count_after_insert, db_eta, Hid. cbn [status_code].
      rewrite Z.eqb_refl, andb_true_r.
      destruct (id =? event_id); cbn; lia.
  - pose proof (reads_keep_store (Router.GET_attendees id p s) db I) as Hst.
    cbn [Router.handle] in Hst. rewrite Hst. lia.
Qed.

Lemma registered_cons event_id req r reqs resps :
  registered event_id (req :: reqs) (r :: resps)
  = (registered event_id [req] [r] + registered event_id reqs resps)%nat.
Proof.
  cbn [registered]. destruct req; try reflexivity.
  destruct (_ && _); reflexivity.
Qed.

Lemma serve_cons req reqs db :
  Router.serve (req :: reqs) db
  = (fst (Router.serve reqs (fst (Router.handle req db))),
     snd (Router.handle req db)
     :: snd (Router.serve reqs (fst (Router.handle req db)))).
Proof.
  cbn [Router.serve]. destruct (Router.handle req db) as [db1 r].
  cbn [fst snd]. now destruct (Router.serve reqs db1).
Qed.

Lemma serve_keeps (P : DB -> Prop) :
  (forall req d, P d -> P (fst (Router.handle req d))) ->
  forall reqs db, P db -> P (fst (Router.serve reqs db)).
Proof.
  intros Hstep reqs. induction reqs as [|req reqs IH]; intros db Hdb.
  - exact Hdb.
  - rewrite serve_cons. cbn [fst]. apply IH, Hstep, Hdb.
Qed.

Lemma serve_consistent reqs db db' resps :
  consistent db -> Router.serve reqs db = (db', resps) -> consistent db'.
Proof.
  intros Hc Hrun.
  change db' with (fst (db', resps)). rewrite <- Hrun.
  apply serve_keeps; [|exact Hc]. intros req d. apply handle_consistent.
Qed.

Lemma serve_count reqs db db' resps event_id :
  Router.serve reqs db = (db', resps) ->
  Sql.count_attendees db' event_id
  = Sql.count_attendees db event_id
    + Z.of_nat (registered event_id reqs resps).
Proof.
  revert db db' resps. induction reqs as [|req reqs IH]; intros db db' resps.
  - intros [= <- <-]. cbn. lia.
  - rewrite serve_cons. intros [= <- <-]. rewrite registered_cons.
    rewrite (IH _ _ _ (surjective_pairing _)).
    rewrite (handle_count req db event_id). lia.
Qed.

End Serving.

(* ================================================================== *)
(** * Capacity and the time window *)
(* ================================================================== *)

Section Claims.
Context `{PythonRuntime}.

(** C4.  Take any run of requests served one after the other from
    the empty store, and an event of the resulting store whose
    [max_capacity] is [N].  Its attendee count is the number of
    registrations for it that succeeded, that number is at most [N],
    and once it is [N] every further registration for the event
    fails with the full-capacity error. *)
Theorem capacity_is_never_exceeded reqs db resps e (N : nat) :
  Router.serve reqs empty_db = (db, resps) ->
  In e (events db) ->
  Event_max_capacity e = Z.of_nat N ->
  Sql.count_attendees db (Event_id e)
  = Z.of_nat (registered (Event_id e) reqs resps)
  /\ (registered (Event_id e) reqs resps <= N)%nat
  /\ (registered (Event_id e) reqs resps = N ->
      forall data,
        AttendeeService.register_attendee sequential (Event_id e) data db
        = (db, Raise full_capacity)
        /\ error_kind full_capacity = CapacityExceeded).
Proof.
  intros Hrun Hin Hcap.
  pose proof (serve_consistent _ _ _ _ consistent_empty Hrun)
    as [Hk Hi _ Hc _].
  pose proof (serve_count _ _ _ _ (Event_id e) Hrun) as Hcount.
  change (Sql.count_attendees empty_db (Event_id e)) with 0 in Hcount.
  specialize (Hc e Hin). rewrite Hcap in Hc.
  split; [lia|]. split; [lia|].
  intros Hfull data. split; [|reflexivity].
  assert (Hid : int64 (Event_id e)) by (specialize (Hi e Hin); int64_lia).
  rewrite register_alone, (select_event_unique db e Hk Hin Hid).
  destruct (Z.geb_spec (Sql.count_attendees db (Event_id e))
                       (Event_max_capacity e)); [reflexivity|lia].
Qed.

(** C7.  An event-creation body whose [start_time] and [end_time]
    are timezone-aware and whose end is not after its start fails
    validation with the error of [end_time_must_be_after_start_time];
    the request is answered 422 and the store is left as it was.
    And in every store reached by serving requests from the empty
    one, each event ends after it starts. *)
Theorem end_not_after_start_is_rejected raw vs ve s e db :
  raw_start_time raw = Some vs ->
  raw_end_time raw = Some ve ->
  raw_datetime vs = Some s ->
  raw_datetime ve = Some e ->
  aware s -> aware e ->
  instant e <= instant s ->
  (exists errors,
      EventBase.validate raw = Raise (ValidationError errors)
      /\ In ("end_time", "End time must be after start time") errors
      /\ Router.create_event raw db
         = (db, mkResponse HTTP_422_UNPROCESSABLE_ENTITY
                           (ValidationBody errors)))
  /\ (forall reqs db' resps,
        Router.serve reqs empty_db = (db', resps) ->
        forall ev, In ev (events db') ->
                   instant (Event_start_time ev) < instant (Event_end_time ev)).
Proof.
  intros Hvs Hve Hs He Has Hae Hle. split.
  - assert (Hv : exists errors,
               EventBase.validate raw = Raise (ValidationError errors)
               /\ In ("end_time", "End time must be after start time") errors).
    { unfold EventBase.validate.
      destruct (Pydantic.validate_str "name" _) as [name e1].
      destruct (Pydantic.validate_str "location" _) as [location e2].
      rewrite Hvs, Hve. unfold EventBase.validate_start_time,
        EventBase.validate_end_time.
      rewrite (ensure_of_aware _ _ Hs Has), (ensure_of_aware _ _ He Hae).
      cbn [Pydantic.apply_validators bindR].
      unfold EventBase.end_time_must_be_after_start_time, Datetime.le.
      unfold aware in Has, Hae.
      destruct (dt_tzinfo e) eqn:Ee; [|congruence].
      destruct (dt_tzinfo s) eqn:Es; [|congruence].
      cbn [bindR]. destruct (Z.leb_spec (instant e) (instant s)); [|lia].
      cbn [Pydantic.apply_validators].
      destruct (Pydantic.validate_int _ _) as [cap e5].
      cbn [bindR].
      match goal with
      | |- context [match ?l with nil => _ | cons _ _ => _ end] =>
          assert (Hin : In ("end_time", "End time must be after start time") l)
            by (repeat rewrite in_app_iff; cbn [In]; tauto);
          destruct l as [|x l']; [destruct Hin|]
      end.
      eexists. split; [reflexivity|exact Hin]. }
    destruct Hv as (errors & Hv & Hin). exists errors.
    split; [exact Hv|]. split; [exact Hin|].
    unfold Router.create_event. now rewrite Hv.
  - intros reqs db' resps Hrun.
    now destruct (serve_consistent _ _ _ _ consistent_empty Hrun).
Qed.

End Claims.

(* ================================================================== *)
(** * Naive timestamps and the assumed zone *)
(* ================================================================== *)

Lemma candidate_settled z ist T0 d delta :
  (forall t, T0 <= t -> info_at z t = ist) ->
  0 <= T0 -> - DAY <= ti_utcoffset ist <= DAY ->
  settled T0 (wall d) -> delta = DAY \/ delta = - DAY ->
  localize_candidate z d delta
  = Return [mkDatetime (wall d) (Some (pytz_tzinfo (zone_name z) ist))].
Proof.
  intros Hist HT0 Hoff [Hlo Hhi] Hdelta.
  unfold localize_candidate, normalize, fromutc, add_timedelta, bindR.
  rewrite in_range_true by clock_lia. cbn [wall replace_tzinfo dt_tzinfo].
  rewrite Hist by clock_lia.
  rewrite in_range_true by clock_lia. cbn [wall replace_tzinfo dt_tzinfo].
  rewrite Hist by clock_lia.
  replace (wall d + - ti_utcoffset ist + ti_utcoffset ist) with (wall d) by lia.
  rewrite in_range_true by clock_lia. cbn [wall replace_tzinfo dt_tzinfo].
  now rewrite Z.eqb_refl.
Qed.

Lemma localize_settled z ist T0 d :
  (forall t, T0 <= t -> info_at z t = ist) ->
  0 <= T0 -> - DAY <= ti_utcoffset ist <= DAY ->
  dt_tzinfo d = None -> settled T0 (wall d) ->
  localize_steps z d
  = Return (mkDatetime (wall d) (Some (pytz_tzinfo (zone_name z) ist))).
Proof.
  intros Hist HT0 Hoff Hnaive Hset.
  unfold localize_steps, RECURSION_LIMIT. cbn [localize_from]. rewrite Hnaive.
  rewrite (candidate_settled z ist T0 d (- DAY)) by auto.
  rewrite (candidate_settled z ist T0 d DAY) by auto.
  cbn [bindR app fold_left]. unfold set_add at 2. cbn [existsb app].
  unfold set_add. cbn [existsb]. unfold datetime_eqb at 1.
  cbn [wall dt_tzinfo tzinfo_is].
  now rewrite Z.eqb_refl, String.eqb_refl, info_eqb_refl.
Qed.

Section Claims_on_zones.
Context `{PythonRuntime}.

Lemma ensure_under_assumed_zone z ist T0 v d :
  pytz_timezone "Asia/Kolkata" = Some z ->
  (forall t, T0 <= t -> info_at z t = ist) ->
  0 <= T0 -> - DAY <= ti_utcoffset ist <= DAY ->
  raw_datetime v = Some d ->
  (dt_tzinfo d = None -> settled T0 (wall d)) ->
  EventBase.ensure_timezone_awareness v
  = Return (under_assumed_zone (pytz_tzinfo (zone_name z) ist) d).
Proof.
  intros Hz Hist HT0 Hoff Hv Hset.
  unfold under_assumed_zone. destruct (dt_tzinfo d) eqn:Etz.
  - apply ensure_of_aware; [exact Hv|]. unfold aware. congruence.
  - unfold EventBase.ensure_timezone_awareness, timezone_or_raise, bindR.
    replace (match v with RawStr s => _ | RawDatetime d0 => _ | RawOther => _ end)
      with (Return d).
    + rewrite Etz, Hz. apply localize_of_steps.
      apply (localize_settled z ist T0); auto.
    + unfold raw_datetime in Hv.
      destruct v as [s|d0|]; [|congruence|discriminate].
      destruct (fromisoformat s); congruence.
Qed.

(** C1, as the code has it.  A [start_time] or [end_time] without
    timezone information is not rejected: the validator reads it in
    [Asia/Kolkata], keeping the wall clock reading and attaching the
    offset of the zone.  With the zone at a single offset from [T0]
    on, this is so for every naive reading from a day after [T0] to a
    day before the end of the year 9999: a body whose times are such
    readings, or carry an offset of their own, and whose end is after
    its start once the naive ones are read in the zone, is valid as
    long as its other fields are, and validation returns it with its
    naive times read in the zone. *)
Theorem naive_timestamps_are_read_in_kolkata
        z ist T0 name location cap vs ve s e :
  pytz_timezone "Asia/Kolkata" = Some z ->
  (forall t, T0 <= t -> info_at z t = ist) ->
  0 <= T0 -> - DAY <= ti_utcoffset ist <= DAY ->
  raw_datetime vs = Some s ->
  raw_datetime ve = Some e ->
  (dt_tzinfo s = None -> settled T0 (wall s)) ->
  (dt_tzinfo e = None -> settled T0 (wall e)) ->
  let assumed := under_assumed_zone (pytz_tzinfo (zone_name z) ist) in
  instant (assumed s) < instant (assumed e) ->
  EventBase.validate
    (mkRawEvent (Given name) (Given location) (Some vs) (Some ve) (Given cap))
  = Return (mkEventCreate name location (assumed s) (assumed e) cap).
Proof.
  intros Hz Hist HT0 Hoff Hs He Hss Hse assumed Hlt.
  apply validate_given; [| |exact Hlt].
  - now apply (ensure_under_assumed_zone z ist T0).
  - now apply (ensure_under_assumed_zone z ist T0).
Qed.

(** The row [create_event] writes does not depend on the capacity of
    the body, as long as the store takes the capacity. *)
Lemma create_event_with_capacity ev n db db' row :
  EventService.create_event ev db = (db', Return row) ->
  EventService.create_event
    (mkEventCreate (EventCreate_name ev) (EventCreate_location ev)
       (EventCreate_start_time ev) (EventCreate_end_time ev) n) db
  = match Sql.bind n with
    | Return _ =>
        let row' := mkEvent (Event_id row) (Event_name row)
                      (Event_location row) (Event_start_time row)
                      (Event_end_time row) n in
        (mkDB (events db ++ [row']) (attendees db), Return row')
    | Raise x => (db, Raise x)
    end.
Proof.
  unfold EventService.create_event.
  cbn [EventCreate_name EventCreate_location EventCreate_start_time
       EventCreate_end_time EventCreate_max_capacity].
  destruct (astimezone (EventCreate_start_time ev) utc) as [s|]; [|discriminate].
  destruct (astimezone (EventCreate_end_time ev) utc) as [t|]; [|discriminate].
  unfold Sql.insert_event.
  destruct (Sql.bind (EventCreate_max_capacity ev)) as [cap|]; [|discriminate].
  destruct (Sql.INT64_MAX <? Sql.next_id (map Event_id (events db))) eqn:Efull;
    [discriminate|].
  intros [= <- <-]. destruct (Sql.bind n) as [m|x] eqn:En; [|reflexivity].
  apply bind_return in En as [-> _]. reflexivity.
Qed.

(** C2, as the code has it.  [max_capacity] is validated as an
    integer and nothing more.  Whenever a body is accepted and its
    event created, the same body with a [max_capacity] that is zero
    or negative is accepted too, down to the least integer of the
    store: the request is answered 201 and its event is written with
    that [max_capacity].  Below that integer the body is still valid;
    it is the insert that raises, and the request is answered 500 with
    nothing written. *)
Theorem non_positive_capacity_is_accepted raw n db db' r :
  Router.create_event raw db
  = (db', mkResponse HTTP_201_CREATED (EventBody r)) ->
  n <= 0 ->
  (- 2 ^ 63 <= n ->
   exists row r',
     Router.create_event (with_max_capacity n raw) db
     = (mkDB (events db ++ [row]) (attendees db),
        mkResponse HTTP_201_CREATED (EventBody r'))
     /\ Event_max_capacity row = n
     /\ EventCreate_max_capacity (EventResponse_event r') = n
     /\ EventResponse_id r' = Event_id row)
  /\ (n < - 2 ^ 63 ->
      (exists ev, EventBase.validate (with_max_capacity n raw) = Return ev)
      /\ Router.create_event (with_max_capacity n raw) db
         = (db, internal_server_error)).
Proof.
  intros Hok Hn.
  assert (Hshape : exists ev row,
             EventBase.validate raw = Return ev
             /\ EventService.create_event ev db = (db', Return row)
             /\ Router.response_model row = Return r).
  { unfold Router.create_event in Hok.
    destruct (EventBase.validate raw) as [ev|err] eqn:Ev.
    - unfold respond, bindS in Hok.
      destruct (EventService.create_event ev db) as [db1 [row|x]] eqn:Ec;
        [|destruct x; discriminate].
      destruct (Router.response_model row) as [r1|x] eqn:Er;
        [|destruct x; discriminate].
      injection Hok as <- <-. now exists ev, row.
    - destruct err; discriminate. }
  destruct Hshape as (ev & row & Hv & Hc & Hr).
  pose proof (validate_any_capacity raw ev n Hv) as Hvn.
  pose proof (create_event_with_capacity ev n db db' row Hc) as Hcn.
  destruct row as [id name location s e cap].
  cbn [Event_id Event_name Event_location Event_start_time Event_end_time]
    in Hcn.
  split.
  - intros Hmin. assert (Hint : int64 n) by int64_lia.
    rewrite (bind_int64 _ Hint) in Hcn. cbv zeta in Hcn.
    pose proof (response_model_any_capacity _ _ _ _ _ _ n _ Hr) as Hrn.
    eexists _, _. split.
    + unfold Router.create_event. rewrite Hvn. unfold respond, bindS.
      rewrite Hcn, Hrn. reflexivity.
    + now repeat split.
  - intros Hmin. split; [eexists; exact Hvn|].
    assert (Hint : ~ int64 n) by int64_lia.
    rewrite (bind_overflow _ Hint) in Hcn.
    unfold Router.create_event. rewrite Hvn. unfold respond, bindS.
    now rewrite Hcn.
Qed.



End Claims_on_zones.

(* ================================================================== *)
(** * Runs on the sample requests *)
(* ================================================================== *)

Lemma kolkata_settled t :
  Sample.kolkata_T0 <= t -> info_at CPython.Asia_Kolkata t = CPython.IST.
Proof.
  intros Ht. unfold info_at. cbn [CPython.Asia_Kolkata zone_first
    zone_transitions info_scan].
  unfold Sample.kolkata_T0, CPython.from_unix, SECOND in *.
  repeat match goal with
         | |- context [?a <=? t] => destruct (Z.leb_spec a t); [|lia]
         end.
  reflexivity.
Qed.

(** C1 fails on [naive_meetup]: its two times carry no timezone
    information, yet validation returns the event with both read in
    [Asia/Kolkata], and the request is answered 201. *)
Lemma naive_timestamps_are_not_rejected :
  raw_datetime (H := CPython.runtime) (RawStr "2030-01-01T10:00:00")
  = Some (mkDatetime 64029088800000000 None)
  /\ raw_datetime (H := CPython.runtime) (RawStr "2030-01-01T13:00:00")
     = Some (mkDatetime 64029099600000000 None)
  /\ EventBase.validate (H := CPython.runtime) Sample.naive_meetup
     = Return (mkEventCreate "Community Meetup" "Local Hall"
                 (mkDatetime 64029088800000000
                    (Some (pytz_tzinfo "Asia/Kolkata" CPython.IST)))
                 (mkDatetime 64029099600000000
                    (Some (pytz_tzinfo "Asia/Kolkata" CPython.IST)))
                 2)
  /\ status_code
       (snd (Router.create_event (H := CPython.runtime)
               Sample.naive_meetup empty_db))
     = HTTP_201_CREATED.
Proof. repeat split; vm_compute; reflexivity. Qed.

Lemma naive_timestamps_are_read_in_kolkata_run :
  EventBase.validate (H := CPython.runtime) Sample.naive_meetup
  = Return (mkEventCreate "Community Meetup" "Local Hall"
              (mkDatetime 64029088800000000
                 (Some (pytz_tzinfo "Asia/Kolkata" CPython.IST)))
              (mkDatetime 64029099600000000
                 (Some (pytz_tzinfo "Asia/Kolkata" CPython.IST)))
              2).
Proof.
  apply (naive_timestamps_are_read_in_kolkata (H := CPython.runtime)
           CPython.Asia_Kolkata CPython.IST Sample.kolkata_T0
           "Community Meetup" "Local Hall" 2
           (RawStr "2030-01-01T10:00:00") (RawStr "2030-01-01T13:00:00")
           (mkDatetime 64029088800000000 None)
           (mkDatetime 64029099600000000 None)).
  - reflexivity.
  - exact kolkata_settled.
  - vm_compute. discriminate.
  - split; vm_compute; discriminate.
  - vm_compute. reflexivity.
  - vm_compute. reflexivity.
  - intros _. split; vm_compute; [discriminate|reflexivity].
  - intros _. split; vm_compute; [discriminate|reflexivity].
  - vm_compute. reflexivity.
Defined.

(** C2 fails on the meetup with [max_capacity] 0: the request is
    answered 201 and the event is in the store, with capacity 0. *)
Lemma zero_capacity_event_is_created :
  exists db r e,
    Router.create_event (H := CPython.runtime)
      (with_max_capacity 0 Sample.meetup) empty_db
    = (db, mkResponse HTTP_201_CREATED (EventBody r))
    /\ In e (events db)
    /\ Event_max_capacity e = 0.
Proof.
  eexists _, _, _. split; [vm_compute; reflexivity|].
  split; [left|]; reflexivity.
Qed.

Lemma non_positive_capacity_is_accepted_run :
  (- 2 ^ 63 <= -5 ->
   exists row r',
     Router.create_event (H := CPython.runtime)
       (with_max_capacity (-5) Sample.meetup) empty_db
     = (mkDB (events empty_db ++ [row]) (attendees empty_db),
        mkResponse HTTP_201_CREATED (EventBody r'))
     /\ Event_max_capacity row = -5
     /\ EventCreate_max_capacity (EventResponse_event r') = -5
     /\ EventResponse_id r' = Event_id row)
  /\ (-5 < - 2 ^ 63 ->
      (exists ev,
          EventBase.validate (H := CPython.runtime)
            (with_max_capacity (-5) Sample.meetup) = Return ev)
      /\ Router.create_event (H := CPython.runtime)
           (with_max_capacity (-5) Sample.meetup) empty_db
         = (empty_db, internal_server_error)).
Proof.
  eapply (non_positive_capacity_is_accepted (H := CPython.runtime)
            Sample.meetup (-5) empty_db).
  - vm_compute. reflexivity.
  - lia.
Defined.

(** C3 fails on the meetup when the same email is registered by
    another request between the duplicate check and the commit: the
    registration raises the [IntegrityError] of the store, whose kind
    is a storage fault and not a duplicate registration. *)
Lemma racing_duplicate_is_a_storage_fault :
  snd (AttendeeService.register_attendee Sample.racing_registration 1
         Sample.john Sample.meetup_open)
  = Raise (IntegrityError "_email_event_uc")
  /\ error_kind (IntegrityError "_email_event_uc") = StorageFailure
  /\ error_kind (IntegrityError "_email_event_uc") <> DuplicateRegistration.
Proof.
  split; [vm_compute; reflexivity|]. split; [reflexivity|discriminate].
Qed.

Lemma unique_violation_is_not_translated_run :
  AttendeeService.register_attendee Sample.racing_registration 1
    Sample.john Sample.meetup_open
  = (store_at Sample.racing_registration 3 Sample.meetup_open,
     Raise (IntegrityError "_email_event_uc"))
  /\ error_kind (IntegrityError "_email_event_uc") = StorageFailure
  /\ exception_response (IntegrityError "_email_event_uc")
     = mkResponse HTTP_500_INTERNAL_SERVER_ERROR InternalServerError.
Proof.
  apply (unique_violation_is_not_translated Sample.racing_registration
           Sample.meetup_open 1 Sample.meetup_row Sample.john
           (mkAttendee 1 "Another Name" "john.doe@example.com" 1)).
  - vm_compute. reflexivity.
  - vm_compute. reflexivity.
  - vm_compute. reflexivity.
  - vm_compute. reflexivity.
Defined.

Lemma capacity_is_never_exceeded_run :
  Sql.count_attendees Sample.meetup_full (Event_id Sample.meetup_row)
  = Z.of_nat (registered (Event_id Sample.meetup_row) Sample.meetup_run
                (snd (Sample.served Sample.meetup_run)))
  /\ (registered (Event_id Sample.meetup_row) Sample.meetup_run
        (snd (Sample.served Sample.meetup_run)) <= 2)%nat
  /\ (registered (Event_id Sample.meetup_row) Sample.meetup_run
        (snd (Sample.served Sample.meetup_run)) = 2%nat ->
      forall data,
        AttendeeService.register_attendee sequential
          (Event_id Sample.meetup_row) data Sample.meetup_full
        = (Sample.meetup_full, Raise full_capacity)
        /\ error_kind full_capacity = CapacityExceeded).
Proof.
  apply (capacity_is_never_exceeded (H := CPython.runtime)
           Sample.meetup_run Sample.meetup_full
           (snd (Sample.served Sample.meetup_run)) Sample.meetup_row 2).
  - vm_compute. reflexivity.
  - vm_compute. left. reflexivity.
  - reflexivity.
Defined.

(** C5 fails on the workshop, which has one place: the first
    registration takes it, and the second attempt with the same email
    fails with the full-capacity error, not the duplicate one. *)
Lemma second_attempt_on_last_place_is_full :
  exists db1 a,
    Sql.select_event Sample.workshop_open 1
    = Return (Some Scenario.workshop_row)
    /\ AttendeeService.register_attendee sequential 1 Sample.john
         Sample.workshop_open
       = (db1, Return a)
    /\ AttendeeService.register_attendee sequential 1 Sample.john db1
       = (db1, Raise full_capacity)
    /\ full_capacity <> already_registered
    /\ error_kind full_capacity = CapacityExceeded.
Proof.
  eexists _, _. split; [vm_compute; reflexivity|].
  split; [vm_compute; reflexivity|].
  split; [vm_compute; reflexivity|].
  split; [discriminate|reflexivity].
Qed.

Lemma register_twice_is_duplicate_run :
  exists db1 a,
    AttendeeService.register_attendee sequential 1 Sample.john
      Sample.meetup_open
    = (db1, Return a)
    /\ Attendee_email a = AttendeeCreate_email Sample.john
    /\ Attendee_event_id a = 1
    /\ AttendeeService.register_attendee sequential 1 Sample.johnny db1
       = (db1, Raise already_registered)
    /\ error_kind already_registered = DuplicateRegistration.
Proof.
  apply (register_twice_is_duplicate Sample.meetup_open 1 Sample.meetup_row
           Sample.john Sample.johnny).
  - vm_compute. reflexivity.
  - vm_compute. discriminate.
  - vm_compute. reflexivity.
  - reflexivity.
Defined.

(** C6 fails beyond the integers of the store: on the meetup with
    its two attendees, whose pages of one number two, the page
    [2^63 + 1], far beyond the last, is answered with
    [OverflowError] and not with an empty list; and with a page size
    of [2^63] so is the first page. *)
Lemma far_pages_raise_overflow :
  Sql.select_event Sample.meetup_full 1 = Return (Some Sample.meetup_row)
  /\ List.length (attendees_of Sample.meetup_full 1) = 2%nat
  /\ 2 < Scenario.far_page
  /\ AttendeeService.get_attendees_for_event sequential 1 Scenario.far_page 1
       Sample.meetup_full
     = (Sample.meetup_full, Raise OverflowError)
  /\ AttendeeService.get_attendees_for_event sequential 1 1 (2 ^ 63)
       Sample.meetup_full
     = (Sample.meetup_full, Raise OverflowError)
  /\ snd (Router.get_event_attendees 1 Scenario.far_page 1 Sample.meetup_full)
     = internal_server_error.
Proof. repeat split; vm_compute; reflexivity. Qed.

Lemma list_attendees_pages_run :
  exists answers rows,
    Forall2 (fun p r =>
               AttendeeService.get_attendees_for_event sequential 1 p 1
                 Sample.meetup_full
               = (Sample.meetup_full, Return r))
            (page_numbers 2) answers
    /\ List.concat (map items answers) = rows
    /\ Permutation (attendees_of Sample.meetup_full 1) rows
    /\ ascending_ids rows.
Proof.
  exact (proj1 (proj2 (proj2
           (list_attendees_pages Sample.meetup_full 1 Sample.meetup_row 1
              ltac:(vm_compute; reflexivity)
              ltac:(split; vm_compute; discriminate)
              ltac:(vm_compute; discriminate))))).
Defined.

Lemma end_not_after_start_is_rejected_run :
  exists errors,
    EventBase.validate (H := CPython.runtime) Sample.backwards
    = Raise (ValidationError errors)
    /\ In ("end_time", "End time must be after start time") errors
    /\ Router.create_event (H := CPython.runtime) Sample.backwards empty_db
       = (empty_db,
          mkResponse HTTP_422_UNPROCESSABLE_ENTITY (ValidationBody errors)).
Proof.
  eapply proj1.
  apply (end_not_after_start_is_rejected (H := CPython.runtime)
           Sample.backwards
           (RawStr "2030-01-01T10:00:00+00:00")
           (RawStr "2030-01-01T12:00:00+05:30")
           (mkDatetime 64029088800000000 (Some (timezone 0)))
           (mkDatetime 64029096000000000 (Some (timezone 19800000000)))
           empty_db).
  - reflexivity.
  - reflexivity.
  - vm_compute. reflexivity.
  - vm_compute. reflexivity.
  - discriminate.
  - discriminate.
  - vm_compute. discriminate.
Defined.

Lemma list_attendees_clamps_page_and_size_run :
  AttendeeService.get_attendees_for_event sequential 1 0 (-3)
    Sample.meetup_full
  = AttendeeService.get_attendees_for_event sequential 1 1 (-3)
      Sample.meetup_full
  /\ AttendeeService.get_attendees_for_event sequential 1 1 (-3)
       Sample.meetup_full
     = AttendeeService.get_attendees_for_event sequential 1 1 10
         Sample.meetup_full
  /\ exists r,
       AttendeeService.get_attendees_for_event sequential 1 0 (-3)
         Sample.meetup_full
       = (store_at sequential 2 Sample.meetup_full, Return r).
Proof.
  split; [|split].
  - apply (proj1 (list_attendees_clamps_page_and_size sequential
                    Sample.meetup_full 1 0 (-3))). lia.
  - apply (proj1 (proj2 (list_attendees_clamps_page_and_size sequential
                           Sample.meetup_full 1 1 (-3)))). lia.
  - apply (proj2 (proj2 (proj2 (list_attendees_clamps_page_and_size sequential
                                  Sample.meetup_full 1 0 (-3))))
             Sample.meetup_row).
    + vm_compute. reflexivity.
    + split; vm_compute; discriminate.
    + split; vm_compute; discriminate.
Defined.


Lemma ended_event_still_takes_registrations_run :
  (exists db' a,
      AttendeeService.register_attendee sequential 1 Sample.john
        Sample.meetup_open
      = (db', Return a)
      /\ In a (attendees db')
      /\ Attendee_event_id a = 1
      /\ Attendee_email a = AttendeeCreate_email Sample.john)
  /\ (forall skip limit,
        (forall db' listed,
            EventService.get_events Sample.a_year_later skip limit
              Sample.meetup_open
            = (db', Return listed) ->
            ~ In Sample.meetup_row listed)
        /\ (int64 skip -> int64 limit ->
            exists listed,
              EventService.get_events Sample.a_year_later skip limit
                Sample.meetup_open
              = (Sample.meetup_open, Return listed))).
Proof.
  apply (ended_event_still_takes_registrations Sample.meetup_open 1
           Sample.meetup_row Sample.john Sample.a_year_later).
  - vm_compute. reflexivity.
  - vm_compute. discriminate.
  - vm_compute. reflexivity.
  - vm_compute. reflexivity.
Defined.


(* ================================================================== *)
(** * Further properties: pages over HTTP *)
(* ================================================================== *)

(** X5.  Over HTTP the paging parameters are never clamped.  [GET
    /events/{id}/attendees] leaves the store alone; with [page < 1],
    [size < 1] or [size > 100] it answers 422 without asking the
    service.  Otherwise it answers 500 for an id that is no integer
    of the store, 404 for an id no event has, and for an existing
    event 200 with the requested [page] and [size], the number of its
    attendees as [total] and at most [size] items, unless the offset
    [(page - 1) * size] is beyond the integers of the store, which is
    answered 500. *)
Theorem get_event_attendees_answers event_id p s db :
  let answer := Router.get_event_attendees event_id p s db in
  fst answer = db
  /\ (p < 1 \/ s < 1 \/ 100 < s ->
      status_code (snd answer) = HTTP_422_UNPROCESSABLE_ENTITY)
  /\ (1 <= p -> 1 <= s <= 100 ->
      (~ int64 event_id -> snd answer = internal_server_error)
      /\ (int64 event_id ->
          (forall e, In e (events db) -> Event_id e <> event_id) ->
          snd answer
          = mkResponse HTTP_404_NOT_FOUND (DetailBody "Event not found"))
      /\ (forall e,
            Sql.select_event db event_id = Return (Some e) ->
            ((p - 1) * s <= 2 ^ 63 - 1 ->
             exists r,
               snd answer = mkResponse HTTP_200_OK (PageBody r)
               /\ page r = p /\ size r = s
               /\ total r = Z.of_nat (List.length (attendees_of db event_id))
               /\ Z.of_nat (List.length (items r)) <= s)
            /\ (2 ^ 63 - 1 < (p - 1) * s ->
                snd answer = internal_server_error))).
Proof.
  intros answer. subst answer. unfold Router.get_event_attendees.
  destruct (Z.ltb_spec p 1);
    [cbn [fst snd]; repeat split; intros; lia || reflexivity|].
  destruct (Z.ltb_spec s 1);
    [cbn [fst snd]; repeat split; intros; lia || reflexivity|].
  destruct (Z.ltb_spec 100 s);
    [cbn [fst snd]; repeat split; intros; lia || reflexivity|].
  split; [|split; [intros; lia|]].
  - unfold respond.
    pose proof (get_attendees_store sequential event_id p s db
                  (fun _ _ => eq_refl)) as Hst.
    destruct (AttendeeService.get_attendees_for_event _ _ _ _ _) as [d []];
      exact Hst.
  - intros _ _. unfold respond. split; [|split].
    + intros Hid. rewrite get_attendees_among.
      now rewrite (select_event_overflow _ _ Hid).
    + intros Hid Hnone. rewrite get_attendees_among.
      rewrite (select_event_int64 _ _ Hid).
      destruct (find _ (events db)) as [e|] eqn:Ef; [|reflexivity].
      apply find_some in Ef as [Hin Heq]. apply Z.eqb_eq in Heq.
      now elim (Hnone e Hin).
    + intros e He. assert (Hoff : 0 <= (p - 1) * s) by nia. split.
      * intros Ho.
        rewrite (get_attendees_run db event_id e p s He) by (lia || int64_lia).
        eexists. split; [reflexivity|]. cbn [page size total items].
        repeat split. unfold slice.
        pose proof (firstn_le_length (Z.to_nat s)
                      (skipn (Z.to_nat ((p - 1) * s))
                         (Sql.order_by_id (attendees_of db event_id)))). lia.
      * intros Ho.
        rewrite (get_attendees_overflow db event_id e p s He); [reflexivity| | |];
          try lia.
        intros [Hint _]. int64_lia.
Qed.

(* ================================================================== *)
(** * Further properties: events *)
(* ================================================================== *)

Section Events.
Context `{PythonRuntime}.

(** X6.  [create_event] normalises to UTC.  For aware times whose
    instants are representable, a capacity that is an integer of the
    store and a table with a key left, it appends one row and returns
    it: the row has an id above every id of the table, the name,
    location and capacity of the request, and as its times the
    readings of the UTC wall clock at the instants of the request,
    kept without [tzinfo].  And whenever [create_event] raises, the
    store is what it was. *)
Theorem create_event_normalises_to_utc event_data db :
  aware (EventCreate_start_time event_data) ->
  aware (EventCreate_end_time event_data) ->
  in_range (instant (EventCreate_start_time event_data)) = true ->
  in_range (instant (EventCreate_end_time event_data)) = true ->
  int64 (EventCreate_max_capacity event_data) ->
  Sql.next_id (map Event_id (events db)) <= 2 ^ 63 - 1 ->
  (exists e,
      EventService.create_event event_data db
      = (mkDB (events db ++ [e]) (attendees db), Return e)
      /\ Event_name e = EventCreate_name event_data
      /\ Event_location e = EventCreate_location event_data
      /\ Event_max_capacity e = EventCreate_max_capacity event_data
      /\ Event_start_time e
         = mkDatetime (instant (EventCreate_start_time event_data)) None
      /\ Event_end_time e
         = mkDatetime (instant (EventCreate_end_time event_data)) None
      /\ (forall b, In b (events db) -> Event_id b < Event_id e))
  /\ (forall any db' x,
        EventService.create_event any db = (db', Raise x) -> db' = db).
Proof.
  intros Has Hae Hrs Hre Hcap Hid. split.
  - unfold EventService.create_event.
    rewrite (astimezone_utc_returns _ Has Hrs),
      (astimezone_utc_returns _ Hae Hre).
    unfold Sql.insert_event. rewrite (bind_int64 _ Hcap).
    destruct (Z.ltb_spec Sql.INT64_MAX
                (Sql.next_id (map Event_id (events db)))); [int64_lia|].
    eexists. split; [reflexivity|].
    cbn [Event_name Event_location Event_max_capacity Event_start_time
         Event_end_time Event_id].
    repeat (split; [reflexivity|]).
    intros b Hb. apply next_id_above. now apply in_map.
  - intros any db' x. unfold EventService.create_event.
    destruct (astimezone (EventCreate_start_time any) utc);
      [|now intros [= <- _]].
    destruct (astimezone (EventCreate_end_time any) utc);
      [|now intros [= <- _]].
    unfold Sql.insert_event. destruct (Sql.bind _); [|now intros [= <- _]].
    destruct (_ <? _); [now intros [= <- _]|discriminate].
Qed.

(** X7.  An event just created is found by its id, it was not there
    before, and every other id finds what it found before. *)
Theorem created_event_is_found event_data db db' e :
  EventService.create_event event_data db = (db', Return e) ->
  Sql.select_event db (Event_id e) = Return None
  /\ EventService.get_event_by_id (Event_id e) db' = (db', Return (Some e))
  /\ (forall event_id,
        event_id <> Event_id e ->
        EventService.get_event_by_id event_id db'
        = (db', Sql.select_event db event_id)).
Proof.
  unfold EventService.create_event.
  destruct (astimezone (EventCreate_start_time event_data) utc) as [s|];
    [|discriminate].
  destruct (astimezone (EventCreate_end_time event_data) utc) as [t|];
    [|discriminate].
  unfold Sql.insert_event. destruct (Sql.bind _) as [cap|]; [|discriminate].
  destruct (Z.ltb_spec Sql.INT64_MAX
              (Sql.next_id (map Event_id (events db)))) as [|Hmax];
    [discriminate|].
  intros [= <- <-]. cbn [Event_id].
  set (e := mkEvent _ _ _ _ _ _).
  assert (Hid : int64 (Event_id e)).
  { pose proof (next_id_positive (map Event_id (events db))).
    unfold e. cbn [Event_id]. int64_lia. }
  assert (Hfresh : find (fun b => Event_id b =? Event_id e) (events db) = None).
  { destruct (find _ (events db)) as [b|] eqn:Eb; [|reflexivity].
    apply find_some in Eb as [Hin Heq]. apply Z.eqb_eq in Heq.
    pose proof (next_id_above (map Event_id (events db)) (Event_id b)
                  (in_map _ _ _ Hin)) as Hlt.
    unfold e in Heq. cbn [Event_id] in Heq. lia. }
  split; [|split].
  - change (Sql.next_id (map Event_id (events db))) with (Event_id e).
    now rewrite (select_event_int64 _ _ Hid), Hfresh.
  - change (Sql.next_id (map Event_id (events db))) with (Event_id e).
    unfold EventService.get_event_by_id, execute.
    rewrite (select_event_int64 _ _ Hid). cbn [events].
    rewrite (find_none_app _ _ _ Hfresh). cbn [find].
    now rewrite Z.eqb_refl.
  - intros event_id Hne. unfold EventService.get_event_by_id, execute.
    f_equal. unfold Sql.select_event.
    destruct (Sql.bind event_id) as [id|] eqn:Eid; [|reflexivity].
    apply bind_return in Eid as [-> _]. cbn [bindR events]. f_equal.
    destruct (find (fun b => Event_id b =? event_id) (events db)) as [b|]
      eqn:Eb.
    + now apply find_some_app.
    + rewrite (find_none_app _ _ _ Eb). cbn [find].
      destruct (Z.eqb_spec (Event_id e) event_id) as [Heq|_];
        [elim Hne; symmetry; exact Heq|reflexivity].
Qed.

End Events.

(* ================================================================== *)
(** * Further properties: the upcoming events *)
(* ================================================================== *)

Lemma insert_by_start_perm e l :
  Permutation (e :: l) (EventService.insert_by_start e l).
Proof.
  induction l as [|b l IH]; cbn [EventService.insert_by_start].
  - apply Permutation_refl.
  - destruct (_ <=? _).
    + apply Permutation_refl.
    + eapply perm_trans; [apply perm_swap|]. now apply perm_skip.
Qed.

Lemma order_by_start_time_perm l :
  Permutation l (EventService.order_by_start_time l).
Proof.
  induction l as [|e l IH]; cbn [EventService.order_by_start_time fold_right].
  - constructor.
  - eapply perm_trans; [apply perm_skip, IH|]. apply insert_by_start_perm.
Qed.

Lemma insert_by_start_sorted e l :
  by_start_time l -> by_start_time (EventService.insert_by_start e l).
Proof.
  unfold by_start_time.
  induction l as [|b l IH]; cbn [EventService.insert_by_start]; intros Hs.
  - repeat constructor.
  - apply StronglySorted_inv in Hs as [Hl Hb].
    destruct (Z.leb_spec (instant (Event_start_time e))
                         (instant (Event_start_time b))) as [Hle|Hgt].
    + constructor; [now constructor|]. constructor; [exact Hle|].
      eapply Forall_impl; [|exact Hb]. cbn. intros; lia.
    + constructor; [now apply IH|].
      apply Forall_forall. intros x Hx.
      apply (Permutation_in _ (Permutation_sym (insert_by_start_perm e l)))
        in Hx as [<-|Hx]; [lia|].
      revert x Hx. now apply Forall_forall.
Qed.

Lemma order_by_start_time_sorted l :
  by_start_time (EventService.order_by_start_time l).
Proof.
  induction l as [|e l IH]; cbn [EventService.order_by_start_time fold_right].
  - constructor.
  - now apply insert_by_start_sorted.
Qed.

Lemma strongly_sorted_skipn {A : Type} (R : A -> A -> Prop) n l :
  StronglySorted R l -> StronglySorted R (skipn n l).
Proof.
  revert l. induction n as [|n IH]; intros l Hs; [exact Hs|].
  destruct l as [|x l]; [exact Hs|]. cbn [skipn].
  apply IH. now apply StronglySorted_inv in Hs.
Qed.

Lemma strongly_sorted_firstn {A : Type} (R : A -> A -> Prop) n l :
  StronglySorted R l -> StronglySorted R (firstn n l).
Proof.
  revert l. induction n as [|n IH]; intros l Hs; [constructor|].
  destruct l as [|x l]; [constructor|]. cbn [firstn].
  apply StronglySorted_inv in Hs as [Hl Hx].
  constructor; [now apply IH|].
  apply Forall_forall. intros y Hy. apply in_firstn in Hy.
  revert y Hy. now apply Forall_forall.
Qed.


(** X8.  [get_events] only reads.  It returns a list exactly when
    the numbers to skip and to limit by are integers of the store, and
    raises [OverflowError] otherwise.  What it returns are events of
    the store that end after [now], in the order of their start
    times; with a limit that is not negative there are at most
    [limit] of them; and with nothing skipped and a limit that is
    negative or no less than their number, they are all the events of
    the store ending after [now]. *)
Theorem get_events_lists_the_upcoming now skip limit db :
  let outcome := EventService.get_events now skip limit db in
  fst outcome = db
  /\ (int64 skip /\ int64 limit -> exists listed, snd outcome = Return listed)
  /\ (~ (int64 skip /\ int64 limit) -> snd outcome = Raise OverflowError)
  /\ (forall listed,
        snd outcome = Return listed ->
        (forall e, In e listed -> In e (events db) /\ upcoming now e = true)
        /\ by_start_time listed
        /\ (0 <= limit -> Z.of_nat (List.length listed) <= limit)
        /\ (skip <= 0 ->
            limit < 0
            \/ Z.of_nat (List.length (filter (upcoming now) (events db)))
               <= limit ->
            Permutation (filter (upcoming now) (events db)) listed)).
Proof.
  intros outcome. subst outcome. rewrite get_events_run. cbn [fst snd].
  set (sorted := EventService.order_by_start_time
                   (filter (upcoming now) (events db))).
  split; [reflexivity|]. split; [|split].
  - intros [Hs Hl]. rewrite (limit_offset_int64 _ _ _ Hs Hl). now eexists.
  - intros Hno. now apply limit_offset_overflow.
  - intros listed Hrows.
    pose proof (limit_offset_return _ _ _ _ Hrows) as (_ & _ & Hlisted).
    split; [|split; [|split]].
    + intros e He. apply (in_limit_offset _ _ _ _ _ Hrows) in He.
      now apply in_order_by_start_time, filter_In in He.
    + subst listed. unfold by_start_time.
      destruct (limit <? 0); [|apply strongly_sorted_firstn];
        apply strongly_sorted_skipn, order_by_start_time_sorted.
    + intros Hl. subst listed. destruct (Z.ltb_spec limit 0); [lia|].
      pose proof (firstn_le_length (Z.to_nat limit)
                    (skipn (Z.to_nat skip) sorted)). lia.
    + intros Hskip Hlimit. subst listed.
      replace (Z.to_nat skip) with O by lia. cbn [skipn].
      assert (Hlen : List.length sorted
                     = List.length (filter (upcoming now) (events db)))
        by (symmetry; apply Permutation_length, order_by_start_time_perm).
      destruct (Z.ltb_spec limit 0); [apply order_by_start_time_perm|].
      rewrite firstn_all2 by lia. apply order_by_start_time_perm.
Qed.

(* ================================================================== *)
(** * Further properties: the stores the API reaches *)
(* ================================================================== *)

Lemma strongly_sorted_snoc (l : list Z) x :
  StronglySorted Z.lt l -> (forall y, In y l -> y < x) ->
  StronglySorted Z.lt (l ++ [x]).
Proof.
  induction l as [|a l IH]; cbn [app]; intros Hs Hx.
  - repeat constructor.
  - apply StronglySorted_inv in Hs as [Hl Ha]. constructor.
    + apply IH; [exact Hl|]. intros y Hy. apply Hx. now right.
    + apply Forall_app. split; [exact Ha|]. repeat constructor.
      apply Hx. now left.
Qed.

Lemma nodup_snoc {A : Type} (l : list A) x :
  NoDup l -> ~ In x l -> NoDup (l ++ [x]).
Proof.
  intros Hl Hx. apply NoDup_app; [exact Hl|repeat constructor; intros []|].
  intros a Ha [<-|[]]. now apply Hx.
Qed.

Lemma snoc_is_longer {A : Type} (l : list A) x : l ++ [x] <> l.
Proof.
  intros Heq. apply (f_equal (@List.length A)) in Heq.
  rewrite length_app in Heq. cbn in Heq. lia.
Qed.

Lemma order_by_id_of_ascending l :
  StronglySorted Z.lt (map Attendee_id l) -> Sql.order_by_id l = l.
Proof.
  induction l as [|a l IH]; cbn [map Sql.order_by_id fold_right];
    [reflexivity|].
  intros Hs. apply StronglySorted_inv in Hs as [Hl Ha].
  fold (Sql.order_by_id l). rewrite (IH Hl).
  destruct l as [|b l]; [reflexivity|]. cbn [Sql.insert_by_id].
  inversion Ha as [|? ? Hab _]; subst.
  destruct (Z.leb_spec (Attendee_id a) (Attendee_id b)); [reflexivity|lia].
Qed.

Lemma ascending_filter (f : Attendee -> bool) l :
  StronglySorted Z.lt (map Attendee_id l) ->
  StronglySorted Z.lt (map Attendee_id (filter f l)).
Proof.
  induction l as [|a l IH]; cbn [map filter]; [trivial|].
  intros Hs. apply StronglySorted_inv in Hs as [Hl Ha].
  destruct (f a); [|now apply IH]. cbn [map]. constructor; [now apply IH|].
  apply Forall_forall. intros y Hy. apply in_map_iff in Hy as (b & <- & Hb).
  apply filter_In in Hb as [Hb _].
  assert (Hin : In (Attendee_id b) (map Attendee_id l)) by now apply in_map.
  revert Hin. generalize (Attendee_id b). now apply Forall_forall.
Qed.

Lemma key_is_new db a :
  Sql.select_attendee db (Attendee_event_id a) (Attendee_email a) = None ->
  ~ In (registration_key a) (map registration_key (attendees db)).
Proof.
  unfold Sql.select_attendee. intros Hnone Hin.
  apply in_map_iff in Hin as (b & Hkey & Hb).
  pose proof (find_none _ _ Hnone b Hb) as Hb'. cbn in Hb'.
  unfold registration_key in Hkey. injection Hkey as Hid Hemail.
  unfold Sql.of_event in Hb'. rewrite Hid, Hemail in Hb'.
  now rewrite Z.eqb_refl, String.eqb_refl in Hb'.
Qed.

Section Reach.
Context `{PythonRuntime}.

(** X9.  In every store reached by serving requests from the empty
    one, no two attendee rows share their [(event_id, email)] pair,
    and in both tables the ids grow along the rows, so that no id
    occurs twice.  Served one after the other, registrations therefore
    never meet the uniqueness constraint. *)
Theorem registrations_stay_unique reqs :
  let db := fst (Router.serve reqs empty_db) in
  NoDup (map registration_key (attendees db))
  /\ StronglySorted Z.lt (map Attendee_id (attendees db))
  /\ StronglySorted Z.lt (map Event_id (events db)).
Proof.
  apply (serve_keeps (fun db =>
           NoDup (map registration_key (attendees db))
           /\ StronglySorted Z.lt (map Attendee_id (attendees db))
           /\ StronglySorted Z.lt (map Event_id (events db)))).
  - intros req d (Hk & Ha & He).
    destruct (handle_change req d)
      as [->|[(e & _ & Hid & _ & _ & ->)|(e & a & _ & _ & Hnew & Hid & ->)]];
      cbn [events attendees]; repeat split; try assumption.
    + rewrite map_app. apply strongly_sorted_snoc; [exact He|].
      intros y Hy. rewrite Hid. now apply next_id_above.
    + rewrite map_app. apply nodup_snoc; [exact Hk|]. now apply key_is_new.
    + rewrite map_app. apply strongly_sorted_snoc; [exact Ha|].
      intros y Hy. apply in_map_iff in Hy as (b & <- & Hb). now apply Hid.
  - cbn. repeat split; constructor.
Qed.

(** X10.  In every store reached by serving requests from the empty
    one, ordering the attendees of an event by id changes nothing:
    the rows of an event already lie in the order of their ids, which
    is the order in which they registered.  The pages of
    [get_attendees_for_event] thus follow the registrations. *)
Theorem pages_follow_the_registrations reqs event_id :
  let db := fst (Router.serve reqs empty_db) in
  Sql.order_by_id (attendees_of db event_id) = attendees_of db event_id.
Proof.
  intros db. apply order_by_id_of_ascending. unfold attendees_of.
  apply ascending_filter.
  apply (serve_keeps (fun db =>
           StronglySorted Z.lt (map Attendee_id (attendees db)))).
  - intros req d Ha.
    destruct (handle_change req d)
      as [->|[(e & _ & _ & _ & _ & ->)|(e & a & _ & _ & _ & Hid & ->)]];
      cbn [attendees]; try assumption.
    rewrite map_app. apply strongly_sorted_snoc; [exact Ha|].
    intros y Hy. apply in_map_iff in Hy as (b & <- & Hb). now apply Hid.
  - constructor.
Qed.

(** X11.  Serving requests never removes or changes a row: whatever
    the requests and the store they start on, both tables of the
    store they leave begin with the rows that were there, in the same
    order, and there is one answer per request. *)
Theorem tables_only_grow reqs db :
  (exists more, events (fst (Router.serve reqs db)) = events db ++ more)
  /\ (exists more,
        attendees (fst (Router.serve reqs db)) = attendees db ++ more)
  /\ List.length (snd (Router.serve reqs db)) = List.length reqs.
Proof.
  revert db. induction reqs as [|req reqs IH]; intros db.
  - cbn. split; [|split]; try reflexivity; exists []; now rewrite app_nil_r.
  - rewrite serve_cons. cbn [fst snd List.length].
    destruct (IH (fst (Router.handle req db))) as ([evs Hevs] & [atts Hatts] & Hlen).
    rewrite Hevs, Hatts, Hlen.
    destruct (handle_change req db)
      as [->|[(e & _ & _ & _ & _ & ->)|(e & a & _ & _ & _ & _ & ->)]];
      cbn [events attendees].
    + split; [|split]; [now exists evs|now exists atts|reflexivity].
    + split; [|split]; [|now exists atts|reflexivity].
      exists (e :: evs). now rewrite <- app_assoc.
    + split; [|split]; [now exists evs| |reflexivity].
      exists (a :: atts). now rewrite <- app_assoc.
Qed.

(** X12.  In every store reached by serving requests from the empty
    one, the two times of every event are bare readings, without
    [tzinfo]: whatever offsets the requests came with, what the store
    hands back carries no zone. *)
Theorem stored_times_carry_no_zone reqs e :
  In e (events (fst (Router.serve reqs empty_db))) -> stored_naive e.
Proof.
  revert e.
  apply (serve_keeps (fun db => forall e, In e (events db) -> stored_naive e)).
  - intros req d Hd.
    destruct (handle_change req d)
      as [->|[(e' & Hnaive & _ & _ & _ & ->)|(e' & a & _ & _ & _ & _ & ->)]];
      cbn [events]; try assumption.
    intros e He. apply in_app_or in He as [He|[<-|[]]];
      [now apply Hd|exact Hnaive].
  - intros e [].
Qed.

End Reach.

(* ================================================================== *)
(** * Further properties: validation and presentation *)
(* ================================================================== *)

Section Presentation.
Context `{PythonRuntime}.


Lemma to_response_raise z e x :
  Router.to_response z e = Raise x -> from_a_library x.
Proof.
  unfold Router.to_response, EventResponseModel.validate, bindR.
  destruct (astimezone (Event_start_time e) z) as [s|y] eqn:Es;
    [|intros [= <-];
      exact (overflow_from_a_library _ (astimezone_raise _ _ _ Es))].
  destruct (astimezone (Event_end_time e) z) as [t|y] eqn:Et;
    [|intros [= <-];
      exact (overflow_from_a_library _ (astimezone_raise _ _ _ Et))].
  destruct (EventBase.validate _) as [ev|y] eqn:Ev; [discriminate|].
  intros [= <-]. exact (validate_raise _ _ Ev).
Qed.

Lemma to_responses_raise z l x :
  Router.to_responses z l = Raise x -> from_a_library x.
Proof.
  induction l as [|e l IH]; cbn [Router.to_responses]; [discriminate|].
  unfold bindR.
  destruct (Router.to_response z e) as [r|y] eqn:Er;
    [|intros [= <-]; exact (to_response_raise _ _ _ Er)].
  destruct (Router.to_responses z l) as [rs|y]; [discriminate|].
  intros [= <-]. now apply IH.
Qed.


End Presentation.

Section Validation_edges.
Context `{PythonRuntime}.

(** X14.  An accepted body is well formed: when validation returns
    an event, its name, location and capacity are the values given,
    both of its times are aware, its end is after its start, and a
    time that came in aware is the time of the event, unchanged. *)
Theorem accepted_events_are_well_formed raw ev :
  EventBase.validate raw = Return ev ->
  raw_name raw = Given (EventCreate_name ev)
  /\ raw_location raw = Given (EventCreate_location ev)
  /\ raw_max_capacity raw = Given (EventCreate_max_capacity ev)
  /\ aware (EventCreate_start_time ev)
  /\ aware (EventCreate_end_time ev)
  /\ instant (EventCreate_start_time ev) < instant (EventCreate_end_time ev)
  /\ (exists vs,
        raw_start_time raw = Some vs
        /\ forall d, raw_datetime vs = Some d -> aware d ->
                     EventCreate_start_time ev = d)
  /\ (exists ve,
        raw_end_time raw = Some ve
        /\ forall d, raw_datetime ve = Some d -> aware d ->
                     EventCreate_end_time ev = d).
Proof.
  intros Hv. destruct (validate_window _ _ Hv) as (Has & Hae & Hwin).
  apply validate_return in Hv
    as (Hn & Hl & Hc & [vs [Hvs Hs]] & [ve [Hve He]] & _).
  repeat (split; [assumption|]). split.
  - exists vs. split; [exact Hvs|]. intros d Hd Ha.
    rewrite (ensure_of_aware vs d Hd Ha) in Hs. congruence.
  - exists ve. split; [exact Hve|]. intros d Hd Ha.
    rewrite (ensure_of_aware ve d Hd Ha) in He. congruence.
Qed.

(** X15.  A [start_time] that is neither a string nor a [datetime]
    (a number, [null]) is not a validation failure: the validator
    reads its [tzinfo] attribute, the [AttributeError] is not one of
    the exceptions validation catches, and [POST /events/] answers
    500, whatever the other fields are; nothing is stored. *)
Theorem non_string_time_is_a_server_error raw db :
  raw_start_time raw = Some RawOther ->
  EventBase.validate raw = Raise AttributeError
  /\ Router.create_event raw db
     = (db, mkResponse HTTP_500_INTERNAL_SERVER_ERROR InternalServerError).
Proof.
  intros Hs.
  assert (Hv : EventBase.validate raw = Raise AttributeError).
  { unfold EventBase.validate.
    destruct (Pydantic.validate_str "name" _).
    destruct (Pydantic.validate_str "location" _).
    now rewrite Hs. }
  split; [exact Hv|]. unfold Router.create_event. now rewrite Hv.
Qed.

(** X16.  A [start_time] string that [fromisoformat] does not parse
    is a validation failure of that field, with the message of the
    [ValueError] that [fromisoformat] raised: with an [end_time] that
    is aware, validation raises a [ValidationError] listing
    [start_time] with that message, and [POST /events/] answers 422
    and stores nothing. *)
Theorem unparsed_time_is_a_validation_error raw text msg ve e db :
  raw_start_time raw = Some (RawStr text) ->
  fromisoformat text = inr msg ->
  raw_end_time raw = Some ve ->
  raw_datetime ve = Some e ->
  aware e ->
  exists errors,
    EventBase.validate raw = Raise (ValidationError errors)
    /\ In ("start_time", msg) errors
    /\ Router.create_event raw db
       = (db, mkResponse HTTP_422_UNPROCESSABLE_ENTITY
                         (ValidationBody errors)).
Proof.
  intros Hs Htext Hve He Hae.
  assert (Hv : exists errors,
             EventBase.validate raw = Raise (ValidationError errors)
             /\ In ("start_time", msg) errors).
  { unfold EventBase.validate.
    destruct (Pydantic.validate_str "name" _) as [name e1].
    destruct (Pydantic.validate_str "location" _) as [location e2].
    rewrite Hs, Hve. unfold EventBase.validate_start_time,
      EventBase.validate_end_time.
    rewrite (ensure_of_aware _ _ He Hae).
    unfold EventBase.ensure_timezone_awareness at 1. rewrite Htext.
    cbn [bindR Pydantic.apply_validators
         EventBase.end_time_must_be_after_start_time].
    destruct (Pydantic.validate_int _ _) as [cap e5].
    match goal with
    | |- context [match ?l with nil => _ | cons _ _ => _ end] =>
        assert (Hin : In ("start_time", msg) l)
          by (repeat rewrite in_app_iff; cbn [In]; tauto);
        destruct l as [|x l']; [destruct Hin|]
    end.
    eexists. split; [reflexivity|exact Hin]. }
  destruct Hv as (errors & Hv & Hin). exists errors.
  split; [exact Hv|]. split; [exact Hin|].
  unfold Router.create_event. now rewrite Hv.
Qed.

(** X17.  [ensure_timezone_awareness] is idempotent: whatever value
    it returns, it returns unchanged when given it again. *)
Theorem ensure_timezone_awareness_is_idempotent v d :
  EventBase.ensure_timezone_awareness v = Return d ->
  EventBase.ensure_timezone_awareness (RawDatetime d) = Return d.
Proof.
  intros Hv. apply ensure_of_aware; [reflexivity|].
  exact (ensure_aware v d Hv).
Qed.

End Validation_edges.

(* ================================================================== *)
(** * Further properties: requests from end to end *)
(* ================================================================== *)

Section End_to_end.
Context `{PythonRuntime}.

Lemma limit_offset_raise {A : Type} offset limit (l : list A) x :
  (rows <- Sql.offset_rows offset l ;; Sql.limit_rows limit rows) = Raise x ->
  x = OverflowError.
Proof.
  intros Hr. destruct (int64_dec offset) as [Ho|Ho];
    [destruct (int64_dec limit) as [Hl|Hl]|].
  - now rewrite (limit_offset_int64 _ _ _ Ho Hl) in Hr.
  - rewrite limit_offset_overflow in Hr by tauto. now injection Hr.
  - rewrite limit_offset_overflow in Hr by tauto. now injection Hr.
Qed.

Lemma read_events_status now skip limit name db :
  status_code (snd (Router.read_events now skip limit name db))
  <> HTTP_201_CREATED.
Proof.
  unfold Router.read_events.
  destruct (pytz_timezone name) as [z|]; [|discriminate].
  unfold respond, bindS. rewrite get_events_run.
  destruct (bindR _ _) as [listed|x] eqn:El.
  - destruct (Router.to_responses z listed) as [shown|x] eqn:Es;
      [discriminate|].
    cbn [snd]. rewrite (exception_response_500 _ (to_responses_raise _ _ _ Es)).
    discriminate.
  - cbn [snd]. apply limit_offset_raise in El as ->. discriminate.
Qed.

Lemma get_event_attendees_status event_id p s db :
  status_code (snd (Router.get_event_attendees event_id p s db))
  <> HTTP_201_CREATED.
Proof.
  unfold Router.get_event_attendees.
  destruct (p <? 1); [discriminate|]. destruct (s <? 1); [discriminate|].
  destruct (100 <? s); [discriminate|]. unfold respond.
  rewrite get_attendees_among.
  destruct (Sql.select_event db event_id) as [[e|]|x] eqn:Ee.
  - cbv zeta. destruct (bindR (Sql.offset_rows _ _) _) as [rows|x] eqn:Er;
      [discriminate|].
    cbn [bindR snd]. apply limit_offset_raise in Er as ->. discriminate.
  - discriminate.
  - apply select_event_raise in Ee as [-> _]. discriminate.
Qed.

(** X19.  What an answer says about the store.  Whatever the
    request, one of three things has happened.  Nothing was written,
    and the answer is no 201.  Or the request was a [POST /events/]
    that appended one event row, and the answer is a 201 or, when the
    answer could not be built from the row, a 500: the row is there
    all the same.  Or the request was a registration that appended
    one attendee row, and the answer is a 201.  So a 201 has always
    written one row, and an answer that is neither a 201 nor a 500 has
    written nothing. *)
Theorem answers_and_writes req db :
  let db' := fst (Router.handle req db) in
  let answer := snd (Router.handle req db) in
  (db' = db /\ status_code answer <> HTTP_201_CREATED
   \/ (exists raw e,
          req = Router.POST_events raw
          /\ db' = mkDB (events db ++ [e]) (attendees db)
          /\ ((exists r, answer = mkResponse HTTP_201_CREATED (EventBody r))
              \/ answer = internal_server_error))
   \/ (exists event_id attendee a,
          req = Router.POST_register event_id attendee
          /\ db' = mkDB (events db) (attendees db ++ [a])
          /\ answer = mkResponse HTTP_201_CREATED (AttendeeBody a)))
  /\ (status_code answer = HTTP_201_CREATED -> db' <> db)
  /\ (status_code answer <> HTTP_201_CREATED ->
      status_code answer <> HTTP_500_INTERNAL_SERVER_ERROR ->
      db' = db).
Proof.
  intros db' answer.
  assert (Hcases :
    db' = db /\ status_code answer <> HTTP_201_CREATED
    \/ (exists raw e,
           req = Router.POST_events raw
           /\ db' = mkDB (events db ++ [e]) (attendees db)
           /\ ((exists r, answer = mkResponse HTTP_201_CREATED (EventBody r))
               \/ answer = internal_server_error))
    \/ (exists event_id attendee a,
           req = Router.POST_register event_id attendee
           /\ db' = mkDB (events db) (attendees db ++ [a])
           /\ answer = mkResponse HTTP_201_CREATED (AttendeeBody a))).
  { subst db' answer.
    destruct req as [raw|now skip limit tz|id att|id p s]; cbn [Router.handle].
    - destruct (create_event_cases raw db)
        as [[Hrun Hanswer]|(ev & _ & _ & _ & Hrun)].
      + left. rewrite Hrun at 1. cbn [fst]. split; [reflexivity|].
        destruct Hanswer as [[errors ->]| ->]; discriminate.
      + cbv zeta in Hrun. right. left. rewrite Hrun. cbn [fst snd].
        eexists raw, _. split; [reflexivity|]. split; [reflexivity|].
        destruct (Router.response_model _) as [r|x];
          [left; now exists r|now right].
    - left. split; [|apply read_events_status].
      exact (reads_keep_store (Router.GET_events now skip limit tz) db I).
    - destruct (Router.register_for_event id att db) as [d r] eqn:Er.
      cbn [fst snd].
      apply register_for_event_effect in Er
        as [[-> Hr]|(e & a & _ & _ & _ & _ & _ & -> & ->)]; [now left|].
      right. right. now exists id, att, a.
    - left. split; [|apply get_event_attendees_status].
      exact (reads_keep_store (Router.GET_attendees id p s) db I). }
  split; [exact Hcases|]. split.
  - intros H201 Hsame.
    destruct Hcases as [[_ Hno]|[(raw & e & _ & Hdb & _)|(id & att & a & _ & Hdb & _)]].
    + now elim Hno.
    + rewrite Hsame in Hdb. apply (f_equal events) in Hdb. cbn [events] in Hdb.
      symmetry in Hdb. exact (snoc_is_longer _ _ Hdb).
    + rewrite Hsame in Hdb. apply (f_equal attendees) in Hdb.
      cbn [attendees] in Hdb. symmetry in Hdb. exact (snoc_is_longer _ _ Hdb).
  - intros Hno201 Hno500.
    destruct Hcases as [[Hsame _]|[(raw & e & _ & _ & Hans)|(id & att & a & _ & _ & Hans)]].
    + exact Hsame.
    + destruct Hans as [[r Hr]|Hr]; rewrite Hr in *; cbn in *; congruence.
    + rewrite Hans in *. cbn in *. congruence.
Qed.

(** X20.  Times sent without an offset are stored shifted, and
    answered relabelled.  With [Asia/Kolkata] at a single offset from
    [T0] on, take a body whose two times are naive and whose end reads
    later than its start, the readings and the readings less the
    offset all at least a day after [T0] and a day before the end of
    the year 9999, with a capacity the store takes and a key left in
    the table.  The request is answered 201.  Its event is stored at
    the readings of the body less the offset: five and a half hours
    earlier than written, in the zone database of today.  And the
    answer carries the stored readings with the offset of the zone
    attached again, which are other instants than the body's. *)
Theorem naive_times_are_stored_shifted
        z ist T0 name location cap vs ve s e db :
  pytz_timezone "Asia/Kolkata" = Some z ->
  (forall t, T0 <= t -> info_at z t = ist) ->
  0 <= T0 -> - DAY <= ti_utcoffset ist <= DAY ->
  raw_datetime vs = Some s -> raw_datetime ve = Some e ->
  dt_tzinfo s = None -> dt_tzinfo e = None ->
  settled T0 (wall s) -> settled T0 (wall e) ->
  settled T0 (wall s - ti_utcoffset ist) ->
  settled T0 (wall e - ti_utcoffset ist) ->
  wall s < wall e ->
  int64 cap ->
  Sql.next_id (map Event_id (events db)) <= 2 ^ 63 - 1 ->
  let kolkata := Some (pytz_tzinfo (zone_name z) ist) in
  let id := Sql.next_id (map Event_id (events db)) in
  let stored_start := wall s - ti_utcoffset ist in
  let stored_end := wall e - ti_utcoffset ist in
  Router.create_event
    (mkRawEvent (Given name) (Given location) (Some vs) (Some ve) (Given cap))
    db
  = (mkDB (events db
           ++ [mkEvent id name location (mkDatetime stored_start None)
                 (mkDatetime stored_end None) cap])
          (attendees db),
     mkResponse HTTP_201_CREATED
       (EventBody
          (mkEventResponse id
             (mkEventCreate name location
                (mkDatetime stored_start kolkata)
                (mkDatetime stored_end kolkata) cap)))).
Proof.
  intros Hz Hist HT0 Hoff Hs He Hns Hne Hss Hse Hss' Hse' Hlt Hcap Hid
         kolkata id stored_start stored_end.
  pose proof (ensure_under_assumed_zone z ist T0 vs s Hz Hist HT0 Hoff Hs
                (fun _ => Hss)) as Hvs.
  pose proof (ensure_under_assumed_zone z ist T0 ve e Hz Hist HT0 Hoff He
                (fun _ => Hse)) as Hve.
  unfold under_assumed_zone in Hvs, Hve. rewrite Hns in Hvs. rewrite Hne in Hve.
  unfold Router.create_event.
  rewrite (validate_given name location vs ve _ _ cap Hvs Hve)
    by (unfold instant; cbn; lia).
  unfold respond, bindS, EventService.create_event.
  cbn [EventCreate_start_time EventCreate_end_time EventCreate_name
       EventCreate_location EventCreate_max_capacity].
  destruct Hss' as [Hslo Hshi]. destruct Hse' as [Helo Hehi].
  rewrite !astimezone_utc_returns;
    try discriminate;
    try (apply in_range_true; unfold instant; cbn; clock_lia).
  unfold Sql.insert_event. rewrite (bind_int64 _ Hcap). fold id.
  destruct (Z.ltb_spec Sql.INT64_MAX id); [unfold id in *; int64_lia|].
  unfold Sql.stored_datetime, replace_tzinfo, instant.
  cbn [wall dt_tzinfo utcoffset]. fold stored_start stored_end.
  unfold Router.response_model, EventResponseModel.validate.
  cbn [Event_id Event_name Event_location Event_start_time Event_end_time
       Event_max_capacity].
  assert (Hrs : EventBase.ensure_timezone_awareness
                  (RawDatetime (mkDatetime stored_start None))
                = Return (mkDatetime stored_start kolkata)).
  { apply (ensure_under_assumed_zone z ist T0
             (RawDatetime (mkDatetime stored_start None))
             (mkDatetime stored_start None)
             Hz Hist HT0 Hoff eq_refl).
    intros _. split; assumption. }
  assert (Hre : EventBase.ensure_timezone_awareness
                  (RawDatetime (mkDatetime stored_end None))
                = Return (mkDatetime stored_end kolkata)).
  { apply (ensure_under_assumed_zone z ist T0
             (RawDatetime (mkDatetime stored_end None))
             (mkDatetime stored_end None)
             Hz Hist HT0 Hoff eq_refl).
    intros _. split; assumption. }
  rewrite (validate_given name location _ _ _ _ cap Hrs Hre)
    by (unfold instant, stored_start, stored_end; cbn; lia).
  reflexivity.
Qed.

End End_to_end.

(* ================================================================== *)
(** * Runs of the further properties *)
(* ================================================================== *)

Lemma non_positive_capacity_takes_nobody_run :
  AttendeeService.register_attendee sequential 1 Sample.john
    (fst (Sample.served
            [Router.POST_events (with_max_capacity 0 Sample.meetup)]))
  = (fst (Sample.served
            [Router.POST_events (with_max_capacity 0 Sample.meetup)]),
     Raise full_capacity).
Proof.
  eapply non_positive_capacity_takes_nobody.
  - vm_compute. reflexivity.
  - vm_compute. discriminate.
Defined.

Lemma capacity_check_is_not_atomic_run :
  exists db' a,
    AttendeeService.register_attendee Scenario.racing_for_last_place 1
      Sample.john Sample.workshop_open
    = (db', Return a)
    /\ attendees db'
       = attendees (store_at Scenario.racing_for_last_place 3
                             Sample.workshop_open) ++ [a]
    /\ Sql.count_attendees db' 1
       = Sql.count_attendees
           (store_at Scenario.racing_for_last_place 3 Sample.workshop_open) 1
         + 1.
Proof.
  apply (capacity_check_is_not_atomic Scenario.racing_for_last_place
           Sample.workshop_open 1 Scenario.workshop_row Sample.john).
  - vm_compute. reflexivity.
  - vm_compute. reflexivity.
  - vm_compute. reflexivity.
  - vm_compute. reflexivity.
Defined.

(** The run above leaves two attendees on the workshop, whose
    capacity is one. *)
Example workshop_is_overbooked :
  Sql.count_attendees
    (fst (AttendeeService.register_attendee Scenario.racing_for_last_place 1
            Sample.john Sample.workshop_open)) 1
  = 2
  /\ Event_max_capacity Scenario.workshop_row = 1.
Proof. split; vm_compute; reflexivity. Qed.

(** An event of the night of 1941 is committed and answered 500: its
    two readings, read in [Asia/Kolkata] to build the answer, fall on
    either side of the hour the clocks skipped, the later reading at
    the earlier instant, and the answer fails the validator of
    [end_time]. *)
Example night_of_1941_is_stored_and_answered_500 :
  Router.create_event (H := CPython.runtime) Scenario.night_of_1941 empty_db
  = (mkDB [mkEvent 1 "Night Watch" "Local Hall"
             (mkDatetime 61244037000000000 None)
             (mkDatetime 61244038800000000 None) 10] [],
     internal_server_error)
  /\ Router.response_model (H := CPython.runtime)
       (mkEvent 1 "Night Watch" "Local Hall"
          (mkDatetime 61244037000000000 None)
          (mkDatetime 61244038800000000 None) 10)
     = Raise (ValidationError
                [("end_time", "End time must be after start time")]).
Proof. split; vm_compute; reflexivity. Qed.

Lemma page_holds_what_is_left_run :
  exists r,
    AttendeeService.get_attendees_for_event sequential 1 2 1
      Sample.meetup_full
    = (Sample.meetup_full, Return r)
    /\ Z.of_nat (List.length (items r))
       = Z.min 1
           (Z.max 0
              (Z.of_nat (List.length (attendees_of Sample.meetup_full 1))
               - (2 - 1) * 1)).
Proof.
  apply (page_holds_what_is_left Sample.meetup_full 1 Sample.meetup_row 2 1).
  - vm_compute. reflexivity.
  - split; vm_compute; discriminate.
  - lia.
  - vm_compute. discriminate.
Defined.

Lemma create_event_normalises_to_utc_run :
  exists e,
    EventService.create_event (H := CPython.runtime) Scenario.meetup_data
      empty_db
    = (mkDB (events empty_db ++ [e]) (attendees empty_db), Return e)
    /\ Event_name e = EventCreate_name Scenario.meetup_data
    /\ Event_location e = EventCreate_location Scenario.meetup_data
    /\ Event_max_capacity e = EventCreate_max_capacity Scenario.meetup_data
    /\ Event_start_time e
       = mkDatetime (instant (EventCreate_start_time Scenario.meetup_data))
                    None
    /\ Event_end_time e
       = mkDatetime (instant (EventCreate_end_time Scenario.meetup_data))
                    None
    /\ (forall b, In b (events empty_db) -> Event_id b < Event_id e).
Proof.
  eapply proj1.
  apply (create_event_normalises_to_utc (H := CPython.runtime)
           Scenario.meetup_data empty_db).
  - discriminate.
  - discriminate.
  - vm_compute. reflexivity.
  - vm_compute. reflexivity.
  - split; vm_compute; discriminate.
  - vm_compute. discriminate.
Defined.

Lemma created_event_is_found_run :
  Sql.select_event empty_db (Event_id Sample.meetup_row) = Return None
  /\ EventService.get_event_by_id (Event_id Sample.meetup_row)
       Sample.meetup_open
     = (Sample.meetup_open, Return (Some Sample.meetup_row))
  /\ (forall event_id,
        event_id <> Event_id Sample.meetup_row ->
        EventService.get_event_by_id event_id Sample.meetup_open
        = (Sample.meetup_open, Sql.select_event empty_db event_id)).
Proof.
  apply (created_event_is_found (H := CPython.runtime)
           Scenario.meetup_data empty_db Sample.meetup_open Sample.meetup_row).
  vm_compute. reflexivity.
Defined.

Lemma stored_times_carry_no_zone_run : stored_naive Sample.meetup_row.
Proof.
  apply (stored_times_carry_no_zone (H := CPython.runtime) Sample.meetup_run).
  vm_compute. left. reflexivity.
Defined.

Lemma accepted_events_are_well_formed_run :
  raw_name Sample.meetup = Given "Community Meetup"
  /\ raw_location Sample.meetup = Given "Local Hall"
  /\ raw_max_capacity Sample.meetup = Given 2
  /\ aware (EventCreate_start_time Scenario.meetup_data)
  /\ aware (EventCreate_end_time Scenario.meetup_data)
  /\ instant (EventCreate_start_time Scenario.meetup_data)
     < instant (EventCreate_end_time Scenario.meetup_data)
  /\ (exists vs,
        raw_start_time Sample.meetup = Some vs
        /\ forall d, raw_datetime (H := CPython.runtime) vs = Some d ->
                     aware d ->
                     EventCreate_start_time Scenario.meetup_data = d)
  /\ (exists ve,
        raw_end_time Sample.meetup = Some ve
        /\ forall d, raw_datetime (H := CPython.runtime) ve = Some d ->
                     aware d ->
                     EventCreate_end_time Scenario.meetup_data = d).
Proof.
  apply (accepted_events_are_well_formed (H := CPython.runtime)
           Sample.meetup Scenario.meetup_data).
  vm_compute. reflexivity.
Defined.

Lemma non_string_time_is_a_server_error_run :
  EventBase.validate (H := CPython.runtime) Scenario.numeric_meetup
  = Raise AttributeError
  /\ Router.create_event (H := CPython.runtime) Scenario.numeric_meetup
       empty_db
     = (empty_db,
        mkResponse HTTP_500_INTERNAL_SERVER_ERROR InternalServerError).
Proof.
  apply (non_string_time_is_a_server_error (H := CPython.runtime)
           Scenario.numeric_meetup empty_db).
  reflexivity.
Defined.

Lemma unparsed_time_is_a_validation_error_run :
  exists errors,
    EventBase.validate (H := CPython.runtime) Scenario.garbled_meetup
    = Raise (ValidationError errors)
    /\ In ("start_time", "Invalid isoformat string: 'tomorrow at ten'") errors
    /\ Router.create_event (H := CPython.runtime) Scenario.garbled_meetup
         empty_db
       = (empty_db,
          mkResponse HTTP_422_UNPROCESSABLE_ENTITY (ValidationBody errors)).
Proof.
  apply (unparsed_time_is_a_validation_error (H := CPython.runtime)
           Scenario.garbled_meetup "tomorrow at ten"
           "Invalid isoformat string: 'tomorrow at ten'"
           (RawStr "2030-01-01T13:00:00+00:00")
           (mkDatetime 64029099600000000 (Some (timezone 0))) empty_db).
  - reflexivity.
  - vm_compute. reflexivity.
  - reflexivity.
  - vm_compute. reflexivity.
  - discriminate.
Defined.

Lemma ensure_timezone_awareness_is_idempotent_run :
  EventBase.ensure_timezone_awareness (H := CPython.runtime)
    (RawDatetime (mkDatetime 64029088800000000
                    (Some (pytz_tzinfo "Asia/Kolkata" CPython.IST))))
  = Return (mkDatetime 64029088800000000
              (Some (pytz_tzinfo "Asia/Kolkata" CPython.IST))).
Proof.
  apply (ensure_timezone_awareness_is_idempotent (H := CPython.runtime)
           (RawStr "2030-01-01T10:00:00")).
  vm_compute. reflexivity.
Defined.

Lemma registered_attendee_is_found_run :
  Sql.select_attendee
    (fst (AttendeeService.register_attendee sequential 1 Sample.john
            Sample.meetup_open))
    1 (AttendeeCreate_email Sample.john)
  = Some (mkAttendee 1 "John Doe" "john.doe@example.com" 1)
  /\ Sql.count_attendees
       (fst (AttendeeService.register_attendee sequential 1 Sample.john
               Sample.meetup_open)) 1
     = Sql.count_attendees Sample.meetup_open 1 + 1
  /\ (forall other, other <> 1 ->
                    Sql.count_attendees
                      (fst (AttendeeService.register_attendee sequential 1
                              Sample.john Sample.meetup_open)) other
                    = Sql.count_attendees Sample.meetup_open other)
  /\ events (fst (AttendeeService.register_attendee sequential 1 Sample.john
                    Sample.meetup_open))
     = events Sample.meetup_open.
Proof.
  apply (registered_attendee_is_found Sample.meetup_open 1 Sample.john).
  vm_compute. reflexivity.
Defined.

Lemma naive_times_are_stored_shifted_run :
  Router.create_event (H := CPython.runtime) Sample.naive_meetup empty_db
  = (mkDB (events empty_db
           ++ [mkEvent 1 "Community Meetup" "Local Hall"
                 (mkDatetime (64029088800000000 - ti_utcoffset CPython.IST)
                    None)
                 (mkDatetime (64029099600000000 - ti_utcoffset CPython.IST)
                    None) 2])
          (attendees empty_db),
     mkResponse HTTP_201_CREATED
       (EventBody
          (mkEventResponse 1
             (mkEventCreate "Community Meetup" "Local Hall"
                (mkDatetime (64029088800000000 - ti_utcoffset CPython.IST)
                   (Some (pytz_tzinfo "Asia/Kolkata" CPython.IST)))
                (mkDatetime (64029099600000000 - ti_utcoffset CPython.IST)
                   (Some (pytz_tzinfo "Asia/Kolkata" CPython.IST))) 2)))).
Proof.
  apply (naive_times_are_stored_shifted (H := CPython.runtime)
           CPython.Asia_Kolkata CPython.IST Sample.kolkata_T0
           "Community Meetup" "Local Hall" 2
           (RawStr "2030-01-01T10:00:00") (RawStr "2030-01-01T13:00:00")
           (mkDatetime 64029088800000000 None)
           (mkDatetime 64029099600000000 None) empty_db).
  - reflexivity.
  - exact kolkata_settled.
  - vm_compute. discriminate.
  - split; vm_compute; discriminate.
  - vm_compute. reflexivity.
  - vm_compute. reflexivity.
  - reflexivity.
  - reflexivity.
  - split; vm_compute; [discriminate|reflexivity].
  - split; vm_compute; [discriminate|reflexivity].
  - split; vm_compute; [discriminate|reflexivity].
  - split; vm_compute; [discriminate|reflexivity].
  - vm_compute. reflexivity.
  - split; vm_compute; discriminate.
  - vm_compute. discriminate.
Defined.


Lemma get_event_attendees_answers_run :
  exists r,
    snd (Router.get_event_attendees 1 2 1 Sample.meetup_full)
    = mkResponse HTTP_200_OK (PageBody r)
    /\ page r = 2 /\ size r = 1
    /\ total r = Z.of_nat (List.length (attendees_of Sample.meetup_full 1))
    /\ Z.of_nat (List.length (items r)) <= 1.
Proof.
  apply (proj1 (proj2 (proj2 (proj2 (proj2 (get_event_attendees_answers
                                              1 2 1 Sample.meetup_full))
                                    ltac:(lia) ltac:(lia)))
                      Sample.meetup_row ltac:(vm_compute; reflexivity))).
  vm_compute. discriminate.
Defined.
